(** * BeamerHierarchy: the colour model of [beamerhierarchy/color.py]

    The Python module builds a graph of Beamer colours.  A colour is either a
    [RawColor] (one value) or a [BeamerColor] (a foreground and a background
    value), every value being stored as the hexadecimal string that
    [matplotlib.colors.to_hex] prints.  This development embeds

    - the pieces of Python the module relies on: exceptions, [int] and [round]
      on IEEE 754 doubles (Rocq's primitive binary64 floats), [format(_, "02x")];
    - the three functions of [matplotlib.colors] the module calls
      ([to_rgba], [to_rgb], [to_hex]);
    - the classes [Node], [Color], [RawColor] and [BeamerColor],

    and proves the properties of inversion, blending and inheritance
    bookkeeping.

    Naming.  The prose description of the module speaks of "foreground",
    "background" and "raw-color"; the code spells these channel names ["fg"],
    ["bg"] and ["color"], and its "UnknownChannel" failure is the
    [RuntimeError] raised by [BeamerColor.get]. *)

From Stdlib Require Import ZArith Floats Lia Ascii.
From stdpp Require Import gmap strings list.

Local Open Scope string_scope.
Local Open Scope Z_scope.

(** ** Python exceptions *)

Inductive exn : Set :=
| ValueError
| OverflowError
| RuntimeError
| IndexError
| KeyError
| AttributeError
| RecursionError.

Inductive result (A : Type) : Type :=
| Ok (a : A)
| Raise (e : exn).

Arguments Ok {A} a.
Arguments Raise {A} e.

Definition bind {A B : Type} (m : result A) (k : A -> result B) : result B :=
  match m with
  | Ok a => k a
  | Raise e => Raise e
  end.

Notation "'let*' x ':=' m 'in' k" := (bind m (fun x => k))
  (at level 10, x name, m at level 100, k at level 200).

(** [for i, x in enumerate(xs): acc = body i x acc], stopping at the first
    exception. *)
Fixpoint for_enumerate {A B : Type} (body : nat -> A -> B -> result B)
    (i : nat) (xs : list A) (acc : B) : result B :=
  match xs with
  | [] => Ok acc
  | x :: xs' => let* acc' := body i x acc in for_enumerate body (S i) xs' acc'
  end.

(** [[f(x) for x in xs]], evaluated from left to right. *)
Fixpoint map_result {A B : Type} (f : A -> result B) (xs : list A) : result (list B) :=
  match xs with
  | [] => Ok []
  | x :: xs' => let* y := f x in let* ys := map_result f xs' in Ok (y :: ys)
  end.

(** ** Python numbers and strings *)

Module Py.

(** [float(z)] for an integer of the size met here (below 2^63 in magnitude). *)
Definition float_of_Z (z : Z) : float :=
  if z <? 0 then PrimFloat.opp (PrimFloat.of_uint63 (Uint63.of_Z (- z)))
  else PrimFloat.of_uint63 (Uint63.of_Z z).

(** [a / b] on two Python integers: true division, a double. *)
Definition truediv (a b : Z) : float :=
  PrimFloat.div (float_of_Z a) (float_of_Z b).

(** [int(x)]: truncation towards zero. *)
Definition int (x : float) : result Z :=
  match Prim2SF x with
  | S754_zero _ => Ok 0
  | S754_finite s m e =>
      let a := Z.shiftl (Z.pos m) e in
      Ok (if s then - a else a)
  | S754_infinity _ => Raise OverflowError
  | S754_nan => Raise ValueError
  end.

(** [round(x)]: the nearest integer, ties going to the even one. *)
Definition round (x : float) : result Z :=
  match Prim2SF x with
  | S754_zero _ => Ok 0
  | S754_finite s m e =>
      let a :=
        if 0 <=? e then Z.shiftl (Z.pos m) e
        else
          (* m = q * 2^(-e) + r, with 0 <= r < 2^(-e) *)
          let q := Z.shiftr (Z.pos m) (- e) in
          let r := Z.pos m - Z.shiftl q (- e) in
          let half := Z.shiftl 1 (- e - 1) in
          if r <? half then q
          else if half <? r then q + 1
          else if Z.even q then q else q + 1 in
      Ok (if s then - a else a)
  | S754_infinity _ => Raise OverflowError
  | S754_nan => Raise ValueError
  end.

Definition hex_digit (d : Z) : ascii :=
  nth (Z.to_nat d) (String.list_ascii_of_string "0123456789abcdef") "0"%char.

Fixpoint hex_digits (fuel : nat) (z : Z) (acc : string) : string :=
  match fuel with
  | O => acc
  | S fuel' =>
      let acc' := String (hex_digit (z mod 16)) acc in
      if z / 16 =? 0 then acc' else hex_digits fuel' (z / 16) acc'
  end.

(** [format(z, "x")] *)
Definition format_x (z : Z) : string :=
  let body := hex_digits (S (Z.to_nat (Z.log2 (Z.abs z)))) (Z.abs z) "" in
  if z <? 0 then String "-" body else body.

(** [format(z, "02x")]: zero padded to two characters, sign included. *)
Definition format_02x (z : Z) : string :=
  let s := format_x z in
  if (String.length s <? 2)%nat then String "0" s else s.

Definition lower_char (c : ascii) : ascii :=
  let n := nat_of_ascii c in
  if ((65 <=? n) && (n <=? 90))%nat then ascii_of_nat (n + 32) else c.

(** [s.lower()] on ASCII text. *)
Fixpoint lower (s : string) : string :=
  match s with
  | EmptyString => EmptyString
  | String c s' => String (lower_char c) (lower s')
  end.

(** The value of a hexadecimal digit, either case. *)
Definition xdigit_val (c : ascii) : option Z :=
  let n := Z.of_nat (nat_of_ascii c) in
  if (48 <=? n) && (n <=? 57) then Some (n - 48)
  else if (97 <=? n) && (n <=? 102) then Some (n - 87)
  else if (65 <=? n) && (n <=? 70) then Some (n - 55)
  else None.

(** The character class [[a-fA-F0-9]]. *)
Definition is_xdigit (c : ascii) : bool :=
  match xdigit_val c with Some _ => true | None => false end.

(** [int(s, 16)] on a string of hexadecimal digits. *)
Definition int16 (s : string) : Z :=
  fold_left
    (fun acc c => 16 * acc + match xdigit_val c with Some d => d | None => 0 end)
    (String.list_ascii_of_string s) 0.

End Py.

(** ** [matplotlib.colors] *)

Module colors.

(** What the module hands to matplotlib as a colour: a string (a name or a
    [#rrggbb] / [#rrggbbaa] hexadecimal form) or a sequence of numbers. *)
Inductive color_arg : Type :=
| CStr (s : string)
| CSeq (l : list float).

(** The entries of matplotlib's table of named colours that the catalogue of
    [color.py] uses.  No key of the full table starts with [#], so entries
    left out never touch a hexadecimal string. *)
Definition _colors_full_map : list (string * string) :=
  [ ("black", "#000000"); ("white", "#FFFFFF");
    ("red", "#FF0000"); ("green", "#008000") ].

Fixpoint lookup_name (tbl : list (string * string)) (c : string) : option string :=
  match tbl with
  | [] => None
  | (k, v) :: tbl' => if String.eqb k c then Some v else lookup_name tbl' c
  end.

(** [re.match(r"\A#[a-fA-F0-9]{k}\Z", c)] *)
Definition hex_match (k : nat) (c : string) : bool :=
  match c with
  | String "#" ds =>
      (String.length ds =? k)%nat && forallb Py.is_xdigit (String.list_ascii_of_string ds)
  | _ => false
  end.

(** [int(c[i:i+2], 16) / 255] *)
Definition hex_channel (c : string) (i : nat) : float :=
  Py.truediv (Py.int16 (String.substring i 2 c)) 255.

Definition out_of_range (elem : float) : bool :=
  PrimFloat.ltb elem 0 || PrimFloat.ltb 1 elem.

(** [to_rgba(c)] with no [alpha] argument.  Sequences must have three or
    four elements, each within [0, 1].  Of the strings matplotlib reads, this
    model covers the literal ["none"], the names of [_colors_full_map] above
    and the two hexadecimal forms with two digits per channel, which are the
    forms [color.py] itself writes and stores; there it answers as matplotlib
    does.  The other names of matplotlib's table, the short forms [#rgb] and
    [#rgba] and the grey levels written as a number (["0.5"]) are not
    modelled: on them this definition answers [ValueError] where matplotlib
    answers a colour.  What is proved below about a string therefore either
    assumes an answer of this function, or is about a value the classes
    store. *)
Definition to_rgba (c : color_arg) : result (list float) :=
  match c with
  | CStr s =>
      if String.eqb (Py.lower s) "none" then Ok [0; 0; 0; 0]%float
      else
        let s' :=
          match lookup_name _colors_full_map s with
          | Some v => v
          | None =>
              if (String.length s =? 1)%nat then s
              else match lookup_name _colors_full_map (Py.lower s) with
                   | Some v => v
                   | None => s
                   end
          end in
        if hex_match 6 s' then
          Ok [hex_channel s' 1; hex_channel s' 3; hex_channel s' 5; 1%float]
        else if hex_match 8 s' then
          Ok [hex_channel s' 1; hex_channel s' 3; hex_channel s' 5; hex_channel s' 7]
        else Raise ValueError
  | CSeq l =>
      if negb ((List.length l =? 3)%nat || (List.length l =? 4)%nat) then Raise ValueError
      else
        let l' := if (List.length l =? 3)%nat then (l ++ [1%float])%list else l in
        if existsb out_of_range l' then Raise ValueError else Ok l'
  end.

(** [to_rgb(c)]: [to_rgba(c)[:3]] *)
Definition to_rgb (c : color_arg) : result (list float) :=
  let* rgba := to_rgba c in Ok (take 3 rgba).

(** [to_hex(c, keep_alpha)]:
    ["#" + "".join(format(round(val * 255), "02x") for val in c)] *)
Definition to_hex (c : color_arg) (keep_alpha : bool) : result string :=
  let* rgba := to_rgba c in
  let vals := if keep_alpha then rgba else take 3 rgba in
  let* levels := map_result (fun val => Py.round (val * 255)%float) vals in
  Ok (String "#" (String.concat "" (map Py.format_02x levels))).

End colors.

Import colors.

(** ** Objects: a state and exception monad

    A method runs on its receiver [self], may update it, and either returns a
    value or raises; an exception leaves the updates made before it. *)

Definition M (S A : Type) : Type := S -> S * result A.

Definition ret {S A : Type} (a : A) : M S A := fun self => (self, Ok a).

Definition and_then {S A B : Type} (m : M S A) (k : A -> M S B) : M S B :=
  fun self =>
    match m self with
    | (self', Ok a) => k a self'
    | (self', Raise e) => (self', Raise e)
    end.

Definition lift {S A : Type} (r : result A) : M S A := fun self => (self, r).

Definition modify {S : Type} (f : S -> S) : M S unit := fun self => (f self, Ok tt).

(** [return self] *)
Definition return_self {S : Type} : M S S := fun self => (self, Ok self).

Notation "x <- m ;; k" := (and_then m (fun x => k))
  (at level 100, m at next level, right associativity).
Notation "m ;; k" := (and_then m (fun _ => k))
  (at level 100, right associativity).

(** [for x in xs: body x] *)
Fixpoint for_each {S A : Type} (body : A -> M S unit) (xs : list A) : M S unit :=
  match xs with
  | [] => ret tt
  | x :: xs' => body x ;; for_each body xs'
  end.

(** ** The classes of [color.py] *)

(** [Node]: the attributes set by [Node.__init__]. *)
Record Node : Type := mkNode {
  name : string;
  id : string;
  parents : gmap string (list string)
}.

(** [RawColor]: a [Node] with one colour and the colour of its label. *)
Record RawColor : Type := mkRawColor {
  raw_node : Node;
  color : string;
  fontcolor : string
}.

(** [BeamerColor]: a [Node] with a foreground, a background and their
    inverses. *)
Record BeamerColor : Type := mkBeamerColor {
  node : Node;
  fg : string;
  inverted_fg : string;
  bg : string;
  inverted_bg : string
}.

(** A [Color] object is an instance of one of the two subclasses. *)
Inductive Color : Type :=
| Raw (r : RawColor)
| Beamer (b : BeamerColor).

Definition Color_id (c : Color) : string :=
  match c with
  | Raw r => id (raw_node r)
  | Beamer b => id (node b)
  end.

(** One positional argument of [_blend] and [inherit]: the tuple
    [(color, ground)] or [(color, ground, percent)]. *)
Record color_spec : Type := mkSpec {
  source : Color;
  ground : string;
  percent : option float
}.

(** [Color.invert_color] *)
Definition invert_color (color : color_arg) : result string :=
  let* rgba := to_rgba color in
  let* inverted :=
    for_enumerate
      (fun i channel (inverted : list float) =>
         let* k := Py.int (255 * channel)%float in
         Ok (<[i := Py.truediv ((255 - k) mod 256) 255]> inverted))
      0 rgba rgba in
  to_hex (CSeq inverted) false.

(** [RawColor.get] *)
Definition RawColor_get (self : RawColor) (_ : string) : result string :=
  Ok (color self).

(** [BeamerColor.get] *)
Definition BeamerColor_get (self : BeamerColor) (color : string) : result string :=
  if String.eqb color "fg" then Ok (fg self)
  else if String.eqb color "bg" then Ok (bg self)
  else Raise RuntimeError.

(** [c.get(color)], dispatched on the class of [c]. *)
Definition get (c : Color) (color : string) : result string :=
  match c with
  | Raw r => RawColor_get r color
  | Beamer b => BeamerColor_get b color
  end.

(** [parent.fg] and [parent.bg]: attributes of a [BeamerColor] only. *)
Definition attr_fg (c : Color) : result string :=
  match c with
  | Raw _ => Raise AttributeError
  | Beamer b => Ok (fg b)
  end.

Definition attr_bg (c : Color) : result string :=
  match c with
  | Raw _ => Raise AttributeError
  | Beamer b => Ok (bg b)
  end.

Definition from_option {A : Type} (e : exn) (o : option A) : result A :=
  match o with
  | Some a => Ok a
  | None => Raise e
  end.

(** The body of the outer loop of [_blend]: add one weighted colour to
    [result_color]. *)
Definition blend_step (color : color_spec) (result_color : list float)
    : result (list float) :=
  let* c := get (source color) (ground color) in
  let* new_rgb := to_rgb (CStr c) in
  for_enumerate
    (fun i channel (result_color : list float) =>
       let* w := from_option IndexError (percent color) in
       let* r := from_option IndexError (result_color !! i) in
       Ok (<[i := (r + channel * w / 100)%float]> result_color))
    0 new_rgb result_color.

(** [Color._blend], applied to arguments that are all tuples, as [inherit]
    hands them over when it is given tuples.  [_blend_args] below is the
    function on arbitrary arguments, with the branch of lines 42-43 for a
    single argument that is a list; the two agree on tuples
    ([blend_args_tuples]). *)
Definition _blend (color_specs : list color_spec) : result string :=
  match color_specs with
  | [spec] => get (source spec) (ground spec)
  | _ =>
      let* result_color :=
        for_enumerate (fun _ => blend_step) 0 color_specs [0; 0; 0]%float in
      let* first := from_option IndexError (head color_specs) in
      let* c := get (source first) (ground first) in
      let* rgba := to_rgba (CStr c) in
      let* alpha := from_option IndexError (rgba !! 3%nat) in
      to_hex (CSeq (result_color ++ [alpha])%list) true
  end.

(** What [_blend] receives when it is called directly: Python does not check
    what a positional argument is, and the single-argument branch of the
    source asks whether it is a list.  An argument is a tuple
    [(source, ground, percent)] or a list of such tuples. *)
Inductive blend_arg : Type :=
| ATuple (spec : color_spec)
| AList (specs : list color_spec).

(** [color[0].get(color[1])] and [color[2]] on one argument of the loop: a
    tuple is the component it holds; on a list, [color[0]] is its first tuple,
    which has no [get] ([IndexError] when the list is empty). *)
Definition arg_spec (color : blend_arg) : result color_spec :=
  match color with
  | ATuple spec => Ok spec
  | AList [] => Raise IndexError
  | AList (_ :: _) => Raise AttributeError
  end.

(** [Color._blend] on arbitrary positional arguments, lines 38-54.
    [depth] is the number of nested calls the interpreter still allows; a
    call made when none is left raises [RecursionError].  In the branch for a
    single argument that is a list, [cls._blend(color_specs[0])] passes the
    list itself as the one positional argument of the nested call. *)
Fixpoint _blend_args (depth : nat) (color_specs : list blend_arg) : result string :=
  match depth with
  | O => Raise RecursionError
  | S depth' =>
      match color_specs with
      | [AList specs] => _blend_args depth' [AList specs]
      | [ATuple spec] => get (source spec) (ground spec)
      | _ =>
          let* result_color :=
            for_enumerate
              (fun _ color acc => let* spec := arg_spec color in blend_step spec acc)
              0 color_specs [0; 0; 0]%float in
          let* first := from_option IndexError (head color_specs) in
          let* spec := arg_spec first in
          let* c := get (source spec) (ground spec) in
          let* rgba := to_rgba (CStr c) in
          let* alpha := from_option IndexError (rgba !! 3%nat) in
          to_hex (CSeq (result_color ++ [alpha])%list) true
      end
  end.

Definition with_parents (p : gmap string (list string)) (n : Node) : Node :=
  mkNode (name n) (id n) p.

Definition with_node (n : Node) (self : BeamerColor) : BeamerColor :=
  mkBeamerColor n (fg self) (inverted_fg self) (bg self) (inverted_bg self).

Definition with_fg (v : string) (self : BeamerColor) : BeamerColor :=
  mkBeamerColor (node self) v (inverted_fg self) (bg self) (inverted_bg self).

Definition with_inverted_fg (v : string) (self : BeamerColor) : BeamerColor :=
  mkBeamerColor (node self) (fg self) v (bg self) (inverted_bg self).

Definition with_bg (v : string) (self : BeamerColor) : BeamerColor :=
  mkBeamerColor (node self) (fg self) (inverted_fg self) v (inverted_bg self).

Definition with_inverted_bg (v : string) (self : BeamerColor) : BeamerColor :=
  mkBeamerColor (node self) (fg self) (inverted_fg self) (bg self) v.

Definition with_color (v : string) (self : RawColor) : RawColor :=
  mkRawColor (raw_node self) v (fontcolor self).

Definition with_fontcolor (v : string) (self : RawColor) : RawColor :=
  mkRawColor (raw_node self) (color self) v.

(** [self.parents[key].append(x)] *)
Definition parents_append (key x : string) : M BeamerColor unit :=
  fun self =>
    match parents (node self) !! key with
    | Some l =>
        (with_node (with_parents (<[key := (l ++ [x])%list]> (parents (node self)))
                      (node self)) self,
         Ok tt)
    | None => (self, Raise KeyError)
    end.

(** [RawColor.set_color] *)
Definition set_color (color : color_arg) : M RawColor RawColor :=
  c <- lift (to_hex color true) ;;
  modify (with_color c) ;;
  f <- lift (invert_color (CStr c)) ;;
  modify (with_fontcolor f) ;;
  return_self.

(** [BeamerColor._set_fg] *)
Definition _set_fg (_fg : color_arg) : M BeamerColor BeamerColor :=
  c <- lift (to_hex _fg true) ;;
  modify (with_fg c) ;;
  i <- lift (invert_color (CStr c)) ;;
  modify (with_inverted_fg i) ;;
  return_self.

(** [BeamerColor._set_bg] *)
Definition _set_bg (_bg : color_arg) : M BeamerColor BeamerColor :=
  c <- lift (to_hex _bg true) ;;
  modify (with_bg c) ;;
  i <- lift (invert_color (CStr c)) ;;
  modify (with_inverted_bg i) ;;
  return_self.

(** [BeamerColor.set_parent] *)
Definition set_parent (parent : Color) : M BeamerColor BeamerColor :=
  parents_append "both" (Color_id parent) ;;
  pfg <- lift (attr_fg parent) ;;
  _set_fg (CStr pfg) ;;
  pbg <- lift (attr_bg parent) ;;
  _set_bg (CStr pbg) ;;
  return_self.

Definition dquote : string := String (ascii_of_nat 34) EmptyString.

(** ['"%s":%s' % (color_spec[0].id, ground_from)] *)
Definition port_from (color_spec : color_spec) : string :=
  let ground_from :=
    if String.eqb (ground color_spec) "fg" || String.eqb (ground color_spec) "bg"
    then (ground color_spec ++ "out")%string
    else "color" in
  (dquote ++ Color_id (source color_spec) ++ dquote ++ ":" ++ ground_from)%string.

(** [BeamerColor.inherit] *)
Definition inherit (ground_to : string) (color_specs : list color_spec)
    : M BeamerColor BeamerColor :=
  color_to_apply <- lift (_blend color_specs) ;;
  for_each (fun color_spec => parents_append ground_to (port_from color_spec))
    color_specs ;;
  (if String.eqb ground_to "fg" then _set_fg (CStr color_to_apply) ;; ret tt
   else if String.eqb ground_to "bg" then _set_bg (CStr color_to_apply) ;; ret tt
   else ret tt) ;;
  return_self.

(** *** Constructors

    [Node.__init__] derives the identifier from the name with
    [hashlib.md5(name.encode()).hexdigest()]; the digest function is a
    parameter of the constructors. *)

Section Constructors.

Variable md5_hexdigest : string -> string.

(** [Node.__init__] *)
Definition Node_init (name : string) : Node :=
  mkNode name (md5_hexdigest name)
    (<["both" := []]> (<["fg" := []]> (<["bg" := []]> ∅))).

(** [RawColor.__init__] *)
Definition RawColor_init (name : string) : RawColor :=
  mkRawColor (Node_init name) "#FFFFFFFF" "#000000FF".

(** [BeamerColor.__init__] *)
Definition BeamerColor_init (name : string) : BeamerColor :=
  mkBeamerColor (Node_init name) "#FFFFFF00" "#000000FF" "#00000000" "#000000FF".

End Constructors.

(** ** Stored colour values

    Apart from the upper-case defaults of the constructors, every value the
    classes store comes out of [to_hex]: ["#"] followed by two lower-case
    hexadecimal digits per channel.  A channel is thus one of 256 levels, and
    level [n] is the double [n / 255]. *)

Definition level (n : Z) : Prop := 0 <= n < 256.

Definition channel (n : Z) : float := Py.truediv n 255.

(** [within_one_level c k]: the number [c], read exactly, lies strictly less
    than [1/255] away from the level [k / 255], that is [|255 c - k| < 1]. *)
Definition within_one_level (c : float) (k : Z) : bool :=
  match Prim2SF c with
  | S754_zero _ => k =? 0
  | S754_finite s m e =>
      let v := (if s then -1 else 1) * 255 * Z.pos m * 2 ^ Z.max 0 e in
      let D := 2 ^ Z.max 0 (- e) in
      ((k - 1) * D <? v) && (v <? (k + 1) * D)
  | _ => false
  end.

Definition hex_rgba (r g b a : Z) : string :=
  String "#" (String.concat "" (map Py.format_02x [r; g; b; a])).

Definition hex_rgb (r g b : Z) : string :=
  String "#" (String.concat "" (map Py.format_02x [r; g; b])).

(** [rgba[3]] of a colour string. *)
Definition alpha_of (c : string) : result float :=
  let* rgba := to_rgba (CStr c) in from_option IndexError (rgba !! 3%nat).

(** *** The 256 levels, checked one by one *)

Definition all_levels : list Z := map Z.of_nat (seq 0 256).

Definition result_is (r : result Z) (n : Z) : bool :=
  match r with
  | Ok m => m =? n
  | Raise _ => false
  end.

Definition level_check (n : Z) : bool :=
  let c1 := Py.hex_digit (n / 16) in
  let c2 := Py.hex_digit (n mod 16) in
  String.eqb (Py.format_02x n) (String c1 (String c2 EmptyString))
  && Py.is_xdigit c1 && Py.is_xdigit c2
  && (Py.int16 (String c1 (String c2 EmptyString)) =? n)
  && result_is (Py.round (channel n * 255)%float) n
  && result_is (Py.int (255 * channel n)%float) n
  && negb (out_of_range (channel n)).

(** *** Blending, as described

    The description of [_blend] is a sum: for each of the red, green and blue
    channels, [Σ (component.rgb × weight / 100)] over the components, with the
    alpha of the first component.  Doubles do not add associatively, so the sum
    is read in argument order, starting from 0. *)

Definition add_weighted (i : nat) (acc : float) (component : list float * float)
    : float :=
  (acc + nth i (fst component) 0 * snd component / 100)%float.

Definition weighted_sum (components : list (list float * float)) (i : nat) : float :=
  fold_left (add_weighted i) components 0%float.

(** A positional argument of [_blend] resolves to a component when its source
    channel reads as the component's RGBA value and its third element is the
    component's weight. *)
Definition resolves (spec : color_spec) (component : list float * float) : Prop :=
  exists c,
    get (source spec) (ground spec) = Ok c
    /\ to_rgba (CStr c) = Ok (fst component)
    /\ percent spec = Some (snd component).

(** The weighted sum of two levels, as [_blend] accumulates it. *)
Definition mix (n1 n2 : Z) (w1 w2 : float) : float :=
  (0 + channel n1 * w1 / 100 + channel n2 * w2 / 100)%float.

(** Level [l] is within half a level of the exact mean of [n1] and [n2] with
    weights [w] and [100 - w] percent. *)
Definition nearest_level (w n1 n2 l : Z) : Prop :=
  level l /\ Z.abs (100 * l - (w * n1 + (100 - w) * n2)) <= 50.

Definition mix_check (w n1 n2 : Z) : bool :=
  let x := mix n1 n2 (Py.float_of_Z w) (Py.float_of_Z (100 - w)) in
  negb (out_of_range x)
  && match Py.round (x * 255)%float with
     | Ok l => (0 <=? l) && (l <? 256)
               && (Z.abs (100 * l - (w * n1 + (100 - w) * n2)) <=? 50)
     | Raise _ => false
     end.

Definition mix_check_all (w : Z) : bool :=
  forallb (fun n1 => forallb (mix_check w n1) all_levels) all_levels.

(** The first weights of the two-colour blends in the catalogue of
    [color.py]: 25 (with 75) and 50 (with 50). *)
Definition catalogue_weights : list Z := [25; 50].

(** *** Bookkeeping of edges *)

(** [self.parents[key] = l] *)
Definition with_edges (key : string) (l : list string) (self : BeamerColor)
    : BeamerColor :=
  with_node (with_parents (<[key := l]> (parents (node self))) (node self)) self.

(** *** Digests of the names used in closed examples

    [hashlib.md5(name.encode()).hexdigest()] for the names that the examples
    below give to their nodes. *)
Definition md5_examples (name : string) : string :=
  if String.eqb name "black" then "1ffd9e753c8054cc61456ac7fac1ac89"
  else if String.eqb name "white" then "d508fe45cecaf653904a0e774084bb5c"
  else if String.eqb name "x" then "9dd4e461268c8034f5c8564e155c67a6"
  else if String.eqb name "parent" then "d0e45878043844ffc41aac437e86b602"
  else if String.eqb name "child" then "1b7d5726533ab525a8760351e9b5e415"
  else "".

(** [RawColor(name).set_color(color)], the object after the call. *)
Definition raw_example (name : string) (color : color_arg) : RawColor :=
  fst (set_color color (RawColor_init md5_examples name)).

(** *** Nodes a program can build

    A derived node is made by the constructor and changed only by calls of
    [inherit] and [set_parent], whether they return or raise. *)
Inductive built (md5_hexdigest : string -> string) : BeamerColor -> Prop :=
| built_init (name : string) :
    built md5_hexdigest (BeamerColor_init md5_hexdigest name)
| built_inherit (self : BeamerColor) (ground_to : string)
    (color_specs : list color_spec) :
    built md5_hexdigest self ->
    built md5_hexdigest (fst (inherit ground_to color_specs self))
| built_set_parent (self : BeamerColor) (parent : Color) :
    built md5_hexdigest self ->
    built md5_hexdigest (fst (set_parent parent self)).

(** *** Colours that read back

    A string is a valid colour when [to_rgba] reads it as four channels on
    the 256 levels. *)
Definition valid_colour (s : string) : Prop :=
  exists r g b a,
    level r /\ level g /\ level b /\ level a
    /\ to_rgba (CStr s) = Ok [channel r; channel g; channel b; channel a].

(** The four colours of a derived node are valid. *)
Definition well_formed (self : BeamerColor) : Prop :=
  valid_colour (fg self) /\ valid_colour (inverted_fg self)
  /\ valid_colour (bg self) /\ valid_colour (inverted_bg self).

(** *** Blending a colour with itself *)

(** The integer weights from 0 to 100 percent. *)
Definition percent_weights : list Z := map Z.of_nat (seq 0 101).

Definition self_mix_check (w n : Z) : bool :=
  let x := mix n n (Py.float_of_Z w) (Py.float_of_Z (100 - w)) in
  negb (out_of_range x) && result_is (Py.round (x * 255)%float) n.

Definition self_mix_check_all (w : Z) : bool :=
  forallb (self_mix_check w) all_levels.

(** *** Rendering a derived node: [BeamerColor.__str__] *)

Definition nl : string := String (ascii_of_nat 10) EmptyString.

(** [BeamerColor.TEMPLATE.format(self=self)], piece by piece and line by
    line as in the source. *)
Definition BeamerColor_template (self : BeamerColor) : string :=
  String.concat ""
    [nl;
     dquote; id (node self); dquote; " [shape="; dquote; "none"; dquote; " label=<"; nl;
     "    <table border="; dquote; "0"; dquote; " cellborder="; dquote; "1"; dquote; " cellspacing="; dquote; "0"; dquote; nl;
     "    ><tr>"; nl;
     "        <td bgcolor="; dquote; bg self; dquote; " PORT="; dquote; "bgin"; dquote; ">"; nl;
     "            <font color="; dquote; inverted_bg self; dquote; ">bg:"; bg self; "</font>"; nl;
     "        </td>"; nl;
     "        <td bgcolor="; dquote; fg self; dquote; " PORT="; dquote; "fgin"; dquote; ">"; nl;
     "            <font color="; dquote; inverted_fg self; dquote; ">fg:"; fg self; "</font>"; nl;
     "        </td>"; nl;
     "    </tr><tr>    "; nl;
     "        <td colspan="; dquote; "2"; dquote; " bgcolor="; dquote; bg self; dquote; ">"; nl;
     "            <font color="; dquote; fg self; dquote; ">"; nl;
     "            <br/>"; nl;
     "            "; name (node self); nl;
     "            <br/>"; nl;
     "            </font>"; nl;
     "        </td>"; nl;
     "    </tr><tr>"; nl;
     "        <td bgcolor="; dquote; bg self; dquote; " PORT="; dquote; "bgout"; dquote; ">"; nl;
     "            <font color="; dquote; inverted_bg self; dquote; ">bg:"; bg self; "</font>"; nl;
     "        </td>"; nl;
     "        <td bgcolor="; dquote; fg self; dquote; " PORT="; dquote; "fgout"; dquote; ">"; nl;
     "            <font color="; dquote; inverted_fg self; dquote; ">fg:"; fg self; "</font>"; nl;
     "        </td>"; nl;
     "    </tr></table>>]"; nl].

(** [needle in hay] on strings. *)
Fixpoint str_in (needle hay : string) : bool :=
  String.prefix needle hay
  || match hay with
     | EmptyString => false
     | String _ hay' => str_in needle hay'
     end.

(** ['"{}":s -> "{}":n [style=dotted]\n'.format(port_from, self.id)] *)
Definition dotted_line (self_id port_from : string) : string :=
  (dquote ++ port_from ++ dquote ++ ":s -> " ++ dquote ++ self_id ++ dquote
   ++ ":n [style=dotted]" ++ nl)%string.

(** The choice of [tail] in the inner loop of [__str__]. *)
Definition arrowtail (port_from : string) : string :=
  if str_in ":fg" port_from then "oinv"
  else if str_in ":bg" port_from then "inv"
  else "none".

(** ['{}:s -> "{}":{}in:n [dir=both,arrowtail={},arrowhead={}]\n'.format(
      port_from, self.id, port_to, tail, head)] *)
Definition arrow_line (self_id port_to head tail port_from : string) : string :=
  (port_from ++ ":s -> " ++ dquote ++ self_id ++ dquote ++ ":" ++ port_to
   ++ "in:n [dir=both,arrowtail=" ++ tail ++ ",arrowhead=" ++ head ++ "]" ++ nl)%string.

(** [BeamerColor.__str__]: the node, then one line per entry of
    [parents["both"]], of [parents["fg"]] and of [parents["bg"]]. *)
Definition BeamerColor_str (self : BeamerColor) : result string :=
  let result := BeamerColor_template self in
  let* both := from_option KeyError (parents (node self) !! "both") in
  let result :=
    fold_left
      (fun result port_from =>
         (result ++ dotted_line (id (node self)) port_from)%string)
      both result in
  for_enumerate
    (fun _ (port : string * string) result =>
       let (port_to, head) := port in
       let* ports := from_option KeyError (parents (node self) !! port_to) in
       Ok (fold_left
             (fun result port_from =>
                (result ++ arrow_line (id (node self)) port_to head
                             (arrowtail port_from) port_from)%string)
             ports result))
    0 [("fg", "obox"); ("bg", "box")] result.

(** The tail a source channel is meant to get: [oinv] for a foreground,
    [inv] for a background, [none] for a raw colour. *)
Definition tail_of_ground (ground : string) : string :=
  if String.eqb ground "fg" then "oinv"
  else if String.eqb ground "bg" then "inv"
  else "none".

(** No character of [s] is a colon; so it is for every md5 digest. *)
Definition colon_free (s : string) : Prop :=
  forallb (fun c => negb (Ascii.eqb c ":")) (String.list_ascii_of_string s) = true.

(** *** The file written by [BeamerColorGraph.generate] *)

(** One character through [str.maketrans(" /:", "_-_")]. *)
Definition translate_char (c : ascii) : ascii :=
  if Ascii.eqb c " " then "_"%char
  else if Ascii.eqb c "/" then "-"%char
  else if Ascii.eqb c ":" then "_"%char
  else c.

(** [name.translate(str.maketrans(" /:", "_-_"))] *)
Fixpoint translate (name : string) : string :=
  match name with
  | EmptyString => EmptyString
  | String c name' => String (translate_char c) (translate name')
  end.

(** The command that [generate] runs:
    [["dot", "-T", "svg", "-o", "%s.svg" % self.name.translate(...)]] *)
Definition generate_command (graph_name : string) : list string :=
  ["dot"; "-T"; "svg"; "-o"; (translate graph_name ++ ".svg")%string].

(** What is left of a setter's outcome once [inherit] has run it and
    returned [self]. *)
Definition returning_self (outcome : BeamerColor * result BeamerColor)
    : BeamerColor * result BeamerColor :=
  match outcome with
  | (self, Ok _) => (self, Ok self)
  | (self, Raise e) => (self, Raise e)
  end.

(** The strings of a list, one after the other. *)
Definition join_lines (l : list string) : string := fold_right String.append EmptyString l.

(** *** Containers: [BeamerColorGraph]

    A Python [dict] with string keys is the list of its items in insertion
    order, each key once.  Assigning to a key that exists replaces the value
    where it stands; a new key goes to the end. *)
Fixpoint dict_set {V : Type} (k : string) (v : V) (d : list (string * V))
    : list (string * V) :=
  match d with
  | [] => [(k, v)]
  | (k', v') :: d' =>
      if String.eqb k' k then (k, v) :: d' else (k', v') :: dict_set k v d'
  end.

Fixpoint dict_get {V : Type} (k : string) (d : list (string * V)) : option V :=
  match d with
  | [] => None
  | (k', v') :: d' => if String.eqb k' k then Some v' else dict_get k d'
  end.

(** [d.update(items)], for the items of a dict or a list of pairs. *)
Definition dict_update {V : Type} (d items : list (string * V)) : list (string * V) :=
  fold_left (fun d (item : string * V) => dict_set (fst item) (snd item) d) items d.

(** A graph or subgraph.  Its members are colour nodes or subgraphs: objects
    of a type [V] that have a name. *)
Record BeamerColorGraph (V : Type) : Type := mkGraph {
  graph_name : string;
  graph_id : string;
  colors : list (string * V)
}.

Arguments mkGraph {V} _ _ _.
Arguments graph_name {V} _.
Arguments graph_id {V} _.
Arguments colors {V} _.

(** [BeamerColorGraph.__init__] *)
Definition BeamerColorGraph_init {V : Type} (md5_hexdigest : string -> string)
    (name : string) : BeamerColorGraph V :=
  mkGraph name (md5_hexdigest name) [].

(** [BeamerColorGraph.add_colors]: the argument is a dict ([inl]) or any
    other iterable of members ([inr]), which are then filed under their
    names. *)
Definition add_colors {V : Type} (member_name : V -> string)
    (color_nodes : list (string * V) + list V) (self : BeamerColorGraph V)
    : BeamerColorGraph V :=
  match color_nodes with
  | inl d => mkGraph (graph_name self) (graph_id self) (dict_update (colors self) d)
  | inr l =>
      mkGraph (graph_name self) (graph_id self)
        (dict_update (colors self) (map (fun c => (member_name c, c)) l))
  end.

(** The last member of a list that has a given name. *)
Definition last_named {V : Type} (member_name : V -> string) (k : string)
    (l : list V) : option V :=
  fold_left (fun acc c => if String.eqb (member_name c) k then Some c else acc) l None.

(** Split a conjunction of boolean checks into its parts. *)
Ltac split_andb H :=
  repeat match type of H with
         | (_ && _)%bool = true =>
             let H1 := fresh H in
             apply andb_prop in H; destruct H as [H H1]
         end.

Lemma level_in_all n : level n -> In n all_levels.
Proof.
  intros [Hlo Hhi]. unfold all_levels.
  apply in_map_iff. exists (Z.to_nat n). split; [lia|].
  apply in_seq. lia.
Qed.

Lemma all_levels_checked : forallb level_check all_levels = true.
Proof. vm_compute. reflexivity. Qed.

Lemma level_checked n : level n -> level_check n = true.
Proof.
  intros H. apply level_in_all in H.
  exact (proj1 (forallb_forall level_check all_levels) all_levels_checked n H).
Qed.

Lemma result_is_eq r n : result_is r n = true -> r = Ok n.
Proof.
  destruct r as [m|e]; simpl; [|discriminate].
  intros H. apply Z.eqb_eq in H. congruence.
Qed.

(** Printing a level gives two hexadecimal digits that read back as it. *)
Lemma format_02x_level n :
  level n ->
  exists c1 c2,
    Py.format_02x n = String c1 (String c2 EmptyString)
    /\ Py.is_xdigit c1 = true /\ Py.is_xdigit c2 = true
    /\ Py.int16 (String c1 (String c2 EmptyString)) = n.
Proof.
  intros H. apply level_checked in H. unfold level_check in H.
  split_andb H.
  exists (Py.hex_digit (n / 16)), (Py.hex_digit (n mod 16)).
  repeat split; try assumption.
  - now apply String.eqb_eq.
  - now apply Z.eqb_eq.
Qed.

(** [round(255 * (n / 255)) = n]: [to_hex] prints level [n] as [n]. *)
Lemma round_channel n : level n -> Py.round (channel n * 255)%float = Ok n.
Proof.
  intros H. apply level_checked in H. unfold level_check in H.
  split_andb H. now apply result_is_eq.
Qed.

(** [int(255 * (n / 255)) = n]: the truncation in [invert_color] is exact on
    levels. *)
Lemma int_channel n : level n -> Py.int (255 * channel n)%float = Ok n.
Proof.
  intros H. apply level_checked in H. unfold level_check in H.
  split_andb H. now apply result_is_eq.
Qed.

Lemma channel_in_range n : level n -> out_of_range (channel n) = false.
Proof.
  intros H. apply level_checked in H. unfold level_check in H.
  split_andb H. now apply negb_true_iff.
Qed.

(** *** Reading and printing stored values *)

(** A string starting with [#] is neither ["none"] nor a name. *)
Lemma to_rgba_hash ds :
  to_rgba (CStr (String "#" ds)) =
  let s := String "#" ds in
  if hex_match 6 s then
    Ok [hex_channel s 1; hex_channel s 3; hex_channel s 5; 1%float]
  else if hex_match 8 s then
    Ok [hex_channel s 1; hex_channel s 3; hex_channel s 5; hex_channel s 7]
  else Raise ValueError.
Proof.
  unfold to_rgba. cbn [Py.lower lookup_name _colors_full_map].
  change (Py.lower_char "#") with "#"%char.
  change (String.eqb (String "#" (Py.lower ds)) "none") with false.
  change (String.eqb "black" (String "#" ds)) with false.
  change (String.eqb "white" (String "#" ds)) with false.
  change (String.eqb "red" (String "#" ds)) with false.
  change (String.eqb "green" (String "#" ds)) with false.
  change (String.eqb "black" (String "#" (Py.lower ds))) with false.
  change (String.eqb "white" (String "#" (Py.lower ds))) with false.
  change (String.eqb "red" (String "#" (Py.lower ds))) with false.
  change (String.eqb "green" (String "#" (Py.lower ds))) with false.
  cbv zeta. destruct (String.length (String "#" ds) =? 1)%nat; reflexivity.
Qed.

Lemma to_rgba_hex8 c1 c2 c3 c4 c5 c6 c7 c8 :
  forallb Py.is_xdigit [c1; c2; c3; c4; c5; c6; c7; c8] = true ->
  to_rgba (CStr (String "#" (String c1 (String c2 (String c3 (String c4
            (String c5 (String c6 (String c7 (String c8 EmptyString)))))))))) =
  Ok [Py.truediv (Py.int16 (String c1 (String c2 EmptyString))) 255;
      Py.truediv (Py.int16 (String c3 (String c4 EmptyString))) 255;
      Py.truediv (Py.int16 (String c5 (String c6 EmptyString))) 255;
      Py.truediv (Py.int16 (String c7 (String c8 EmptyString))) 255].
Proof.
  intros H. rewrite to_rgba_hash. cbv zeta.
  unfold hex_match.
  cbn [String.length String.list_ascii_of_string Nat.eqb andb].
  rewrite H. reflexivity.
Qed.

Lemma to_rgba_hex6 c1 c2 c3 c4 c5 c6 :
  forallb Py.is_xdigit [c1; c2; c3; c4; c5; c6] = true ->
  to_rgba (CStr (String "#" (String c1 (String c2 (String c3 (String c4
            (String c5 (String c6 EmptyString)))))))) =
  Ok [Py.truediv (Py.int16 (String c1 (String c2 EmptyString))) 255;
      Py.truediv (Py.int16 (String c3 (String c4 EmptyString))) 255;
      Py.truediv (Py.int16 (String c5 (String c6 EmptyString))) 255;
      1%float].
Proof.
  intros H. rewrite to_rgba_hash. cbv zeta.
  unfold hex_match.
  cbn [String.length String.list_ascii_of_string Nat.eqb andb].
  rewrite H. reflexivity.
Qed.

(** A stored eight-digit value reads back as its four levels. *)
Lemma to_rgba_hex_rgba r g b a :
  level r -> level g -> level b -> level a ->
  to_rgba (CStr (hex_rgba r g b a)) = Ok [channel r; channel g; channel b; channel a].
Proof.
  intros Hr Hg Hb Ha.
  destruct (format_02x_level r Hr) as (r1 & r2 & Er & Xr1 & Xr2 & Ir).
  destruct (format_02x_level g Hg) as (g1 & g2 & Eg & Xg1 & Xg2 & Ig).
  destruct (format_02x_level b Hb) as (b1 & b2 & Eb & Xb1 & Xb2 & Ib).
  destruct (format_02x_level a Ha) as (a1 & a2 & Ea & Xa1 & Xa2 & Ia).
  unfold hex_rgba. cbn [map String.concat]. rewrite Er, Eg, Eb, Ea.
  cbv [String.append].
  rewrite to_rgba_hex8.
  - rewrite Ir, Ig, Ib, Ia. reflexivity.
  - cbn [forallb]. rewrite Xr1, Xr2, Xg1, Xg2, Xb1, Xb2, Xa1, Xa2. reflexivity.
Qed.

(** A six-digit value reads back as its three levels and is opaque. *)
Lemma to_rgba_hex_rgb r g b :
  level r -> level g -> level b ->
  to_rgba (CStr (hex_rgb r g b)) = Ok [channel r; channel g; channel b; 1%float].
Proof.
  intros Hr Hg Hb.
  destruct (format_02x_level r Hr) as (r1 & r2 & Er & Xr1 & Xr2 & Ir).
  destruct (format_02x_level g Hg) as (g1 & g2 & Eg & Xg1 & Xg2 & Ig).
  destruct (format_02x_level b Hb) as (b1 & b2 & Eb & Xb1 & Xb2 & Ib).
  unfold hex_rgb. cbn [map String.concat]. rewrite Er, Eg, Eb.
  cbv [String.append].
  rewrite to_rgba_hex6.
  - rewrite Ir, Ig, Ib. reflexivity.
  - cbn [forallb]. rewrite Xr1, Xr2, Xg1, Xg2, Xb1, Xb2. reflexivity.
Qed.

(** [to_hex] prints four levels as the stored value they denote. *)
Lemma to_hex_levels (c : color_arg) r g b a :
  level r -> level g -> level b -> level a ->
  to_rgba c = Ok [channel r; channel g; channel b; channel a] ->
  to_hex c true = Ok (hex_rgba r g b a)
  /\ to_hex c false = Ok (hex_rgb r g b).
Proof.
  intros Hr Hg Hb Ha E. unfold to_hex. rewrite E.
  cbn [bind take map_result].
  rewrite !round_channel by assumption.
  split; reflexivity.
Qed.

Lemma to_rgba_seq_levels r g b a :
  level r -> level g -> level b -> level a ->
  to_rgba (CSeq [channel r; channel g; channel b; channel a]) =
  Ok [channel r; channel g; channel b; channel a].
Proof.
  intros Hr Hg Hb Ha. unfold to_rgba.
  cbn [List.length Nat.eqb orb negb existsb].
  rewrite !channel_in_range by assumption. reflexivity.
Qed.

Lemma level_complement n : level n -> level (255 - n).
Proof. unfold level. lia. Qed.

(** *** Inversion on levels *)

(** On a colour whose channels are levels, [invert_color] complements the
    red, green and blue levels; the inverted alpha is computed and then
    dropped, as [to_hex] is called without [keep_alpha]. *)
Lemma invert_color_on_levels (color : color_arg) r g b a :
  level r -> level g -> level b -> level a ->
  to_rgba color = Ok [channel r; channel g; channel b; channel a] ->
  invert_color color = Ok (hex_rgb (255 - r) (255 - g) (255 - b)).
Proof.
  intros Hr Hg Hb Ha E. unfold invert_color. rewrite E.
  cbn [bind for_enumerate].
  rewrite (int_channel r Hr). cbn [bind].
  rewrite (int_channel g Hg). cbn [bind].
  rewrite (int_channel b Hb). cbn [bind].
  rewrite (int_channel a Ha). cbn [bind].
  cbn [insert list_insert].
  rewrite !Z.mod_small by (unfold level in *; lia).
  apply (to_hex_levels _ (255 - r) (255 - g) (255 - b) (255 - a));
    try (apply level_complement; assumption).
  apply to_rgba_seq_levels; apply level_complement; assumption.
Qed.

Lemma complement_involutive n : 255 - (255 - n) = n.
Proof. lia. Qed.

(** Two results that hold different doubles are different. *)
Lemma Ok_one_neq_zero : @Ok float 1%float <> Ok 0%float.
Proof.
  intros H.
  apply (f_equal (fun r => match r with
                           | Ok x => PrimFloat.eqb x 1
                           | Raise _ => false
                           end)) in H.
  vm_compute in H. discriminate.
Qed.

(** *** What a string reads as *)

Lemma xdigit_val_range c d : Py.xdigit_val c = Some d -> 0 <= d < 16.
Proof.
  unfold Py.xdigit_val.
  repeat match goal with
         | |- context [if ?b then _ else _] => destruct b eqn:?
         end; intros [= <-]; lia.
Qed.

(** Two hexadecimal digits read as a level. *)
Lemma int16_level c1 c2 :
  Py.is_xdigit c1 = true -> Py.is_xdigit c2 = true ->
  level (Py.int16 (String c1 (String c2 EmptyString))).
Proof.
  unfold Py.is_xdigit, Py.int16. cbn [String.list_ascii_of_string fold_left].
  destruct (Py.xdigit_val c1) as [d1|] eqn:E1; [|discriminate].
  destruct (Py.xdigit_val c2) as [d2|] eqn:E2; [|discriminate].
  intros _ _. apply xdigit_val_range in E1, E2. unfold level. lia.
Qed.

Lemma hex_match_inv k s :
  hex_match k s = true ->
  exists ds, s = String "#" ds /\ String.length ds = k
             /\ forallb Py.is_xdigit (String.list_ascii_of_string ds) = true.
Proof.
  destruct s as [|a ds]; [discriminate|].
  destruct (Ascii.eqb a "#") eqn:E.
  - apply Ascii.eqb_eq in E. subst a. cbn [hex_match].
    intros H. apply andb_prop in H as [Hl Hx].
    exists ds. repeat split; [|assumption]. now apply Nat.eqb_eq.
  - destruct a as [[] [] [] [] [] [] [] []]; try discriminate.
Qed.

Lemma channel_zero : 0%float = channel 0.
Proof. vm_compute. reflexivity. Qed.

Lemma channel_one : 1%float = channel 255.
Proof. vm_compute. reflexivity. Qed.

(** Where this model of [to_rgba] answers on a string (["none"], a name of
    the table, a hexadecimal form), the four channels are on the 256 levels;
    elsewhere it answers [ValueError]. *)
Lemma to_rgba_string_cases (s : string) :
  to_rgba (CStr s) = Raise ValueError \/ valid_colour s.
Proof.
  unfold valid_colour, to_rgba.
  destruct (String.eqb (Py.lower s) "none").
  { right. exists 0, 0, 0, 0. rewrite <- channel_zero.
    repeat split; unfold level; lia. }
  cbv zeta.
  match goal with
  | |- context [hex_match 6 ?t] => generalize t; intros s'
  end.
  destruct (hex_match 6 s') eqn:H6.
  { right. apply hex_match_inv in H6 as (ds & -> & Hlen & Hx).
    destruct ds as [|c1 [|c2 [|c3 [|c4 [|c5 [|c6 [|c7 ds]]]]]]]; try discriminate.
    cbn [String.list_ascii_of_string forallb] in Hx.
    apply andb_prop in Hx as [X1 Hx]. apply andb_prop in Hx as [X2 Hx].
    apply andb_prop in Hx as [X3 Hx]. apply andb_prop in Hx as [X4 Hx].
    apply andb_prop in Hx as [X5 Hx]. apply andb_prop in Hx as [X6 _].
    exists (Py.int16 (String c1 (String c2 EmptyString))),
           (Py.int16 (String c3 (String c4 EmptyString))),
           (Py.int16 (String c5 (String c6 EmptyString))), 255.
    rewrite <- channel_one.
    repeat split; try (apply int16_level; assumption); unfold level; lia. }
  destruct (hex_match 8 s') eqn:H8; [|now left].
  right. apply hex_match_inv in H8 as (ds & -> & Hlen & Hx).
  destruct ds as [|c1 [|c2 [|c3 [|c4 [|c5 [|c6 [|c7 [|c8 [|c9 ds]]]]]]]]];
    try discriminate.
  cbn [String.list_ascii_of_string forallb] in Hx.
  apply andb_prop in Hx as [X1 Hx]. apply andb_prop in Hx as [X2 Hx].
  apply andb_prop in Hx as [X3 Hx]. apply andb_prop in Hx as [X4 Hx].
  apply andb_prop in Hx as [X5 Hx]. apply andb_prop in Hx as [X6 Hx].
  apply andb_prop in Hx as [X7 Hx]. apply andb_prop in Hx as [X8 _].
  exists (Py.int16 (String c1 (String c2 EmptyString))),
         (Py.int16 (String c3 (String c4 EmptyString))),
         (Py.int16 (String c5 (String c6 EmptyString))),
         (Py.int16 (String c7 (String c8 EmptyString))).
  repeat split; apply int16_level; assumption.
Qed.

(** [to_rgba] always answers with four numbers. *)
Lemma to_rgba_shape (c : color_arg) (l : list float) :
  to_rgba c = Ok l -> exists r g b a, l = [r; g; b; a].
Proof.
  destruct c as [s|s]; unfold to_rgba.
  - destruct (String.eqb (Py.lower s) "none").
    + intros [= <-]. eauto.
    + cbv zeta.
      match goal with
      | |- context [hex_match 6 ?t] => generalize t; intros s'
      end.
      destruct (hex_match 6 s'); [intros [= <-]; eauto|].
      destruct (hex_match 8 s'); [intros [= <-]; eauto|discriminate].
  - destruct s as [|x0 [|x1 [|x2 [|x3 [|x4 s]]]]];
      cbn [List.length Nat.eqb orb negb app]; try discriminate.
    + match goal with |- context [existsb ?f ?l'] => destruct (existsb f l') end;
        [discriminate|intros [= <-]; eauto].
    + match goal with |- context [existsb ?f ?l'] => destruct (existsb f l') end;
        [discriminate|intros [= <-]; eauto].
Qed.

(** *** Doubles: the product of a channel with 255

    [invert_color] truncates [255 * c] and [to_hex] rounds [c * 255].  The
    lemmas below follow the specification of binary64 multiplication to
    bound both for every number [c] within [0, 1]. *)

(** The iteration used by the specification of floats is the iteration over
    [nat]. *)
Lemma iter_pos_nat {A : Type} (f : A -> A) (p : positive) :
  forall x, SpecFloat.iter_pos f p x = Nat.iter (Pos.to_nat p) f x.
Proof.
  induction p as [p IH|p IH|]; intros x; cbn [SpecFloat.iter_pos].
  - rewrite !IH. rewrite Pos2Nat.inj_xI.
    replace (S (2 * Pos.to_nat p))%nat with (Pos.to_nat p + S (Pos.to_nat p))%nat by lia.
    rewrite Nat.iter_add. f_equal. cbn [Nat.iter]. now rewrite Nat.iter_swap.
  - rewrite !IH. rewrite Pos2Nat.inj_xO.
    replace (2 * Pos.to_nat p)%nat with (Pos.to_nat p + Pos.to_nat p)%nat by lia.
    now rewrite Nat.iter_add.
  - reflexivity.
Qed.

(** One shift to the right halves the mantissa; the round bit is the bit
    shifted out and the sticky bit collects the earlier ones. *)
Lemma shr_1_spec (r : shr_record) :
  0 <= shr_m r ->
  shr_m (shr_1 r) = shr_m r / 2
  /\ shr_r (shr_1 r) = Z.odd (shr_m r)
  /\ shr_s (shr_1 r) = (shr_r r || shr_s r)%bool.
Proof.
  destruct r as [m r s]. cbn [shr_m shr_r shr_s]. intros Hm.
  destruct m as [|p|p]; [| |lia].
  - repeat split.
  - destruct p as [p|p|]; cbn [shr_1 shr_m shr_r shr_s].
    + repeat split. rewrite Pos2Z.inj_xI.
      apply (Z.div_unique_pos _ 2 _ 1); lia.
    + repeat split. rewrite Pos2Z.inj_xO.
      apply (Z.div_unique_pos _ 2 _ 0); lia.
    + repeat split.
Qed.

(** After [n] shifts the mantissa is divided by [2^n], and a raised round or
    sticky bit tells that the division was not exact. *)
Lemma shr_iter_spec (M : Z) (n : nat) :
  0 <= M ->
  shr_m (Nat.iter n shr_1 (Build_shr_record M false false)) = M / 2 ^ Z.of_nat n
  /\ ((shr_r (Nat.iter n shr_1 (Build_shr_record M false false))
       || shr_s (Nat.iter n shr_1 (Build_shr_record M false false)))%bool = true ->
      M mod 2 ^ Z.of_nat n <> 0).
Proof.
  intros HM. induction n as [|n IH].
  - cbn. split; [now rewrite Z.div_1_r|discriminate].
  - rewrite Nat.iter_succ.
    set (r := Nat.iter n shr_1 (Build_shr_record M false false)) in *.
    destruct IH as [Hm Hrs].
    assert (Hp : 0 < 2 ^ Z.of_nat n) by (apply Z.pow_pos_nonneg; lia).
    assert (Hpos : 0 <= shr_m r).
    { rewrite Hm. apply Z.div_pos; lia. }
    destruct (shr_1_spec r Hpos) as (H1 & H2 & H3).
    rewrite H1, H2, H3, Hm.
    rewrite Nat2Z.inj_succ, Z.pow_succ_r by lia.
    split.
    + rewrite Z.div_div by lia. f_equal. lia.
    + intros H Hmod.
      apply Z.mod_divide in Hmod; [|lia].
      destruct Hmod as [j Hj].
      apply orb_prop in H as [Hodd|Hold].
      * replace M with ((2 * j) * 2 ^ Z.of_nat n) in Hodd by lia.
        rewrite Z.div_mul in Hodd by lia.
        rewrite Z.odd_mul in Hodd. discriminate.
      * apply Hrs; [exact Hold|].
        apply Z.mod_divide; [lia|]. exists (2 * j). lia.
Qed.


(** The number of binary digits of a mantissa. *)
Lemma digits2_pos_size (p : positive) : digits2_pos p = Pos.size p.
Proof. induction p; cbn; congruence. Qed.

Lemma digits2_bounds (p : positive) :
  2 ^ (Z.pos (digits2_pos p) - 1) <= Z.pos p < 2 ^ Z.pos (digits2_pos p).
Proof.
  rewrite digits2_pos_size.
  pose proof (Pos.size_gt p) as Hgt. pose proof (Pos.size_le p) as Hle.
  apply Pos2Z.pos_lt_pos in Hgt. apply Pos2Z.pos_le_pos in Hle.
  rewrite Pos2Z.inj_pow in Hgt, Hle. rewrite (Pos2Z.inj_xO p) in Hle.
  split; [|exact Hgt].
  assert (Hs : 2 ^ Z.pos (Pos.size p) = 2 * 2 ^ (Z.pos (Pos.size p) - 1)).
  { rewrite <- Z.pow_succ_r by lia. f_equal. lia. }
  lia.
Qed.

Lemma fexp_eq (x : Z) : fexp prec emax x = Z.max (x - 53) (-1074).
Proof. reflexivity. Qed.

Lemma shr_nonpos (r : shr_record) (e n : Z) : n <= 0 -> shr r e n = (r, e).
Proof. destruct n; [reflexivity|lia|reflexivity]. Qed.

(** [shr] by a non-negative amount [n] divides by [2^n]. *)
Lemma shr_spec (M e n : Z) :
  0 <= M -> 0 <= n ->
  exists r, shr (Build_shr_record M false false) e n = (r, e + n)
    /\ shr_m r = M / 2 ^ n
    /\ ((shr_r r || shr_s r)%bool = true -> M mod 2 ^ n <> 0).
Proof.
  intros HM Hn. destruct n as [|p|p]; [| |lia].
  - exists (Build_shr_record M false false). cbn [shr shr_m shr_r shr_s orb].
    rewrite Z.add_0_r, Z.div_1_r. repeat split. discriminate.
  - exists (SpecFloat.iter_pos shr_1 p (Build_shr_record M false false)).
    split; [reflexivity|].
    rewrite iter_pos_nat.
    pose proof (shr_iter_spec M (Pos.to_nat p) HM) as H.
    rewrite positive_nat_Z in H. exact H.
Qed.

(** Rounding keeps the shifted mantissa or adds one to it, the latter only
    when a bit was shifted out. *)
Lemma round_nearest_even_spec (r : shr_record) :
  round_nearest_even (shr_m r) (loc_of_shr_record r) = shr_m r
  \/ (round_nearest_even (shr_m r) (loc_of_shr_record r) = shr_m r + 1
      /\ shr_r r = true).
Proof.
  destruct r as [m [|] [|]]; cbn; try (left; reflexivity).
  - right. split; [lia|reflexivity].
  - destruct (Z.even m); [left; reflexivity|right; split; [lia|reflexivity]].
Qed.

(** Rounding a positive product [M * 2^E] to the float grid: the result is
    the grid point just below or just above, exact when the product is on
    the grid. *)
Lemma binary_round_aux_spec (M : positive) (E : Z) :
  let e1 := Z.max (Z.pos (digits2_pos M) + E - 53) (-1074) in
  E <= e1 -> e1 <= 970 ->
  exists m1 : Z,
    Z.pos M / 2 ^ (e1 - E) <= m1 <= Z.pos M / 2 ^ (e1 - E) + 1
    /\ (m1 = Z.pos M / 2 ^ (e1 - E) + 1 -> Z.pos M mod 2 ^ (e1 - E) <> 0)
    /\ ((m1 = 0
         /\ binary_round_aux prec emax false (Z.pos M) E loc_Exact
            = S754_zero false)
        \/ (exists m3 e3,
              binary_round_aux prec emax false (Z.pos M) E loc_Exact
              = S754_finite false m3 e3
              /\ e1 <= e3 <= e1 + 1 /\ Z.pos m3 * 2 ^ (e3 - e1) = m1)).
Proof.
  intros e1 HE Hmax.
  pose proof (digits2_bounds M) as [_ HMd].
  set (d := Z.pos (digits2_pos M)) in *.
  set (n := e1 - E).
  assert (Hn : 0 <= n) by (unfold n; lia).
  assert (Hpn : 0 < 2 ^ n) by (apply Z.pow_pos_nonneg; lia).
  assert (Hq0 : 0 <= Z.pos M / 2 ^ n) by (apply Z.div_pos; lia).
  assert (Hq : Z.pos M / 2 ^ n < 2 ^ 53).
  { apply Z.div_lt_upper_bound; [lia|].
    rewrite <- Z.pow_add_r by lia.
    eapply Z.lt_le_trans; [exact HMd|].
    apply Z.pow_le_mono_r; unfold n, e1; lia. }
  destruct (shr_spec (Z.pos M) E n) as (r & Hshr & Hm & Hrs); [lia|lia|].
  unfold binary_round_aux, shr_fexp.
  rewrite fexp_eq. cbn [Zdigits2 shr_record_of_loc].
  fold d. fold e1. fold n. rewrite Hshr.
  replace (E + n) with e1 by (unfold n; lia).
  set (m1 := round_nearest_even (shr_m r) (loc_of_shr_record r)).
  assert (Hm1 : Z.pos M / 2 ^ n <= m1 <= Z.pos M / 2 ^ n + 1
                /\ (m1 = Z.pos M / 2 ^ n + 1 -> Z.pos M mod 2 ^ n <> 0)).
  { unfold m1. destruct (round_nearest_even_spec r) as [->|[-> Hr]]; rewrite Hm.
    - split; [lia|]. intros; lia.
    - split; [lia|]. intros _. apply Hrs. now rewrite Hr. }
  destruct Hm1 as [Hb Hex].
  exists m1. split; [exact Hb|]. split; [exact Hex|].
  rewrite fexp_eq.
  destruct m1 as [|p1|p1] eqn:Ep1; [| |lia].
  - left. split; [reflexivity|].
    rewrite shr_nonpos by (cbn [Zdigits2]; unfold e1; lia).
    reflexivity.
  - right.
    pose proof (digits2_bounds p1) as [Hd1 _].
    cbn [Zdigits2].
    destruct (Z.eq_dec (Z.pos p1) (2 ^ 53)) as [Heq|Hne].
    + assert (p1 = 9007199254740992%positive) as -> by (change (2 ^ 53) with 9007199254740992 in Heq; lia).
      change (Z.pos (digits2_pos 9007199254740992)) with 54.
      replace (Z.max (54 + e1 - 53) (-1074) - e1) with 1 by (unfold e1; lia).
      cbn [shr SpecFloat.iter_pos shr_1 shr_m].
      exists 4503599627370496%positive, (e1 + 1).
      assert ((e1 + 1 <=? emax - prec) = true) as ->.
      { apply Z.leb_le. change (emax - prec) with 971. lia. }
      split; [reflexivity|]. split; [lia|].
      replace (e1 + 1 - e1) with 1 by lia. reflexivity.
    + assert (Hd53 : Z.pos (digits2_pos p1) <= 53).
      { assert (Z.pos p1 < 2 ^ 53) by lia.
        assert (2 ^ (Z.pos (digits2_pos p1) - 1) < 2 ^ 53) by lia.
        apply Z.pow_lt_mono_r_iff in H0; lia. }
      rewrite shr_nonpos by (unfold e1; lia).
      cbn [shr_m].
      exists p1, e1.
      assert ((e1 <=? emax - prec) = true) as ->.
      { apply Z.leb_le. change (emax - prec) with 971. lia. }
      split; [reflexivity|]. split; [lia|].
      rewrite Z.sub_diag. lia.
Qed.


(** A number that [to_rgba] accepts in a sequence is a NaN, a zero, or
    [m * 2^e] with [m * 2^e <= 1]. *)
Lemma in_range_repr (c : float) :
  out_of_range c = false ->
  match Prim2SF c with
  | S754_infinity _ => False
  | S754_finite s m e => s = false /\ e <= -52 /\ Z.pos m <= 2 ^ (- e)
  | _ => True
  end.
Proof.
  unfold out_of_range. rewrite !ltb_spec.
  change (Prim2SF 0) with (S754_zero false).
  change (Prim2SF 1) with (S754_finite false 4503599627370496 (-52)).
  pose proof (Prim2SF_valid c) as Hv.
  destruct (Prim2SF c) as [s|s| |s m e]; [trivial| |trivial|].
  - destruct s; cbn; discriminate.
  - intros H. apply orb_false_elim in H as [Hneg Hbig].
    destruct s; [discriminate Hneg|]. split; [reflexivity|].
    cbn [valid_binary] in Hv. unfold bounded, canonical_mantissa in Hv.
    apply andb_prop in Hv as [Hcan _]. apply Z.eqb_eq in Hcan.
    rewrite fexp_eq in Hcan.
    pose proof (digits2_bounds m) as [_ Hm].
    assert (Hd : Z.pos (digits2_pos m) <= 53) by lia.
    assert (Hm53 : Z.pos m < 2 ^ 53).
    { eapply Z.lt_le_trans; [exact Hm|]. apply Z.pow_le_mono_r; lia. }
    unfold SFltb, SFcompare in Hbig.
    destruct (Z.compare_spec (-52) e) as [He|He|He]; [| discriminate Hbig |].
    + subst e. split; [lia|].
      change (Pos.compare_cont Eq 4503599627370496 m)
        with (Pos.compare 4503599627370496 m) in Hbig.
      destruct (Pos.compare_spec 4503599627370496 m) as [H|H|H];
        [subst m; cbn; lia | discriminate Hbig |].
      apply Pos2Z.pos_lt_pos in H. change (2 ^ (- (-52))) with 4503599627370496. lia.
    + split; [lia|].
      apply Z.lt_le_incl. eapply Z.lt_le_trans; [exact Hm53|].
      apply Z.pow_le_mono_r; lia.
Qed.

(** The integer arithmetic behind [mul255_near].  [D] is the denominator of
    [c = m / D], [P] is [2^45], and [A], [B] are the powers of two by which
    the product is shifted and by which the result is read as an integer. *)
Lemma grid_arith (m D P A B q m1 : Z) :
  0 < D -> 0 < P -> 0 < A -> 0 < B -> A * B = P * D ->
  0 <= m <= D ->
  q = (255 * P * m) / A ->
  q <= m1 <= q + 1 ->
  (m1 = q + 1 -> (255 * P * m) mod A <> 0) ->
  (255 * m / D) * B <= m1 <= (255 * m / D + 1) * B
  /\ m1 <= 255 * B
  /\ (m1 = (255 * m / D + 1) * B -> (255 * m) mod D <> 0)
  /\ 0 <= 255 * m / D <= 255.
Proof.
  intros HD HP HA HB HAB Hm Hq Hm1 Hex.
  set (f := 255 * m / D).
  assert (HD0 : D <> 0) by lia. assert (HA0 : A <> 0) by lia.
  pose proof (Z.div_mod (255 * m) D HD0) as Hf. fold f in Hf.
  pose proof (Z.mod_pos_bound (255 * m) D HD) as Hrd.
  set (rd := (255 * m) mod D) in *.
  pose proof (Z.div_mod (255 * P * m) A HA0) as Hqa. rewrite <- Hq in Hqa.
  pose proof (Z.mod_pos_bound (255 * P * m) A HA) as Hra.
  set (ra := (255 * P * m) mod A) in *.
  assert (HM : 255 * P * m = A * B * f + P * rd) by nia.
  assert (Hf0 : 0 <= f) by (apply Z.div_pos; lia).
  assert (Hf255 : f <= 255) by (apply Z.div_le_upper_bound; lia).
  assert (HfB : f * B <= q).
  { rewrite Hq. apply Z.div_le_lower_bound; [lia|]. nia. }
  assert (HqB : q < (f + 1) * B).
  { rewrite Hq. apply Z.div_lt_upper_bound; [lia|]. nia. }
  assert (Hexact : rd = 0 -> m1 = q).
  { intros H0. destruct (Z.eq_dec m1 (q + 1)) as [H1|H1]; [|lia].
    exfalso. apply (Hex H1). fold ra.
    assert (ra = A * (B * f - q)) by nia.
    assert (B * f - q = 0) by nia. nia. }
  split; [lia|]. split; [|split; [|lia]].
  - destruct (Z.eq_dec f 255) as [E255|N255].
    + assert (rd = 0) by nia. rewrite (Hexact H).
      assert (m = D) by nia. subst m.
      rewrite Hq. replace (255 * P * D) with ((255 * B) * A) by nia.
      rewrite Z.div_mul by lia. lia.
    + assert ((f + 1) * B <= 255 * B) by nia. lia.
  - intros H1 H0. specialize (Hexact H0). lia.
Qed.


(** The double product [255 * c] for [c = m * 2^e] in [0, 1]: it lies between
    the integers around the exact product, never above 255, and on the upper
    integer only when the exact product is not an integer. *)
Lemma mul255_near (m : positive) (e : Z) :
  e <= -52 -> Z.pos m <= 2 ^ (- e) ->
  0 <= 255 * Z.pos m / 2 ^ (- e) <= 255
  /\ ((SFmul prec emax (S754_finite false 8972014882652160 (-45)) (S754_finite false m e)
       = S754_zero false
       /\ 255 * Z.pos m / 2 ^ (- e) = 0)
      \/ exists m3 e3,
           SFmul prec emax (S754_finite false 8972014882652160 (-45)) (S754_finite false m e)
           = S754_finite false m3 e3
           /\ e3 < 0
           /\ (255 * Z.pos m / 2 ^ (- e)) * 2 ^ (- e3) <= Z.pos m3
              <= (255 * Z.pos m / 2 ^ (- e) + 1) * 2 ^ (- e3)
           /\ Z.pos m3 <= 255 * 2 ^ (- e3)
           /\ (Z.pos m3 = (255 * Z.pos m / 2 ^ (- e) + 1) * 2 ^ (- e3) ->
               (255 * Z.pos m) mod 2 ^ (- e) <> 0)).
Proof.
  intros He Hm.
  cbn [SFmul xorb].
  set (M := (8972014882652160 * m)%positive).
  assert (HM : Z.pos M = 255 * 2 ^ 45 * Z.pos m).
  { unfold M. rewrite Pos2Z.inj_mul. reflexivity. }
  set (E := -45 + e).
  pose proof (digits2_bounds M) as [HdL HdU].
  set (d := Z.pos (digits2_pos M)) in *.
  assert (HD : 0 < 2 ^ (- e)) by (apply Z.pow_pos_nonneg; lia).
  assert (Hd53 : 53 <= d).
  { assert (2 ^ 52 < 2 ^ d).
    { eapply Z.le_lt_trans; [|exact HdU]. rewrite HM.
      change (2 ^ 52) with (4503599627370496). change (2 ^ 45) with 35184372088832. lia. }
    apply Z.pow_lt_mono_r_iff in H; lia. }
  assert (HdE : d <= 53 - e).
  { assert (2 ^ (d - 1) < 2 ^ (53 - e)).
    { eapply Z.le_lt_trans; [exact HdL|]. rewrite HM.
      replace (53 - e) with (53 + - e) by lia. rewrite Z.pow_add_r by lia.
      change (2 ^ 53) with 9007199254740992. change (2 ^ 45) with 35184372088832. nia. }
    apply Z.pow_lt_mono_r_iff in H; lia. }
  destruct (binary_round_aux_spec M E) as (m1 & Hb & Hex & Hres);
    fold d; [unfold E; lia|unfold E; lia|].
  fold d in Hb, Hex, Hres.
  set (e1 := Z.max (d + E - 53) (-1074)) in *.
  assert (He1 : E <= e1 <= -45) by (unfold e1, E; lia).
  assert (HA : 0 < 2 ^ (e1 - E)) by (apply Z.pow_pos_nonneg; lia).
  assert (HB : 0 < 2 ^ (- e1)) by (apply Z.pow_pos_nonneg; lia).
  assert (HAB : 2 ^ (e1 - E) * 2 ^ (- e1) = 2 ^ 45 * 2 ^ (- e)).
  { rewrite <- !Z.pow_add_r by lia. f_equal. unfold E. lia. }
  rewrite HM in Hb, Hex.
  destruct (grid_arith (Z.pos m) (2 ^ (- e)) (2 ^ 45) (2 ^ (e1 - E)) (2 ^ (- e1))
              (255 * 2 ^ 45 * Z.pos m / 2 ^ (e1 - E)) m1)
    as (Hfm & Hm255 & Hup & Hf); try assumption; try reflexivity; try lia.
  split; [exact Hf|].
  destruct Hres as [[H0 Hz]|(m3 & e3 & Hz & He3 & Hm3)].
  - left. split; [exact Hz|]. subst m1. nia.
  - right. exists m3, e3. split; [exact Hz|]. split; [lia|].
    assert (HK : 0 < 2 ^ (e3 - e1)) by (apply Z.pow_pos_nonneg; lia).
    assert (HB3 : 0 < 2 ^ (- e3)) by (apply Z.pow_pos_nonneg; lia).
    assert (HBK : 2 ^ (- e1) = 2 ^ (- e3) * 2 ^ (e3 - e1)).
    { rewrite <- Z.pow_add_r by lia. f_equal. lia. }
    rewrite HBK in Hfm, Hm255, Hup. rewrite <- Hm3 in Hfm, Hm255, Hup.
    set (f := 255 * Z.pos m / 2 ^ (- e)) in *.
    split; [nia|]. split; [nia|].
    intros Heq. apply Hup. rewrite Heq. ring.
Qed.


(** [int(255 * c)] for a number that [to_rgba] accepts: a level, less than
    one level away from the exact product. *)
Lemma int_mul255 (c : float) (k : Z) :
  out_of_range c = false ->
  Py.int (255 * c)%float = Ok k ->
  level k /\ within_one_level c k = true.
Proof.
  intros Hr Hk. pose proof (in_range_repr c Hr) as Hrep.
  unfold Py.int in Hk. rewrite mul_spec in Hk.
  change (Prim2SF 255) with (S754_finite false 8972014882652160 (-45)) in Hk.
  unfold within_one_level, SF64mul in *.
  destruct (Prim2SF c) as [s|s| |s m e].
  - cbn in Hk. injection Hk as <-. split; [unfold level; lia|reflexivity].
  - contradiction.
  - discriminate Hk.
  - destruct Hrep as (-> & He & Hm).
    assert (HD : 0 < 2 ^ (- e)) by (apply Z.pow_pos_nonneg; lia).
    assert (HD0 : 2 ^ (- e) <> 0) by lia.
    pose proof (Z.div_mod (255 * Z.pos m) (2 ^ (- e)) HD0) as Hdm.
    pose proof (Z.mod_pos_bound (255 * Z.pos m) (2 ^ (- e)) HD) as Hrd.
    rewrite (Z.max_l 0 e), (Z.max_r 0 (- e)) by lia.
    change (2 ^ 0) with 1.
    destruct (mul255_near m e He Hm)
      as (Hf & [[Hz Hf0]|(m3 & e3 & Hz & He3 & Hb & H255 & Hup)]);
      rewrite Hz in Hk.
    + injection Hk as <-. split; [unfold level; lia|].
      apply andb_true_intro. rewrite !Z.ltb_lt. rewrite Hf0 in Hdm. lia.
    + cbn iota in Hk. injection Hk as <-.
      rewrite Z.shiftl_div_pow2 by lia.
      set (f := 255 * Z.pos m / 2 ^ (- e)) in *.
      set (rd := (255 * Z.pos m) mod 2 ^ (- e)) in *.
      assert (HB3 : 0 < 2 ^ (- e3)) by (apply Z.pow_pos_nonneg; lia).
      set (B3 := 2 ^ (- e3)) in *.
      assert (Hk1 : f <= Z.pos m3 / B3) by (apply Z.div_le_lower_bound; lia).
      assert (Hk2 : Z.pos m3 / B3 <= f + 1) by (apply Z.div_le_upper_bound; lia).
      assert (Hk3 : Z.pos m3 / B3 <= 255) by (apply Z.div_le_upper_bound; lia).
      assert (Hk4 : Z.pos m3 / B3 = f + 1 -> rd <> 0).
      { intros Hq. apply Hup.
        assert (B3 * (f + 1) <= Z.pos m3).
        { rewrite <- Hq. apply Z.mul_div_le. lia. }
        lia. }
      split; [unfold level; lia|].
      apply andb_true_intro. rewrite !Z.ltb_lt.
      destruct (Z.eq_dec (Z.pos m3 / B3) f) as [Ef|Nf].
      * rewrite Ef. nia.
      * assert (Ef : Z.pos m3 / B3 = f + 1) by lia.
        specialize (Hk4 Ef). rewrite Ef. nia.
Qed.

(** Multiplying by 255 on either side gives the same double. *)
Lemma mul255_comm (c : float) : Prim2SF (c * 255)%float = Prim2SF (255 * c)%float.
Proof.
  rewrite !mul_spec.
  change (Prim2SF 255) with (S754_finite false 8972014882652160 (-45)).
  unfold SF64mul.
  destruct (Prim2SF c) as [s|s| |s m e]; cbn [SFmul]; try reflexivity.
  - now destruct s.
  - now destruct s.
  - now rewrite Pos.mul_comm, Z.add_comm, xorb_comm.
Qed.

(** [round(c * 255)] for a number that [to_rgba] accepts is a level. *)
Lemma round_mul255 (c : float) (l : Z) :
  out_of_range c = false ->
  Py.round (c * 255)%float = Ok l ->
  level l.
Proof.
  intros Hr Hl. pose proof (in_range_repr c Hr) as Hrep.
  unfold Py.round in Hl. rewrite mul255_comm, mul_spec in Hl.
  change (Prim2SF 255) with (S754_finite false 8972014882652160 (-45)) in Hl.
  unfold SF64mul in *.
  destruct (Prim2SF c) as [s|s| |s m e].
  - cbn in Hl. injection Hl as <-. unfold level; lia.
  - contradiction.
  - discriminate Hl.
  - destruct Hrep as (-> & He & Hm).
    destruct (mul255_near m e He Hm)
      as (Hf & [[Hz Hf0]|(m3 & e3 & Hz & He3 & Hb & H255 & Hup)]);
      rewrite Hz in Hl.
    + injection Hl as <-. unfold level; lia.
    + cbn iota in Hl.
      assert ((0 <=? e3) = false) as Hneg by (apply Z.leb_gt; lia).
      rewrite Hneg in Hl. cbv zeta in Hl.
      rewrite Z.shiftr_div_pow2, !Z.shiftl_mul_pow2 in Hl by lia.
      set (f := 255 * Z.pos m / 2 ^ (- e)) in *.
      assert (HB3 : 0 < 2 ^ (- e3)) by (apply Z.pow_pos_nonneg; lia).
      set (B3 := 2 ^ (- e3)) in *.
      assert (Hh : 0 < 1 * 2 ^ (- e3 - 1)).
      { rewrite Z.mul_1_l. apply Z.pow_pos_nonneg; lia. }
      set (half := 1 * 2 ^ (- e3 - 1)) in *.
      assert (HB0 : B3 <> 0) by lia.
      pose proof (Z.div_mod (Z.pos m3) B3 HB0) as Hdm.
      pose proof (Z.mod_pos_bound (Z.pos m3) B3 HB3) as Hrb.
      set (q3 := Z.pos m3 / B3) in *.
      assert (Hq0 : 0 <= q3) by (apply Z.div_pos; lia).
      assert (Hq255 : q3 <= 255) by (apply Z.div_le_upper_bound; lia).
      assert (Hup1 : half <= Z.pos m3 - q3 * B3 -> q3 + 1 <= 255) by nia.
      destruct (Z.ltb_spec (Z.pos m3 - q3 * B3) half) as [Hlt|Hge].
      * injection Hl as <-. unfold level; lia.
      * specialize (Hup1 Hge).
        destruct (half <? Z.pos m3 - q3 * B3); [injection Hl as <-; unfold level; lia|].
        destruct (Z.even q3); injection Hl as <-; unfold level; lia.
Qed.


Lemma Prim2SF_not_nan (c : float) :
  PrimFloat.is_nan c = false -> Prim2SF c <> S754_nan.
Proof.
  intros H. unfold Prim2SF. rewrite H.
  destruct (is_zero c); [discriminate|].
  destruct (is_infinity c); [discriminate|].
  repeat match goal with
         | |- context [let (_, _) := ?x in _] => destruct x
         end.
  match goal with
  | |- context [match ?x with Z0 => _ | Zpos _ => _ | Zneg _ => _ end] => destruct x
  end; discriminate.
Qed.

(** For a number that [to_rgba] accepts, the product with 255 is a zero or a
    positive finite double. *)
Lemma mul255_cases (c : float) :
  out_of_range c = false -> PrimFloat.is_nan c = false ->
  (exists s, Prim2SF (255 * c)%float = S754_zero s)
  \/ (exists m e, Prim2SF (255 * c)%float = S754_finite false m e).
Proof.
  intros Hr Hn. pose proof (in_range_repr c Hr) as Hrep.
  pose proof (Prim2SF_not_nan c Hn) as Hnn.
  rewrite mul_spec.
  change (Prim2SF 255) with (S754_finite false 8972014882652160 (-45)).
  unfold SF64mul.
  destruct (Prim2SF c) as [s|s| |s m e].
  - left. cbn. eauto.
  - contradiction.
  - congruence.
  - destruct Hrep as (-> & He & Hm).
    destruct (mul255_near m e He Hm) as (_ & [[Hz _]|(m3 & e3 & Hz & _)]);
      rewrite Hz; eauto.
Qed.

(** [int(255 * c)] returns for every number that [to_rgba] accepts. *)
Lemma int_mul255_total (c : float) :
  out_of_range c = false -> PrimFloat.is_nan c = false ->
  exists k, Py.int (255 * c)%float = Ok k.
Proof.
  intros Hr Hn. unfold Py.int.
  destruct (mul255_cases c Hr Hn) as [[s ->]|(m & e & ->)]; eauto.
Qed.

(** [round(c * 255)] returns for every number that [to_rgba] accepts. *)
Lemma round_mul255_total (c : float) :
  out_of_range c = false -> PrimFloat.is_nan c = false ->
  exists l, Py.round (c * 255)%float = Ok l.
Proof.
  intros Hr Hn. unfold Py.round. rewrite mul255_comm.
  destruct (mul255_cases c Hr Hn) as [[s ->]|(m & e & ->)]; eauto.
Qed.

(** *** Inversion of any colour *)

(** Every number that [to_rgba] answers lies within [0, 1]. *)
Lemma to_rgba_in_range (c : color_arg) (c0 c1 c2 c3 : float) :
  to_rgba c = Ok [c0; c1; c2; c3] ->
  out_of_range c0 = false /\ out_of_range c1 = false
  /\ out_of_range c2 = false /\ out_of_range c3 = false.
Proof.
  destruct c as [s|l].
  - destruct (to_rgba_string_cases s) as [H|(r & g & b & a & Hr & Hg & Hb & Ha & H)];
      rewrite H; [discriminate|].
    intros [= <- <- <- <-].
    repeat split; apply channel_in_range; assumption.
  - unfold to_rgba.
    destruct l as [|x0 [|x1 [|x2 [|x3 [|x4 l]]]]];
      cbn [List.length Nat.eqb orb negb app]; try discriminate.
    + destruct (existsb out_of_range [x0; x1; x2; 1%float]) eqn:E; [discriminate|].
      intros [= <- <- <- <-]. cbn [existsb] in E.
      repeat (apply orb_false_elim in E as [? E]). auto.
    + destruct (existsb out_of_range [x0; x1; x2; x3]) eqn:E; [discriminate|].
      intros [= <- <- <- <-]. cbn [existsb] in E.
      repeat (apply orb_false_elim in E as [? E]). auto.
Qed.

(** [invert_color] on every colour whose channels are numbers: each channel
    [c] is truncated to the level [int(255 * c)], less than one level away
    from it, and the red, green and blue levels are complemented; the inverted
    alpha is computed and then dropped. *)
Lemma invert_color_trunc (color : color_arg) (c0 c1 c2 c3 : float) :
  to_rgba color = Ok [c0; c1; c2; c3] ->
  PrimFloat.is_nan c0 = false -> PrimFloat.is_nan c1 = false ->
  PrimFloat.is_nan c2 = false -> PrimFloat.is_nan c3 = false ->
  exists k0 k1 k2,
    (Py.int (255 * c0)%float = Ok k0 /\ Py.int (255 * c1)%float = Ok k1
     /\ Py.int (255 * c2)%float = Ok k2)
    /\ (level k0 /\ level k1 /\ level k2)
    /\ (within_one_level c0 k0 = true /\ within_one_level c1 k1 = true
        /\ within_one_level c2 k2 = true)
    /\ invert_color color = Ok (hex_rgb (255 - k0) (255 - k1) (255 - k2)).
Proof.
  intros E N0 N1 N2 N3.
  destruct (to_rgba_in_range _ _ _ _ _ E) as (R0 & R1 & R2 & R3).
  destruct (int_mul255_total c0 R0 N0) as [k0 I0].
  destruct (int_mul255_total c1 R1 N1) as [k1 I1].
  destruct (int_mul255_total c2 R2 N2) as [k2 I2].
  destruct (int_mul255_total c3 R3 N3) as [k3 I3].
  destruct (int_mul255 c0 k0 R0 I0) as [L0 W0].
  destruct (int_mul255 c1 k1 R1 I1) as [L1 W1].
  destruct (int_mul255 c2 k2 R2 I2) as [L2 W2].
  destruct (int_mul255 c3 k3 R3 I3) as [L3 _].
  exists k0, k1, k2.
  split; [auto|]. split; [auto|]. split; [auto|].
  unfold invert_color. rewrite E.
  cbn [bind for_enumerate].
  rewrite I0. cbn [bind]. rewrite I1. cbn [bind].
  rewrite I2. cbn [bind]. rewrite I3. cbn [bind].
  cbn [insert list_insert].
  rewrite !Z.mod_small by (unfold level in *; lia).
  apply (to_hex_levels _ (255 - k0) (255 - k1) (255 - k2) (255 - k3));
    try (apply level_complement; assumption).
  apply to_rgba_seq_levels; apply level_complement; assumption.
Qed.

(** On a level the truncation is exact. *)
Lemma int_channel_inv (n k : Z) :
  level n -> Py.int (255 * channel n)%float = Ok k -> k = n.
Proof. intros H E. rewrite (int_channel n H) in E. congruence. Qed.

(** C1 (amended).  For every colour value whose channels are numbers,
    [invert_color] returns the six-digit value whose red, green and blue
    levels are [255 - int(255 * c)]: each channel [c] is truncated, not
    rounded, to a level [k] less than one level away from it, and the result
    holds the level [255 - k], which is [1 - c] on the 256 levels exactly
    when [c] is on a level.  The result has no alpha digits and reads back as
    fully opaque, whatever the alpha of the argument was. *)
Theorem invert_color_complements_rgb (color : color_arg) (c0 c1 c2 c3 : float) :
  to_rgba color = Ok [c0; c1; c2; c3] ->
  PrimFloat.is_nan c0 = false -> PrimFloat.is_nan c1 = false ->
  PrimFloat.is_nan c2 = false -> PrimFloat.is_nan c3 = false ->
  exists k0 k1 k2,
    (Py.int (255 * c0)%float = Ok k0 /\ Py.int (255 * c1)%float = Ok k1
     /\ Py.int (255 * c2)%float = Ok k2)
    /\ (level k0 /\ level k1 /\ level k2)
    /\ (within_one_level c0 k0 = true /\ within_one_level c1 k1 = true
        /\ within_one_level c2 k2 = true)
    /\ invert_color color = Ok (hex_rgb (255 - k0) (255 - k1) (255 - k2))
    /\ to_rgba (CStr (hex_rgb (255 - k0) (255 - k1) (255 - k2))) =
         Ok [channel (255 - k0); channel (255 - k1); channel (255 - k2); channel 255]
    /\ (forall r g b,
          level r -> level g -> level b ->
          c0 = channel r -> c1 = channel g -> c2 = channel b ->
          k0 = r /\ k1 = g /\ k2 = b).
Proof.
  intros E N0 N1 N2 N3.
  destruct (invert_color_trunc color c0 c1 c2 c3 E N0 N1 N2 N3)
    as (k0 & k1 & k2 & (I0 & I1 & I2) & (L0 & L1 & L2) & HW & Hinv).
  exists k0, k1, k2.
  split; [auto|]. split; [auto|]. split; [exact HW|]. split; [exact Hinv|].
  split.
  - rewrite to_rgba_hex_rgb by (apply level_complement; assumption).
    reflexivity.
  - intros r g b Hr Hg Hb -> -> ->.
    split; [|split]; eapply int_channel_inv; eassumption.
Qed.

(** Inverting [#000000FF] gives [#ffffff], the colour [#FFFFFFFF]; inverting
    [#FFFFFFFF] gives [#000000], the colour [#000000FF]. *)
Lemma invert_color_black_white :
  (invert_color (CStr "#000000FF") = Ok "#ffffff"
   /\ to_rgba (CStr "#ffffff") = to_rgba (CStr "#FFFFFFFF"))
  /\ (invert_color (CStr "#FFFFFFFF") = Ok "#000000"
      /\ to_rgba (CStr "#000000") = to_rgba (CStr "#000000FF")).
Proof.
  assert (L0 : level 0) by (unfold level; lia).
  assert (L255 : level 255) by (unfold level; lia).
  assert (Eb : to_rgba (CStr "#000000FF")
               = Ok [channel 0; channel 0; channel 0; channel 255])
    by (vm_compute; reflexivity).
  assert (Ew : to_rgba (CStr "#FFFFFFFF")
               = Ok [channel 255; channel 255; channel 255; channel 255])
    by (vm_compute; reflexivity).
  assert (N0 : PrimFloat.is_nan (channel 0) = false) by (vm_compute; reflexivity).
  assert (N255 : PrimFloat.is_nan (channel 255) = false) by (vm_compute; reflexivity).
  split; split.
  - destruct (invert_color_complements_rgb _ _ _ _ _ Eb N0 N0 N0 N255)
      as (k0 & k1 & k2 & _ & _ & _ & Hinv & _ & Hlev).
    destruct (Hlev 0 0 0 L0 L0 L0 eq_refl eq_refl eq_refl) as (-> & -> & ->).
    exact Hinv.
  - vm_compute; reflexivity.
  - destruct (invert_color_complements_rgb _ _ _ _ _ Ew N255 N255 N255 N255)
      as (k0 & k1 & k2 & _ & _ & _ & Hinv & _ & Hlev).
    destruct (Hlev 255 255 255 L255 L255 L255 eq_refl eq_refl eq_refl)
      as (-> & -> & ->).
    exact Hinv.
  - vm_compute; reflexivity.
Defined.

(** The claimed value fails on both counts.  The alpha of the default
    foreground [#FFFFFF00] is not preserved: its inverse is the opaque
    [#000000].  And off the levels the channels are not [round(255 * (1 - c))]:
    the opaque colour [(0.5, 0.25, 0.125)] inverts to the levels 128, 192 and
    224, where rounding [1 - c] gives 128, 191 and 223. *)
Lemma invert_color_drops_alpha_and_truncates :
  (invert_color (CStr "#FFFFFF00") = Ok "#000000"
   /\ alpha_of "#000000" = Ok 1%float
   /\ alpha_of "#FFFFFF00" = Ok 0%float
   /\ alpha_of "#000000" <> alpha_of "#FFFFFF00")
  /\ (invert_color (CSeq [0.5; 0.25; 0.125; 1]%float) = Ok (hex_rgb 128 192 224)
      /\ map_result (fun c => Py.round (255 * (1 - c))%float) [0.5; 0.25; 0.125]%float
         = Ok [128; 191; 223]
      /\ to_hex (CSeq [1 - 0.5; 1 - 0.25; 1 - 0.125; 1]%float) false
         = Ok (hex_rgb 128 191 223)
      /\ hex_rgb 128 192 224 <> hex_rgb 128 191 223).
Proof.
  assert (H1 : alpha_of "#000000" = Ok 1%float) by (vm_compute; reflexivity).
  assert (H0 : alpha_of "#FFFFFF00" = Ok 0%float) by (vm_compute; reflexivity).
  split.
  - split; [vm_compute; reflexivity|].
    split; [exact H1|]. split; [exact H0|].
    rewrite H1, H0. exact Ok_one_neq_zero.
  - split; [vm_compute; reflexivity|].
    split; [vm_compute; reflexivity|].
    split; [vm_compute; reflexivity|].
    vm_compute. discriminate.
Qed.

(** C6 (amended).  For every colour value whose channels are numbers,
    inverting twice gives the six-digit value whose red, green and blue
    levels are [int(255 * c)]: each lies less than one level, that is less
    than [1/255], away from the channel [c] it comes from, and is that channel
    exactly when it is on a level.  The result reads back as opaque, so the
    alpha is not recovered within [1/255] unless the colour was opaque to
    begin with. *)
Theorem invert_color_twice (color : color_arg) (c0 c1 c2 c3 : float) :
  to_rgba color = Ok [c0; c1; c2; c3] ->
  PrimFloat.is_nan c0 = false -> PrimFloat.is_nan c1 = false ->
  PrimFloat.is_nan c2 = false -> PrimFloat.is_nan c3 = false ->
  exists k0 k1 k2,
    (Py.int (255 * c0)%float = Ok k0 /\ Py.int (255 * c1)%float = Ok k1
     /\ Py.int (255 * c2)%float = Ok k2)
    /\ (let* once := invert_color color in invert_color (CStr once))
       = Ok (hex_rgb k0 k1 k2)
    /\ to_rgba (CStr (hex_rgb k0 k1 k2)) =
         Ok [channel k0; channel k1; channel k2; channel 255]
    /\ (level k0 /\ level k1 /\ level k2)
    /\ (within_one_level c0 k0 = true /\ within_one_level c1 k1 = true
        /\ within_one_level c2 k2 = true)
    /\ (forall r g b,
          level r -> level g -> level b ->
          c0 = channel r -> c1 = channel g -> c2 = channel b ->
          k0 = r /\ k1 = g /\ k2 = b).
Proof.
  intros E N0 N1 N2 N3.
  destruct (invert_color_trunc color c0 c1 c2 c3 E N0 N1 N2 N3)
    as (k0 & k1 & k2 & (I0 & I1 & I2) & (L0 & L1 & L2) & HW & Hinv).
  exists k0, k1, k2.
  split; [auto|].
  split; [|split; [|split; [auto|split; [exact HW|]]]].
  - rewrite Hinv. cbn [bind].
    rewrite (invert_color_on_levels _ (255 - k0) (255 - k1) (255 - k2) 255).
    + now rewrite !complement_involutive.
    + now apply level_complement.
    + now apply level_complement.
    + now apply level_complement.
    + unfold level; lia.
    + rewrite to_rgba_hex_rgb by (apply level_complement; assumption).
      reflexivity.
  - rewrite to_rgba_hex_rgb by assumption. reflexivity.
  - intros r g b Hr Hg Hb -> -> ->.
    split; [|split]; eapply int_channel_inv; eassumption.
Qed.

(** Off the levels: the opaque colour [(0.5, 0.25, 0.125)] comes back as the
    levels 127, 63 and 31, each less than [1/255] from the channel. *)
Lemma invert_color_twice_example :
  (let* once := invert_color (CSeq [0.5; 0.25; 0.125; 1]%float) in
   invert_color (CStr once)) = Ok "#7f3f1f"
  /\ (within_one_level 0.5 127 = true /\ within_one_level 0.25 63 = true
      /\ within_one_level 0.125 31 = true).
Proof.
  assert (E : to_rgba (CSeq [0.5; 0.25; 0.125; 1]%float)
              = Ok [0.5; 0.25; 0.125; 1]%float) by (vm_compute; reflexivity).
  assert (N0 : PrimFloat.is_nan 0.5 = false) by (vm_compute; reflexivity).
  assert (N1 : PrimFloat.is_nan 0.25 = false) by (vm_compute; reflexivity).
  assert (N2 : PrimFloat.is_nan 0.125 = false) by (vm_compute; reflexivity).
  assert (N3 : PrimFloat.is_nan 1 = false) by (vm_compute; reflexivity).
  destruct (invert_color_twice _ _ _ _ _ E N0 N1 N2 N3)
    as (k0 & k1 & k2 & (I0 & I1 & I2) & Htwice & _ & _ & HW & _).
  vm_compute in I0, I1, I2.
  injection I0 as <-. injection I1 as <-. injection I2 as <-.
  split; [exact Htwice|exact HW].
Defined.

(** Inverting the default foreground [#FFFFFF00] twice gives [#ffffff], whose
    alpha is 1 where the original has 0: further than [1/255]. *)
Lemma invert_color_twice_loses_alpha :
  (let* once := invert_color (CStr "#FFFFFF00") in invert_color (CStr once))
  = Ok "#ffffff"
  /\ alpha_of "#ffffff" = Ok 1%float
  /\ alpha_of "#FFFFFF00" = Ok 0%float
  /\ PrimFloat.ltb (1 / 255) (PrimFloat.abs (1 - 0)) = true.
Proof. repeat split; vm_compute; reflexivity. Qed.

(** *** Reading channels *)

(** C7.  [RawColor.get] ignores its argument and always returns the stored
    colour; [BeamerColor.get] returns the foreground for ["fg"], the
    background for ["bg"], and raises [RuntimeError] for any other argument. *)
Theorem get_channels (r : RawColor) (b : BeamerColor) (c1 c2 c : string) :
  (get (Raw r) c1 = Ok (color r) /\ get (Raw r) c1 = get (Raw r) c2)
  /\ get (Beamer b) "fg" = Ok (fg b)
  /\ get (Beamer b) "bg" = Ok (bg b)
  /\ (c <> "fg" -> c <> "bg" -> get (Beamer b) c = Raise RuntimeError).
Proof.
  repeat split.
  intros Hfg Hbg. cbn [get]. unfold BeamerColor_get.
  apply String.eqb_neq in Hfg, Hbg. rewrite Hfg, Hbg. reflexivity.
Qed.

(** C9.  A new [RawColor] holds ["#FFFFFFFF"] with label colour
    ["#000000FF"]; a new [BeamerColor] holds foreground ["#FFFFFF00"],
    background ["#00000000"] and both inverses ["#000000FF"].  [get] on a
    valid channel returns these values, and each of them is a valid colour. *)
Theorem defaults_after_construction (md5_hexdigest : string -> string)
    (name channel_name : string) :
  let r := RawColor_init md5_hexdigest name in
  let b := BeamerColor_init md5_hexdigest name in
  (color r = "#FFFFFFFF" /\ fontcolor r = "#000000FF"
   /\ get (Raw r) channel_name = Ok "#FFFFFFFF")
  /\ (fg b = "#FFFFFF00" /\ bg b = "#00000000"
      /\ inverted_fg b = "#000000FF" /\ inverted_bg b = "#000000FF"
      /\ get (Beamer b) "fg" = Ok "#FFFFFF00"
      /\ get (Beamer b) "bg" = Ok "#00000000")
  /\ (to_rgba (CStr "#FFFFFFFF") = Ok [1; 1; 1; 1]%float
      /\ to_rgba (CStr "#000000FF") = Ok [0; 0; 0; 1]%float
      /\ to_rgba (CStr "#FFFFFF00") = Ok [1; 1; 1; 0]%float
      /\ to_rgba (CStr "#00000000") = Ok [0; 0; 0; 0]%float).
Proof.
  cbv zeta. split; [|split].
  - repeat split.
  - repeat split.
  - repeat split; vm_compute; reflexivity.
Qed.

(** *** Blending *)

(** A single tuple argument is copied: [_blend] returns what the source's
    [get] returns, whatever the weight (100, another value, or none), without
    reading it as a colour.  For a raw source this is the stored value. *)
Lemma blend_single_is_copy (c : Color) (r : RawColor) (g : string)
    (w : option float) :
  _blend [mkSpec c g w] = get c g
  /\ _blend [mkSpec (Raw r) g (Some 100%float)] = Ok (color r)
  /\ _blend [mkSpec (Raw r) g None] = Ok (color r).
Proof. repeat split. Qed.

Lemma blend_loop_tuples (specs : list color_spec) :
  forall i acc,
    for_enumerate
      (fun _ color acc => let* spec := arg_spec color in blend_step spec acc)
      i (map ATuple specs) acc
    = for_enumerate (fun _ => blend_step) i specs acc.
Proof.
  induction specs as [|spec specs IH]; intros i acc; [reflexivity|].
  cbn [map for_enumerate arg_spec bind].
  destruct (blend_step spec acc) as [acc'|e]; [|reflexivity].
  cbn [bind]. apply IH.
Qed.

(** On tuple arguments, which is what [inherit] hands over when it is given
    tuples, [_blend_args] is [_blend], provided one call is still allowed. *)
Lemma blend_args_tuples (depth : nat) (specs : list color_spec) :
  _blend_args (S depth) (map ATuple specs) = _blend specs.
Proof.
  destruct specs as [|s1 [|s2 specs]]; try reflexivity.
  cbn [_blend_args _blend map].
  change (ATuple s1 :: ATuple s2 :: map ATuple specs)
    with (map ATuple (s1 :: s2 :: specs)).
  rewrite blend_loop_tuples. reflexivity.
Qed.

(** C4.  The claim's call, blend of the one-element sequence [[(v, 100)]],
    hands [_blend] a single argument that is a list.  The branch written for
    it, lines 42-43, calls [cls._blend(color_specs[0])], which passes the same
    list as the single argument again: whatever the number of nested calls
    the interpreter allows, the call ends in [RecursionError] and returns no
    colour, where the claim says it returns [v].  The same component handed
    over as a tuple argument is copied unchanged, whatever its weight. *)
Theorem blend_single_list_recurses (depth : nat) (specs : list color_spec)
    (v : RawColor) (c : Color) (g : string) (w : option float) :
  _blend_args depth [AList specs] = Raise RecursionError
  /\ _blend_args depth [AList [mkSpec (Raw v) "color" (Some 100%float)]]
     = Raise RecursionError
  /\ _blend_args (S depth) [ATuple (mkSpec c g w)] = get c g
  /\ _blend_args (S depth) [ATuple (mkSpec (Raw v) "color" (Some 100%float))]
     = Ok (color v).
Proof.
  assert (H : forall l, _blend_args depth [AList l] = Raise RecursionError).
  { intros l. induction depth as [|d IH]; [reflexivity|exact IH]. }
  split; [apply H|]. split; [apply H|]. split; reflexivity.
Qed.

(** With the default limit of 1000 nested calls, on the list holding a new
    raw colour at full weight. *)
Example blend_single_list_example :
  _blend_args 1000
    [AList [mkSpec (Raw (RawColor_init md5_examples "white")) "color" (Some 100%float)]]
  = Raise RecursionError
  /\ _blend_args 1000
       [ATuple (mkSpec (Raw (RawColor_init md5_examples "white")) "color" (Some 100%float))]
     = Ok "#FFFFFFFF".
Proof. split; vm_compute; reflexivity. Qed.

(** The single copy does not even re-print the value: the upper-case default of
    a new raw colour comes back as it is, where [to_hex] would give lower case. *)
Example blend_single_keeps_spelling :
  _blend [mkSpec (Raw (RawColor_init md5_examples "white")) "color" (Some 50%float)]
  = Ok "#FFFFFFFF"
  /\ to_hex (CStr "#FFFFFFFF") true = Ok "#ffffffff".
Proof. split; vm_compute; reflexivity. Qed.

(** One turn of the loop of [_blend] adds the weighted component to each of
    the three accumulators. *)
Lemma blend_step_resolved spec component x0 x1 x2 :
  resolves spec component ->
  blend_step spec [x0; x1; x2] =
  Ok [add_weighted 0 x0 component; add_weighted 1 x1 component;
      add_weighted 2 x2 component].
Proof.
  intros (c & Hget & Hrgba & Hw).
  destruct (to_rgba_shape _ _ Hrgba) as (r & g & b & a & E).
  unfold blend_step, to_rgb, add_weighted.
  rewrite Hget. cbn [bind]. rewrite Hrgba, E. cbn [bind take for_enumerate].
  rewrite Hw. reflexivity.
Qed.

Lemma blend_loop_resolved specs components :
  Forall2 resolves specs components ->
  forall i x0 x1 x2,
    for_enumerate (fun _ => blend_step) i specs [x0; x1; x2] =
    Ok [fold_left (add_weighted 0) components x0;
        fold_left (add_weighted 1) components x1;
        fold_left (add_weighted 2) components x2].
Proof.
  induction 1 as [|spec component specs components Hres _ IH]; intros i x0 x1 x2.
  - reflexivity.
  - cbn [for_enumerate fold_left].
    rewrite (blend_step_resolved _ _ _ _ _ Hres). cbn [bind]. apply IH.
Qed.

(** With two or more arguments, the code of [_blend] computes the described
    sum and prints it with [to_hex]: no normalisation by the total weight, and
    the alpha of the first component. *)
Lemma blend_weighted_sum spec component specs components :
  resolves spec component ->
  Forall2 resolves specs components ->
  specs <> [] ->
  _blend (spec :: specs) =
  to_hex (CSeq [weighted_sum (component :: components) 0;
                weighted_sum (component :: components) 1;
                weighted_sum (component :: components) 2;
                nth 3 (fst component) 0%float]) true.
Proof.
  intros Hres Hall Hne.
  assert (Hall' : Forall2 resolves (spec :: specs) (component :: components))
    by (constructor; assumption).
  assert (Hloop := blend_loop_resolved _ _ Hall' 0%nat 0%float 0%float 0%float).
  destruct Hres as (c & Hget & Hrgba & Hw).
  destruct (to_rgba_shape _ _ Hrgba) as (r & g & b & a & E).
  unfold _blend. destruct specs as [|spec2 specs]; [congruence|].
  rewrite Hloop. cbn [bind head from_option].
  rewrite Hget. cbn [bind]. rewrite Hrgba, E. reflexivity.
Qed.

(** C2 (amended).  For two weighted components [(v1, w1)] and [(v2, w2)],
    [_blend] returns [to_hex] of the list whose red, green and blue entries
    are [0 + v1.c * w1 / 100 + v2.c * w2 / 100], computed on doubles in this
    order and not divided by the total weight, and whose alpha is the alpha of
    [v1].  The returned channels are therefore these sums rounded to the
    nearest of the 256 levels (ties to the even level), not the exact sums;
    a sum outside [0, 1] makes the call raise [ValueError]. *)
Theorem blend_two_components s1 s2 c1 c2 r1 g1 b1 a1 r2 g2 b2 a2 w1 w2 :
  get (source s1) (ground s1) = Ok c1 ->
  to_rgba (CStr c1) = Ok [r1; g1; b1; a1] ->
  percent s1 = Some w1 ->
  get (source s2) (ground s2) = Ok c2 ->
  to_rgba (CStr c2) = Ok [r2; g2; b2; a2] ->
  percent s2 = Some w2 ->
  let sums := [0 + r1 * w1 / 100 + r2 * w2 / 100;
               0 + g1 * w1 / 100 + g2 * w2 / 100;
               0 + b1 * w1 / 100 + b2 * w2 / 100;
               a1]%float in
  _blend [s1; s2] = to_hex (CSeq sums) true
  /\ to_hex (CSeq sums) true =
     if existsb out_of_range sums then Raise ValueError
     else
       let* levels := map_result (fun val => Py.round (val * 255)%float) sums in
       Ok (String "#" (String.concat "" (map Py.format_02x levels))).
Proof.
  intros G1 E1 W1 G2 E2 W2 sums. split.
  - rewrite (blend_weighted_sum s1 ([r1; g1; b1; a1], w1) [s2]
               [([r2; g2; b2; a2], w2)]).
    + reflexivity.
    + exists c1. auto.
    + constructor; [exists c2; auto|constructor].
    + discriminate.
  - unfold to_hex, to_rgba. subst sums.
    cbn [List.length Nat.eqb orb negb].
    match goal with |- context [existsb ?f ?l] => destruct (existsb f l) end;
      reflexivity.
Qed.

(** Black and white blended half and half: the sum 0.5 is printed as level
    128. *)
Lemma blend_black_white_half :
  let black := raw_example "black" (CStr "#000000") in
  let white := raw_example "white" (CStr "#FFFFFF") in
  let s1 := mkSpec (Raw black) "color" (Some 50%float) in
  let s2 := mkSpec (Raw white) "color" (Some 50%float) in
  let sums := [0 + 0 * 50 / 100 + 1 * 50 / 100;
               0 + 0 * 50 / 100 + 1 * 50 / 100;
               0 + 0 * 50 / 100 + 1 * 50 / 100;
               1]%float in
  _blend [s1; s2] = to_hex (CSeq sums) true
  /\ to_hex (CSeq sums) true =
     if existsb out_of_range sums then Raise ValueError
     else
       let* levels := map_result (fun val => Py.round (val * 255)%float) sums in
       Ok (String "#" (String.concat "" (map Py.format_02x levels))).
Proof.
  cbv zeta.
  apply (blend_two_components _ _ "#000000ff" "#ffffffff"
           0%float 0%float 0%float 1%float 1%float 1%float 1%float 1%float
           50%float 50%float);
    vm_compute; reflexivity.
Defined.

(** The blended channel is a level, not the exact sum: black and white half
    and half give level 128, the double [128 / 255], where the weighted sum is
    [0.5]; and [128 / 255] is not one half. *)
Lemma blend_is_rounded :
  let black := raw_example "black" (CStr "#000000") in
  let white := raw_example "white" (CStr "#FFFFFF") in
  _blend [mkSpec (Raw black) "color" (Some 50%float);
          mkSpec (Raw white) "color" (Some 50%float)] = Ok "#808080ff"
  /\ to_rgba (CStr "#808080ff") =
       Ok [channel 128; channel 128; channel 128; channel 255]
  /\ PrimFloat.eqb (channel 128) (50 / 100 * 0 + (100 - 50) / 100 * 1) = false
  /\ 128 * 2 <> 255 * 1.
Proof. cbv zeta. repeat split; try (vm_compute; reflexivity). lia. Qed.

(** *** Accuracy of the two-colour blends of the catalogue *)

Lemma catalogue_weights_checked : forallb mix_check_all catalogue_weights = true.
Proof. vm_compute. reflexivity. Qed.

Lemma mix_checked w n1 n2 :
  In w catalogue_weights -> level n1 -> level n2 ->
  exists l,
    out_of_range (mix n1 n2 (Py.float_of_Z w) (Py.float_of_Z (100 - w))) = false
    /\ Py.round (mix n1 n2 (Py.float_of_Z w) (Py.float_of_Z (100 - w)) * 255)%float
       = Ok l
    /\ nearest_level w n1 n2 l.
Proof.
  intros Hw H1 H2.
  assert (Hc := proj1 (forallb_forall _ _) catalogue_weights_checked w Hw).
  unfold mix_check_all in Hc.
  assert (Hc1 := proj1 (forallb_forall _ _) Hc n1 (level_in_all n1 H1)).
  cbv beta in Hc1.
  assert (Hc2 := proj1 (forallb_forall _ _) Hc1 n2 (level_in_all n2 H2)).
  unfold mix_check in Hc2. cbv zeta in Hc2.
  apply andb_prop in Hc2 as [Hrange Hround].
  destruct (Py.round _) as [l|e]; [|discriminate].
  apply andb_prop in Hround as [Hround Hnear].
  apply andb_prop in Hround as [Hlo Hhi].
  exists l. split; [now apply negb_true_iff|]. split; [reflexivity|].
  unfold nearest_level, level. lia.
Qed.

(** For the weights the catalogue uses, blending two stored values always
    succeeds, and each channel of the result is the level nearest to the exact
    weighted mean of the two source levels. *)
Lemma blend_two_levels w s1 s2 c1 c2 r1 g1 b1 a1 r2 g2 b2 a2 :
  In w catalogue_weights ->
  level r1 -> level g1 -> level b1 -> level a1 ->
  level r2 -> level g2 -> level b2 -> level a2 ->
  get (source s1) (ground s1) = Ok c1 ->
  to_rgba (CStr c1) = Ok [channel r1; channel g1; channel b1; channel a1] ->
  percent s1 = Some (Py.float_of_Z w) ->
  get (source s2) (ground s2) = Ok c2 ->
  to_rgba (CStr c2) = Ok [channel r2; channel g2; channel b2; channel a2] ->
  percent s2 = Some (Py.float_of_Z (100 - w)) ->
  exists r g b,
    _blend [s1; s2] = Ok (hex_rgba r g b a1)
    /\ nearest_level w r1 r2 r
    /\ nearest_level w g1 g2 g
    /\ nearest_level w b1 b2 b.
Proof.
  intros Hw Hr1 Hg1 Hb1 Ha1 Hr2 Hg2 Hb2 Ha2 G1 E1 W1 G2 E2 W2.
  destruct (mix_checked w r1 r2 Hw Hr1 Hr2) as (r & Rr & Er & Nr).
  destruct (mix_checked w g1 g2 Hw Hg1 Hg2) as (g & Rg & Eg & Ng).
  destruct (mix_checked w b1 b2 Hw Hb1 Hb2) as (b & Rb & Eb & Nb).
  exists r, g, b. split; [|auto].
  rewrite (blend_weighted_sum s1
             ([channel r1; channel g1; channel b1; channel a1], Py.float_of_Z w)
             [s2]
             [([channel r2; channel g2; channel b2; channel a2],
               Py.float_of_Z (100 - w))]).
  - change (to_hex
              (CSeq [mix r1 r2 (Py.float_of_Z w) (Py.float_of_Z (100 - w));
                     mix g1 g2 (Py.float_of_Z w) (Py.float_of_Z (100 - w));
                     mix b1 b2 (Py.float_of_Z w) (Py.float_of_Z (100 - w));
                     channel a1]) true = Ok (hex_rgba r g b a1)).
    unfold to_hex, to_rgba.
    cbn [List.length Nat.eqb orb negb existsb].
    rewrite Rr, Rg, Rb, (channel_in_range a1 Ha1).
    cbn [orb bind map_result].
    rewrite Er, Eg, Eb, (round_channel a1 Ha1). reflexivity.
  - exists c1. auto.
  - constructor; [exists c2; auto|constructor].
  - discriminate.
Qed.

(** C3 (amended).  Black [#000000] and white [#FFFFFF], created as raw
    colours and blended 50/50 into the foreground of a new node by [inherit]:
    the call returns the node, and its foreground is [#808080ff], since the sum
    0.5 is 127.5 levels and [round] takes ties to the even level 128; the alpha
    [ff] is that of black, the first component. *)
Theorem inherit_black_white_foreground (md5_hexdigest : string -> string) :
  let raw_black :=
    fst (set_color (CStr "#000000") (RawColor_init md5_hexdigest "black")) in
  let raw_white :=
    fst (set_color (CStr "#FFFFFF") (RawColor_init md5_hexdigest "white")) in
  let call :=
    inherit "fg"
      [mkSpec (Raw raw_black) "color" (Some 50%float);
       mkSpec (Raw raw_white) "color" (Some 50%float)]
      (BeamerColor_init md5_hexdigest "x") in
  snd call = Ok (fst call)
  /\ get (Raw raw_black) "color" = Ok "#000000ff"
  /\ get (Raw raw_white) "color" = Ok "#ffffffff"
  /\ get (Beamer (fst call)) "fg" = Ok "#808080ff".
Proof. cbv zeta. repeat split; vm_compute; reflexivity. Qed.

Lemma gray_80_is_not_7f :
  to_rgba (CStr "#808080ff") <> to_rgba (CStr "#7F7F7FFF").
Proof.
  intros H.
  apply (f_equal (fun r => match r with
                           | Ok (x :: _) => Py.round (x * 255)%float
                           | _ => Raise ValueError
                           end)) in H.
  vm_compute in H. discriminate.
Qed.

(** The foreground of that node is not [#7F7F7FFF], neither as a string nor
    as a colour. *)
Lemma inherit_black_white_not_7f :
  let raw_black := raw_example "black" (CStr "#000000") in
  let raw_white := raw_example "white" (CStr "#FFFFFF") in
  let x :=
    fst (inherit "fg"
           [mkSpec (Raw raw_black) "color" (Some 50%float);
            mkSpec (Raw raw_white) "color" (Some 50%float)]
           (BeamerColor_init md5_examples "x")) in
  get (Beamer x) "fg" = Ok "#808080ff"
  /\ get (Beamer x) "fg" <> Ok "#7F7F7FFF"
  /\ to_rgba (CStr "#808080ff") <> to_rgba (CStr "#7F7F7FFF").
Proof.
  cbv zeta.
  assert (E : get (Beamer
                 (fst (inherit "fg"
                         [mkSpec (Raw (raw_example "black" (CStr "#000000")))
                            "color" (Some 50%float);
                          mkSpec (Raw (raw_example "white" (CStr "#FFFFFF")))
                            "color" (Some 50%float)]
                         (BeamerColor_init md5_examples "x")))) "fg"
              = Ok "#808080ff") by (vm_compute; reflexivity).
  split; [exact E|]. split; [rewrite E; discriminate|].
  exact gray_80_is_not_7f.
Qed.

(** *** Setters and edges *)

Lemma set_fg_levels (c : color_arg) (self : BeamerColor) r g b a :
  level r -> level g -> level b -> level a ->
  to_rgba c = Ok [channel r; channel g; channel b; channel a] ->
  _set_fg c self =
  (with_inverted_fg (hex_rgb (255 - r) (255 - g) (255 - b))
     (with_fg (hex_rgba r g b a) self),
   Ok (with_inverted_fg (hex_rgb (255 - r) (255 - g) (255 - b))
         (with_fg (hex_rgba r g b a) self))).
Proof.
  intros Hr Hg Hb Ha E.
  unfold _set_fg, and_then, lift, modify, return_self.
  rewrite (proj1 (to_hex_levels c r g b a Hr Hg Hb Ha E)).
  rewrite (invert_color_on_levels _ r g b a Hr Hg Hb Ha
             (to_rgba_hex_rgba r g b a Hr Hg Hb Ha)).
  reflexivity.
Qed.

Lemma set_bg_levels (c : color_arg) (self : BeamerColor) r g b a :
  level r -> level g -> level b -> level a ->
  to_rgba c = Ok [channel r; channel g; channel b; channel a] ->
  _set_bg c self =
  (with_inverted_bg (hex_rgb (255 - r) (255 - g) (255 - b))
     (with_bg (hex_rgba r g b a) self),
   Ok (with_inverted_bg (hex_rgb (255 - r) (255 - g) (255 - b))
         (with_bg (hex_rgba r g b a) self))).
Proof.
  intros Hr Hg Hb Ha E.
  unfold _set_bg, and_then, lift, modify, return_self.
  rewrite (proj1 (to_hex_levels c r g b a Hr Hg Hb Ha E)).
  rewrite (invert_color_on_levels _ r g b a Hr Hg Hb Ha
             (to_rgba_hex_rgba r g b a Hr Hg Hb Ha)).
  reflexivity.
Qed.

(** The setters never touch the edges, whether they return or raise. *)
Lemma set_fg_node (c : color_arg) (self : BeamerColor) :
  node (fst (_set_fg c self)) = node self.
Proof.
  unfold _set_fg, and_then, lift, modify, return_self.
  destruct (to_hex c true) as [h|e]; [|reflexivity].
  destruct (invert_color (CStr h)); reflexivity.
Qed.

Lemma set_bg_node (c : color_arg) (self : BeamerColor) :
  node (fst (_set_bg c self)) = node self.
Proof.
  unfold _set_bg, and_then, lift, modify, return_self.
  destruct (to_hex c true) as [h|e]; [|reflexivity].
  destruct (invert_color (CStr h)); reflexivity.
Qed.

Lemma parents_append_run key x (self : BeamerColor) l :
  parents (node self) !! key = Some l ->
  parents_append key x self = (with_edges key (l ++ [x]) self, Ok tt).
Proof. intros H. unfold parents_append. rewrite H. reflexivity. Qed.

Lemma with_edges_same key l (self : BeamerColor) :
  parents (node self) !! key = Some l -> with_edges key l self = self.
Proof.
  intros H. destruct self as [[n i p] f invf b invb].
  unfold with_edges, with_node, with_parents. cbn in *.
  now rewrite insert_id.
Qed.

Lemma with_edges_twice key l1 l2 (self : BeamerColor) :
  with_edges key l2 (with_edges key l1 self) = with_edges key l2 self.
Proof.
  unfold with_edges, with_node, with_parents. cbn.
  now rewrite insert_insert_eq.
Qed.

(** The loop of [inherit] appends one edge per argument, in order. *)
Lemma record_edges key (color_specs : list color_spec) :
  forall (self : BeamerColor) l,
    parents (node self) !! key = Some l ->
    for_each (fun color_spec => parents_append key (port_from color_spec))
      color_specs self
    = (with_edges key (l ++ map port_from color_specs) self, Ok tt).
Proof.
  induction color_specs as [|spec specs IH]; intros self l H.
  - cbn [for_each map]. rewrite app_nil_r, with_edges_same by assumption.
    reflexivity.
  - cbn [for_each map]. unfold and_then at 1.
    rewrite (parents_append_run _ _ _ _ H).
    rewrite (IH _ (l ++ [port_from spec])%list).
    + rewrite with_edges_twice, <- app_assoc. reflexivity.
    + unfold with_edges, with_node, with_parents. cbn.
      apply lookup_insert_eq.
Qed.

(** After [inherit], whose blend succeeded, the edge map differs only at the
    destination key, which has one more entry per argument; this holds even
    when the setter that follows raises. *)
Lemma inherit_parents ground_to color_specs (self : BeamerColor) l c :
  parents (node self) !! ground_to = Some l ->
  _blend color_specs = Ok c ->
  parents (node (fst (inherit ground_to color_specs self))) =
  <[ground_to := (l ++ map port_from color_specs)%list]> (parents (node self)).
Proof.
  intros Hl Hb. unfold inherit. unfold and_then at 1. unfold lift at 1.
  rewrite Hb. unfold and_then at 1. rewrite (record_edges _ _ _ _ Hl).
  set (self1 := with_edges ground_to (l ++ map port_from color_specs) self).
  change (<[ground_to := (l ++ map port_from color_specs)%list]> (parents (node self)))
    with (parents (node self1)).
  destruct (String.eqb ground_to "fg"); [|destruct (String.eqb ground_to "bg")].
  - pose proof (set_fg_node (CStr c) self1) as Hn.
    unfold and_then, ret, return_self.
    destruct (_set_fg (CStr c) self1) as [s' [v|e]]; cbn in *; now rewrite Hn.
  - pose proof (set_bg_node (CStr c) self1) as Hn.
    unfold and_then, ret, return_self.
    destruct (_set_bg (CStr c) self1) as [s' [v|e]]; cbn in *; now rewrite Hn.
  - reflexivity.
Qed.

(** After [set_parent] the edge map differs only at ["both"], which has one
    more entry, the identifier of the parent; this holds even when the call
    raises afterwards. *)
Lemma set_parent_parents (parent : Color) (self : BeamerColor) l :
  parents (node self) !! "both" = Some l ->
  parents (node (fst (set_parent parent self))) =
  <["both" := (l ++ [Color_id parent])%list]> (parents (node self)).
Proof.
  intros Hl. unfold set_parent. unfold and_then at 1.
  rewrite (parents_append_run _ _ _ _ Hl).
  set (self1 := with_edges "both" (l ++ [Color_id parent]) self).
  change (<["both" := (l ++ [Color_id parent])%list]> (parents (node self)))
    with (parents (node self1)).
  destruct parent as [r|p]; [reflexivity|].
  unfold and_then at 1. unfold lift at 1. cbn [attr_fg].
  pose proof (set_fg_node (CStr (fg p)) self1) as Hf.
  unfold and_then at 1.
  destruct (_set_fg (CStr (fg p)) self1) as [self2 [v|e]]; cbn [fst] in Hf;
    [|cbn [fst]; now rewrite Hf].
  unfold and_then at 1. unfold lift at 1. cbn [attr_bg].
  pose proof (set_bg_node (CStr (bg p)) self2) as Hg.
  unfold and_then, return_self.
  destruct (_set_bg (CStr (bg p)) self2) as [self3 [v'|e]]; cbn [fst] in *;
    now rewrite Hg, Hf.
Qed.

(** C8.  A call to [inherit] with N arguments for a destination channel,
    once its blend is computed, records exactly N edges for that channel and
    none for another; a call to [set_parent] records exactly one edge, under
    ["both"]. *)
Theorem edges_recorded (self : BeamerColor) (ground_to : string)
    (color_specs : list color_spec) (parent : Color) l lb c :
  parents (node self) !! ground_to = Some l ->
  _blend color_specs = Ok c ->
  parents (node self) !! "both" = Some lb ->
  let after_inherit := fst (inherit ground_to color_specs self) in
  let after_set_parent := fst (set_parent parent self) in
  (parents (node after_inherit) !! ground_to
     = Some (l ++ map port_from color_specs)%list
   /\ List.length (l ++ map port_from color_specs)
        = (List.length l + List.length color_specs)%nat
   /\ forall k, k <> ground_to ->
        parents (node after_inherit) !! k = parents (node self) !! k)
  /\ (parents (node after_set_parent) !! "both" = Some (lb ++ [Color_id parent])%list
      /\ List.length (lb ++ [Color_id parent]) = S (List.length lb)
      /\ forall k, k <> "both" ->
           parents (node after_set_parent) !! k = parents (node self) !! k).
Proof.
  intros Hl Hb Hlb. cbv zeta.
  rewrite (inherit_parents _ _ _ _ _ Hl Hb), (set_parent_parents _ _ _ Hlb).
  split; split.
  - apply lookup_insert_eq.
  - split.
    + now rewrite length_app, length_map.
    + intros k Hk. now apply lookup_insert_ne.
  - apply lookup_insert_eq.
  - split.
    + rewrite length_app. cbn. lia.
    + intros k Hk. now apply lookup_insert_ne.
Qed.

(** C10.  [inherit] with destination ["both"], once its blend is computed,
    raises nothing and returns the node: one edge per argument is recorded
    under ["both"], the foreground, the background and their inverses are
    unchanged, and the blended value is dropped. *)
Theorem inherit_both_keeps_channels (self : BeamerColor)
    (color_specs : list color_spec) l c :
  parents (node self) !! "both" = Some l ->
  _blend color_specs = Ok c ->
  let self' := with_edges "both" (l ++ map port_from color_specs) self in
  inherit "both" color_specs self = (self', Ok self')
  /\ parents (node self') !! "both" = Some (l ++ map port_from color_specs)%list
  /\ List.length (l ++ map port_from color_specs)
       = (List.length l + List.length color_specs)%nat
  /\ (fg self' = fg self /\ inverted_fg self' = inverted_fg self)
  /\ (bg self' = bg self /\ inverted_bg self' = inverted_bg self)
  /\ (parents (node self') !! "fg" = parents (node self) !! "fg"
      /\ parents (node self') !! "bg" = parents (node self) !! "bg").
Proof.
  intros Hl Hb. cbv zeta. split; [|split; [|split]].
  - unfold inherit. unfold and_then at 1. unfold lift at 1. rewrite Hb.
    unfold and_then at 1. rewrite (record_edges _ _ _ _ Hl). reflexivity.
  - unfold with_edges, with_node, with_parents. cbn. apply lookup_insert_eq.
  - now rewrite length_app, length_map.
  - repeat split; unfold with_edges, with_node, with_parents; cbn;
      now apply lookup_insert_ne.
Qed.

(** *** Full inheritance *)

(** C5 (amended).  For a derived child and a derived parent whose foreground
    and background are colours on the 256 levels, [set_parent] returns the
    child; the child's foreground and background are the parent's values as
    [to_hex] prints them (lower case, eight digits), hence the same colours,
    and the same strings when the parent's values are in that form, as after
    any setter.  The child's inverses are computed from its own channels by
    [invert_color]; they are the parent's inverses whenever those were
    computed that way too. *)
Theorem set_parent_copies_channels (child parent : BeamerColor) l
    rf gf bf af rb gb bb ab :
  parents (node child) !! "both" = Some l ->
  level rf -> level gf -> level bf -> level af ->
  level rb -> level gb -> level bb -> level ab ->
  to_rgba (CStr (fg parent)) = Ok [channel rf; channel gf; channel bf; channel af] ->
  to_rgba (CStr (bg parent)) = Ok [channel rb; channel gb; channel bb; channel ab] ->
  let child' := fst (set_parent (Beamer parent) child) in
  snd (set_parent (Beamer parent) child) = Ok child'
  /\ (fg child' = hex_rgba rf gf bf af /\ bg child' = hex_rgba rb gb bb ab)
  /\ (to_rgba (CStr (fg child')) = to_rgba (CStr (fg parent))
      /\ to_rgba (CStr (bg child')) = to_rgba (CStr (bg parent)))
  /\ (invert_color (CStr (fg child')) = Ok (inverted_fg child')
      /\ invert_color (CStr (bg child')) = Ok (inverted_bg child'))
  /\ (fg parent = hex_rgba rf gf bf af ->
      get (Beamer child') "fg" = get (Beamer parent) "fg")
  /\ (bg parent = hex_rgba rb gb bb ab ->
      get (Beamer child') "bg" = get (Beamer parent) "bg")
  /\ (invert_color (CStr (fg parent)) = Ok (inverted_fg parent) ->
      inverted_fg child' = inverted_fg parent)
  /\ (invert_color (CStr (bg parent)) = Ok (inverted_bg parent) ->
      inverted_bg child' = inverted_bg parent).
Proof.
  intros Hl Hrf Hgf Hbf Haf Hrb Hgb Hbb Hab Ef Eb.
  assert (Hrun : set_parent (Beamer parent) child =
            let c' :=
              with_inverted_bg (hex_rgb (255 - rb) (255 - gb) (255 - bb))
                (with_bg (hex_rgba rb gb bb ab)
                   (with_inverted_fg (hex_rgb (255 - rf) (255 - gf) (255 - bf))
                      (with_fg (hex_rgba rf gf bf af)
                         (with_edges "both" (l ++ [id (node parent)]) child)))) in
            (c', Ok c')).
  { unfold set_parent. unfold and_then at 1.
    rewrite (parents_append_run _ _ _ _ Hl).
    unfold and_then at 1. unfold lift at 1. cbn [attr_fg Color_id].
    unfold and_then at 1.
    rewrite (set_fg_levels _ _ rf gf bf af) by assumption.
    unfold and_then at 1. unfold lift at 1. cbn [attr_bg].
    unfold and_then at 1.
    rewrite (set_bg_levels _ _ rb gb bb ab) by assumption.
    reflexivity. }
  cbv zeta in Hrun. cbv zeta. rewrite Hrun.
  cbn [fst snd fg bg inverted_fg inverted_bg with_inverted_bg with_bg
       with_inverted_fg with_fg with_edges with_node get BeamerColor_get].
  change (String.eqb "fg" "fg") with true.
  change (String.eqb "bg" "fg") with false.
  change (String.eqb "bg" "bg") with true.
  cbv iota.
  assert (If := invert_color_on_levels (CStr (fg parent)) rf gf bf af
                  Hrf Hgf Hbf Haf Ef).
  assert (Ib := invert_color_on_levels (CStr (bg parent)) rb gb bb ab
                  Hrb Hgb Hbb Hab Eb).
  repeat split.
  - rewrite Ef. now apply to_rgba_hex_rgba.
  - rewrite Eb. now apply to_rgba_hex_rgba.
  - apply (invert_color_on_levels _ rf gf bf af); auto using to_rgba_hex_rgba.
  - apply (invert_color_on_levels _ rb gb bb ab); auto using to_rgba_hex_rgba.
  - intros H. unfold BeamerColor_get. cbn. now rewrite H.
  - intros H. unfold BeamerColor_get. cbn. now rewrite H.
  - intros H. congruence.
  - intros H. congruence.
Qed.

(** A child of a node whose channels were set by [inherit], as "normal text"
    in the catalogue: all four values of the child equal the parent's. *)
Lemma set_parent_of_set_node :
  let black := raw_example "black" (CStr "#000000") in
  let white := raw_example "white" (CStr "#FFFFFF") in
  let parent :=
    fst (inherit "bg" [mkSpec (Raw white) "color" None]
           (fst (inherit "fg" [mkSpec (Raw black) "color" None]
                   (BeamerColor_init md5_examples "parent")))) in
  let child := BeamerColor_init md5_examples "child" in
  let child' := fst (set_parent (Beamer parent) child) in
  snd (set_parent (Beamer parent) child) = Ok child'
  /\ (fg child' = "#000000ff" /\ bg child' = "#ffffffff")
  /\ (get (Beamer child') "fg" = get (Beamer parent) "fg"
      /\ get (Beamer child') "bg" = get (Beamer parent) "bg")
  /\ (inverted_fg child' = inverted_fg parent
      /\ inverted_bg child' = inverted_bg parent).
Proof.
  cbv zeta.
  destruct (set_parent_copies_channels
              (BeamerColor_init md5_examples "child")
              (fst (inherit "bg"
                      [mkSpec (Raw (raw_example "white" (CStr "#FFFFFF")))
                         "color" None]
                      (fst (inherit "fg"
                              [mkSpec (Raw (raw_example "black" (CStr "#000000")))
                                 "color" None]
                              (BeamerColor_init md5_examples "parent")))))
              [] 0 0 0 255 255 255 255 255
              ltac:(vm_compute; reflexivity)
              ltac:(unfold level; lia) ltac:(unfold level; lia)
              ltac:(unfold level; lia) ltac:(unfold level; lia)
              ltac:(unfold level; lia) ltac:(unfold level; lia)
              ltac:(unfold level; lia) ltac:(unfold level; lia)
              ltac:(vm_compute; reflexivity) ltac:(vm_compute; reflexivity))
    as (Hret & Hval & _ & _ & Hfg & Hbg & Hifg & Hibg).
  split; [exact Hret|]. split; [exact Hval|]. split; split.
  - apply Hfg. vm_compute; reflexivity.
  - apply Hbg. vm_compute; reflexivity.
  - apply Hifg. vm_compute; reflexivity.
  - apply Hibg. vm_compute; reflexivity.
Defined.

Lemma white_is_not_black :
  to_rgba (CStr "#ffffff") <> to_rgba (CStr "#000000FF").
Proof.
  intros H.
  apply (f_equal (fun r => match r with
                           | Ok (x :: _) => Py.round (x * 255)%float
                           | _ => Raise ValueError
                           end)) in H.
  vm_compute in H. discriminate.
Qed.

(** With a new node as parent, [get] on the foreground does not return the
    same string for child and parent, and the child's inverted background is
    white where the parent's is black. *)
Lemma set_parent_new_parent_differs :
  let parent := BeamerColor_init md5_examples "parent" in
  let child :=
    fst (set_parent (Beamer parent) (BeamerColor_init md5_examples "child")) in
  (get (Beamer child) "fg" = Ok "#ffffff00"
   /\ get (Beamer parent) "fg" = Ok "#FFFFFF00"
   /\ get (Beamer child) "fg" <> get (Beamer parent) "fg")
  /\ (inverted_bg child = "#ffffff"
      /\ inverted_bg parent = "#000000FF"
      /\ to_rgba (CStr (inverted_bg child)) <> to_rgba (CStr (inverted_bg parent))).
Proof.
  cbv zeta.
  set (child := fst (set_parent (Beamer (BeamerColor_init md5_examples "parent"))
                       (BeamerColor_init md5_examples "child"))).
  assert (Efg : get (Beamer child) "fg" = Ok "#ffffff00") by (vm_compute; reflexivity).
  assert (Ebg : inverted_bg child = "#ffffff") by (vm_compute; reflexivity).
  split.
  - split; [exact Efg|]. split; [reflexivity|].
    rewrite Efg. cbn. discriminate.
  - split; [exact Ebg|]. split; [reflexivity|].
    rewrite Ebg. cbn [inverted_bg BeamerColor_init]. exact white_is_not_black.
Qed.

(** A raw colour has no foreground: as a parent it makes [set_parent] raise,
    after the edge was recorded. *)
Example set_parent_raw_parent_raises :
  let black := raw_example "black" (CStr "#000000") in
  let call := set_parent (Raw black) (BeamerColor_init md5_examples "child") in
  snd call = Raise AttributeError
  /\ parents (node (fst call)) !! "both" = Some ["1ffd9e753c8054cc61456ac7fac1ac89"].
Proof. cbv zeta. split; vm_compute; reflexivity. Qed.

(** *** Instances on concrete nodes *)

Lemma get_channels_example :
  (get (Raw (RawColor_init md5_examples "white")) "fg" = Ok "#FFFFFFFF"
   /\ get (Raw (RawColor_init md5_examples "white")) "fg"
      = get (Raw (RawColor_init md5_examples "white")) "anything")
  /\ get (Beamer (BeamerColor_init md5_examples "x")) "fg" = Ok "#FFFFFF00"
  /\ get (Beamer (BeamerColor_init md5_examples "x")) "bg" = Ok "#00000000"
  /\ get (Beamer (BeamerColor_init md5_examples "x")) "color" = Raise RuntimeError.
Proof.
  destruct (get_channels (RawColor_init md5_examples "white")
              (BeamerColor_init md5_examples "x") "fg" "anything" "color")
    as (Hraw & Hfg & Hbg & Hother).
  split; [exact Hraw|]. split; [exact Hfg|]. split; [exact Hbg|].
  apply Hother; discriminate.
Defined.

Lemma edges_recorded_example :
  let self := BeamerColor_init md5_examples "x" in
  let color_specs :=
    [mkSpec (Raw (raw_example "black" (CStr "#000000"))) "color" (Some 50%float);
     mkSpec (Raw (raw_example "white" (CStr "#FFFFFF"))) "color" (Some 50%float)] in
  let parent := Beamer (BeamerColor_init md5_examples "parent") in
  let after_inherit := fst (inherit "fg" color_specs self) in
  let after_set_parent := fst (set_parent parent self) in
  (parents (node after_inherit) !! "fg" = Some ([] ++ map port_from color_specs)%list
   /\ List.length ([] ++ map port_from color_specs) = (0 + 2)%nat
   /\ forall k, k <> "fg" ->
        parents (node after_inherit) !! k = parents (node self) !! k)
  /\ (parents (node after_set_parent) !! "both" = Some ([] ++ [Color_id parent])%list
      /\ List.length ([] ++ [Color_id parent]) = 1%nat
      /\ forall k, k <> "both" ->
           parents (node after_set_parent) !! k = parents (node self) !! k).
Proof.
  cbv zeta.
  refine (edges_recorded (BeamerColor_init md5_examples "x") "fg"
            [mkSpec (Raw (raw_example "black" (CStr "#000000"))) "color"
               (Some 50%float);
             mkSpec (Raw (raw_example "white" (CStr "#FFFFFF"))) "color"
               (Some 50%float)]
            (Beamer (BeamerColor_init md5_examples "parent")) [] []
            "#808080ff" _ _ _);
    vm_compute; reflexivity.
Defined.

Lemma inherit_both_example :
  let self := BeamerColor_init md5_examples "x" in
  let color_specs :=
    [mkSpec (Raw (raw_example "black" (CStr "#000000"))) "color" (Some 50%float);
     mkSpec (Raw (raw_example "white" (CStr "#FFFFFF"))) "color" (Some 50%float)] in
  let self' := with_edges "both" ([] ++ map port_from color_specs) self in
  inherit "both" color_specs self = (self', Ok self')
  /\ parents (node self') !! "both" = Some ([] ++ map port_from color_specs)%list
  /\ List.length ([] ++ map port_from color_specs) = (0 + 2)%nat
  /\ (fg self' = fg self /\ inverted_fg self' = inverted_fg self)
  /\ (bg self' = bg self /\ inverted_bg self' = inverted_bg self)
  /\ (parents (node self') !! "fg" = parents (node self) !! "fg"
      /\ parents (node self') !! "bg" = parents (node self) !! "bg").
Proof.
  cbv zeta.
  refine (inherit_both_keeps_channels (BeamerColor_init md5_examples "x")
            [mkSpec (Raw (raw_example "black" (CStr "#000000"))) "color"
               (Some 50%float);
             mkSpec (Raw (raw_example "white" (CStr "#FFFFFF"))) "color"
               (Some 50%float)]
            [] "#808080ff" _ _);
    vm_compute; reflexivity.
Defined.

(** A destination that is not a key of the edge map does raise: [KeyError],
    at the first edge, with the node unchanged. *)
Example inherit_unknown_key_raises :
  let self := BeamerColor_init md5_examples "x" in
  inherit "foreground"
    [mkSpec (Raw (raw_example "black" (CStr "#000000"))) "color" None] self
  = (self, Raise KeyError).
Proof. cbv zeta. vm_compute. reflexivity. Qed.

(** *** The keys of the edge map *)

Lemma parents_append_dom key x (self : BeamerColor) :
  dom (parents (node (fst (parents_append key x self)))) = dom (parents (node self)).
Proof.
  unfold parents_append.
  destruct (parents (node self) !! key) as [l|] eqn:E; [|reflexivity].
  cbn. apply dom_insert_lookup_L. eauto.
Qed.

Lemma for_each_dom key (color_specs : list color_spec) :
  forall self : BeamerColor,
    dom (parents (node (fst (for_each
           (fun color_spec => parents_append key (port_from color_spec))
           color_specs self))))
    = dom (parents (node self)).
Proof.
  induction color_specs as [|spec specs IH]; intros self; [reflexivity|].
  cbn [for_each]. unfold and_then.
  pose proof (parents_append_dom key (port_from spec) self) as H.
  destruct (parents_append key (port_from spec) self) as [s1 [u|e]];
    cbn [fst] in *.
  - now rewrite IH.
  - exact H.
Qed.

Lemma inherit_dom ground_to color_specs (self : BeamerColor) :
  dom (parents (node (fst (inherit ground_to color_specs self))))
  = dom (parents (node self)).
Proof.
  unfold inherit. unfold and_then at 1. unfold lift at 1.
  destruct (_blend color_specs) as [c|e]; [|reflexivity].
  unfold and_then at 1.
  pose proof (for_each_dom ground_to color_specs self) as H.
  destruct (for_each _ color_specs self) as [s1 [u|e]]; cbn [fst] in H;
    [|exact H].
  rewrite <- H.
  destruct (String.eqb ground_to "fg"); [|destruct (String.eqb ground_to "bg")].
  - pose proof (set_fg_node (CStr c) s1) as Hn.
    unfold and_then, ret, return_self.
    destruct (_set_fg (CStr c) s1) as [s' [v|e]]; cbn in *; now rewrite Hn.
  - pose proof (set_bg_node (CStr c) s1) as Hn.
    unfold and_then, ret, return_self.
    destruct (_set_bg (CStr c) s1) as [s' [v|e]]; cbn in *; now rewrite Hn.
  - reflexivity.
Qed.

Lemma set_parent_dom (parent : Color) (self : BeamerColor) :
  dom (parents (node (fst (set_parent parent self)))) = dom (parents (node self)).
Proof.
  unfold set_parent. unfold and_then at 1.
  pose proof (parents_append_dom "both" (Color_id parent) self) as H.
  destruct (parents_append "both" (Color_id parent) self) as [s1 [u|e]];
    cbn [fst] in H; [|exact H].
  rewrite <- H.
  destruct parent as [r|p]; [reflexivity|].
  unfold and_then at 1. unfold lift at 1. cbn [attr_fg].
  pose proof (set_fg_node (CStr (fg p)) s1) as Hf.
  unfold and_then at 1.
  destruct (_set_fg (CStr (fg p)) s1) as [s2 [v|e]]; cbn [fst] in Hf;
    [|cbn [fst]; now rewrite Hf].
  unfold and_then at 1. unfold lift at 1. cbn [attr_bg].
  pose proof (set_bg_node (CStr (bg p)) s2) as Hg.
  unfold and_then, return_self.
  destruct (_set_bg (CStr (bg p)) s2) as [s3 [v'|e]]; cbn [fst] in *;
    now rewrite Hg, Hf.
Qed.

(** Every node a program can build has an edge list under each of the three
    keys ["both"], ["fg"] and ["bg"], and under no other. *)
Lemma built_keys md5_hexdigest (self : BeamerColor) :
  built md5_hexdigest self ->
  forall k, is_Some (parents (node self) !! k) <-> k = "both" \/ k = "fg" \/ k = "bg".
Proof.
  intros Hb k. rewrite <- elem_of_dom.
  assert (Hdom : dom (parents (node self)) = ({["both"; "fg"; "bg"]} : gset string)).
  { induction Hb as [name|self g specs _ IH|self parent _ IH].
    - cbn. rewrite !dom_insert_L, dom_empty_L. set_solver.
    - now rewrite inherit_dom.
    - now rewrite set_parent_dom. }
  rewrite Hdom, !elem_of_union, !elem_of_singleton. tauto.
Qed.

(** The accuracy lemma at black and white, half and half. *)
Example blend_two_levels_example :
  exists r g b,
    _blend [mkSpec (Raw (raw_example "black" (CStr "#000000"))) "color"
              (Some (Py.float_of_Z 50));
            mkSpec (Raw (raw_example "white" (CStr "#FFFFFF"))) "color"
              (Some (Py.float_of_Z (100 - 50)))]
    = Ok (hex_rgba r g b 255)
    /\ nearest_level 50 0 255 r
    /\ nearest_level 50 0 255 g
    /\ nearest_level 50 0 255 b.
Proof.
  apply (blend_two_levels 50 _ _ "#000000ff" "#ffffffff" 0 0 0 255 255 255 255 255);
    first [ unfold level; lia
          | vm_compute; reflexivity
          | cbn; tauto ].
Qed.

(** ** Further properties of the classes *)

(** *** Strings the classes can hold *)

Lemma to_hex_string_fails (s : string) (keep_alpha : bool) :
  to_rgba (CStr s) = Raise ValueError -> to_hex (CStr s) keep_alpha = Raise ValueError.
Proof. intros H. unfold to_hex. now rewrite H. Qed.

Lemma valid_hex_rgba r g b a :
  level r -> level g -> level b -> level a -> valid_colour (hex_rgba r g b a).
Proof.
  intros Hr Hg Hb Ha. exists r, g, b, a.
  repeat split; try assumption; try apply Hr; try apply Hg; try apply Hb;
    try apply Ha.
  now apply to_rgba_hex_rgba.
Qed.

Lemma valid_hex_rgb r g b :
  level r -> level g -> level b -> valid_colour (hex_rgb r g b).
Proof.
  intros Hr Hg Hb. exists r, g, b, 255.
  assert (level 255) by (unfold level; lia).
  repeat split; try assumption; try apply Hr; try apply Hg; try apply Hb;
    try lia.
  rewrite to_rgba_hex_rgb by assumption. now rewrite channel_one.
Qed.

(** *** The setters *)

Lemma set_fg_string_cases (s : string) (self : BeamerColor) :
  (to_rgba (CStr s) = Raise ValueError
   /\ _set_fg (CStr s) self = (self, Raise ValueError))
  \/ (exists r g b a,
        (level r /\ level g /\ level b /\ level a)
        /\ to_rgba (CStr s) = Ok [channel r; channel g; channel b; channel a]
        /\ _set_fg (CStr s) self =
           (with_inverted_fg (hex_rgb (255 - r) (255 - g) (255 - b))
              (with_fg (hex_rgba r g b a) self),
            Ok (with_inverted_fg (hex_rgb (255 - r) (255 - g) (255 - b))
                  (with_fg (hex_rgba r g b a) self)))).
Proof.
  destruct (to_rgba_string_cases s) as [H|(r & g & b & a & Hr & Hg & Hb & Ha & H)].
  - left. split; [exact H|].
    unfold _set_fg, and_then, lift. now rewrite (to_hex_string_fails s true H).
  - right. exists r, g, b, a. split; [auto|]. split; [exact H|].
    now apply set_fg_levels.
Qed.

Lemma set_bg_string_cases (s : string) (self : BeamerColor) :
  (to_rgba (CStr s) = Raise ValueError
   /\ _set_bg (CStr s) self = (self, Raise ValueError))
  \/ (exists r g b a,
        (level r /\ level g /\ level b /\ level a)
        /\ to_rgba (CStr s) = Ok [channel r; channel g; channel b; channel a]
        /\ _set_bg (CStr s) self =
           (with_inverted_bg (hex_rgb (255 - r) (255 - g) (255 - b))
              (with_bg (hex_rgba r g b a) self),
            Ok (with_inverted_bg (hex_rgb (255 - r) (255 - g) (255 - b))
                  (with_bg (hex_rgba r g b a) self)))).
Proof.
  destruct (to_rgba_string_cases s) as [H|(r & g & b & a & Hr & Hg & Hb & Ha & H)].
  - left. split; [exact H|].
    unfold _set_bg, and_then, lift. now rewrite (to_hex_string_fails s true H).
  - right. exists r, g, b, a. split; [auto|]. split; [exact H|].
    now apply set_bg_levels.
Qed.

(** Different levels are different doubles. *)
Lemma channel_inj (n m : Z) : level n -> level m -> channel n = channel m -> n = m.
Proof.
  intros Hn Hm E.
  pose proof (round_channel n Hn) as Rn. rewrite E, (round_channel m Hm) in Rn.
  congruence.
Qed.

(** A stored eight-digit value determines its four levels. *)
Lemma hex_rgba_inj r g b a r' g' b' a' :
  level r -> level g -> level b -> level a ->
  level r' -> level g' -> level b' -> level a' ->
  hex_rgba r g b a = hex_rgba r' g' b' a' ->
  r = r' /\ g = g' /\ b = b' /\ a = a'.
Proof.
  intros Hr Hg Hb Ha Hr' Hg' Hb' Ha' E.
  pose proof (to_rgba_hex_rgba r g b a Hr Hg Hb Ha) as R.
  rewrite E, (to_rgba_hex_rgba r' g' b' a' Hr' Hg' Hb' Ha') in R.
  injection R as E0 E1 E2 E3.
  repeat split; apply channel_inj; auto.
Qed.

(** What [to_hex] prints with [keep_alpha] is always the lower-case
    [#rrggbbaa] form of four levels. *)
Lemma to_hex_ok_levels (c : color_arg) (h : string) :
  to_hex c true = Ok h ->
  exists r g b a,
    (level r /\ level g /\ level b /\ level a) /\ h = hex_rgba r g b a.
Proof.
  unfold to_hex. destruct (to_rgba c) as [rgba|e] eqn:E; [|discriminate].
  destruct (to_rgba_shape c rgba E) as (c0 & c1 & c2 & c3 & ->).
  destruct (to_rgba_in_range _ _ _ _ _ E) as (R0 & R1 & R2 & R3).
  cbn [bind map_result].
  destruct (Py.round (c0 * 255)%float) as [r|e] eqn:E0; [|discriminate].
  destruct (Py.round (c1 * 255)%float) as [g|e] eqn:E1; [|discriminate].
  destruct (Py.round (c2 * 255)%float) as [b|e] eqn:E2; [|discriminate].
  destruct (Py.round (c3 * 255)%float) as [a|e] eqn:E3; [|discriminate].
  cbn [bind]. intros [= <-].
  exists r, g, b, a. split; [|reflexivity].
  split; [exact (round_mul255 _ _ R0 E0)|].
  split; [exact (round_mul255 _ _ R1 E1)|].
  split; [exact (round_mul255 _ _ R2 E2)|exact (round_mul255 _ _ R3 E3)].
Qed.

Lemma set_fg_raises (c : color_arg) (self : BeamerColor) (e : exn) :
  to_hex c true = Raise e -> _set_fg c self = (self, Raise e).
Proof. intros H. unfold _set_fg, and_then, lift. now rewrite H. Qed.

Lemma set_bg_raises (c : color_arg) (self : BeamerColor) (e : exn) :
  to_hex c true = Raise e -> _set_bg c self = (self, Raise e).
Proof. intros H. unfold _set_bg, and_then, lift. now rewrite H. Qed.

Lemma set_fg_stores (c : color_arg) (self : BeamerColor) r g b a :
  level r -> level g -> level b -> level a ->
  to_hex c true = Ok (hex_rgba r g b a) ->
  _set_fg c self =
  (with_inverted_fg (hex_rgb (255 - r) (255 - g) (255 - b))
     (with_fg (hex_rgba r g b a) self),
   Ok (with_inverted_fg (hex_rgb (255 - r) (255 - g) (255 - b))
         (with_fg (hex_rgba r g b a) self))).
Proof.
  intros Hr Hg Hb Ha E.
  unfold _set_fg, and_then, lift, modify, return_self.
  rewrite E.
  rewrite (invert_color_on_levels _ r g b a Hr Hg Hb Ha
             (to_rgba_hex_rgba r g b a Hr Hg Hb Ha)).
  reflexivity.
Qed.

Lemma set_bg_stores (c : color_arg) (self : BeamerColor) r g b a :
  level r -> level g -> level b -> level a ->
  to_hex c true = Ok (hex_rgba r g b a) ->
  _set_bg c self =
  (with_inverted_bg (hex_rgb (255 - r) (255 - g) (255 - b))
     (with_bg (hex_rgba r g b a) self),
   Ok (with_inverted_bg (hex_rgb (255 - r) (255 - g) (255 - b))
         (with_bg (hex_rgba r g b a) self))).
Proof.
  intros Hr Hg Hb Ha E.
  unfold _set_bg, and_then, lift, modify, return_self.
  rewrite E.
  rewrite (invert_color_on_levels _ r g b a Hr Hg Hb Ha
             (to_rgba_hex_rgba r g b a Hr Hg Hb Ha)).
  reflexivity.
Qed.

(** A sequence of three or four numbers within [0, 1] is always printed. *)
Lemma to_hex_seq_returns (l : list float) :
  (List.length l = 3 \/ List.length l = 4)%nat ->
  existsb out_of_range l = false ->
  existsb PrimFloat.is_nan l = false ->
  exists h, to_hex (CSeq l) true = Ok h.
Proof.
  intros Hlen Hr Hn.
  assert (H : exists c0 c1 c2 c3,
             to_rgba (CSeq l) = Ok [c0; c1; c2; c3]
             /\ existsb out_of_range [c0; c1; c2; c3] = false
             /\ existsb PrimFloat.is_nan [c0; c1; c2; c3] = false).
  { destruct l as [|x0 [|x1 [|x2 [|x3 [|x4 l]]]]]; cbn [List.length] in Hlen;
      try (exfalso; lia).
    - exists x0, x1, x2, 1%float. unfold to_rgba.
      cbn [List.length Nat.eqb orb negb app].
      cbn [existsb] in *.
      apply orb_false_elim in Hr as [R0 Hr]. apply orb_false_elim in Hr as [R1 Hr].
      apply orb_false_elim in Hr as [R2 _].
      apply orb_false_elim in Hn as [N0 Hn]. apply orb_false_elim in Hn as [N1 Hn].
      apply orb_false_elim in Hn as [N2 _].
      rewrite R0, R1, R2, N0, N1, N2. repeat split.
    - exists x0, x1, x2, x3. unfold to_rgba.
      cbn [List.length Nat.eqb orb negb]. rewrite Hr. repeat split; assumption. }
  destruct H as (c0 & c1 & c2 & c3 & E & Hr' & Hn').
  cbn [existsb] in Hr', Hn'.
  apply orb_false_elim in Hr' as [R0 Hr']. apply orb_false_elim in Hr' as [R1 Hr'].
  apply orb_false_elim in Hr' as [R2 Hr']. apply orb_false_elim in Hr' as [R3 _].
  apply orb_false_elim in Hn' as [N0 Hn']. apply orb_false_elim in Hn' as [N1 Hn'].
  apply orb_false_elim in Hn' as [N2 Hn']. apply orb_false_elim in Hn' as [N3 _].
  destruct (round_mul255_total c0 R0 N0) as [r E0].
  destruct (round_mul255_total c1 R1 N1) as [g E1].
  destruct (round_mul255_total c2 R2 N2) as [b E2].
  destruct (round_mul255_total c3 R3 N3) as [a E3].
  unfold to_hex. rewrite E. cbn [bind map_result].
  rewrite E0, E1, E2, E3. cbn [bind]. eauto.
Qed.

(** X1.  Whatever colour they are given, [_set_fg] and [_set_bg] do one of
    two things.  When [to_hex] raises, they raise the same exception and
    leave the node exactly as it was.  When [to_hex] returns, what it returns
    is the lower-case [#rrggbbaa] form of four levels, and the setter returns
    the node with the channel set to it and the inverse set to the opaque
    complement [#rrggbb]; the other channel, its inverse and the edges are
    untouched.  A sequence of three or four numbers within 0 and 1 is always
    of the second kind. *)
Theorem setters_outcomes (c : color_arg) (self : BeamerColor) :
  (forall e, to_hex c true = Raise e ->
     _set_fg c self = (self, Raise e) /\ _set_bg c self = (self, Raise e))
  /\ (forall h, to_hex c true = Ok h ->
        exists r g b a,
          (level r /\ level g /\ level b /\ level a)
          /\ h = hex_rgba r g b a
          /\ (let self' :=
                mkBeamerColor (node self) (hex_rgba r g b a)
                  (hex_rgb (255 - r) (255 - g) (255 - b)) (bg self) (inverted_bg self) in
              _set_fg c self = (self', Ok self'))
          /\ (let self' :=
                mkBeamerColor (node self) (fg self) (inverted_fg self)
                  (hex_rgba r g b a) (hex_rgb (255 - r) (255 - g) (255 - b)) in
              _set_bg c self = (self', Ok self')))
  /\ (forall l, c = CSeq l ->
        (List.length l = 3 \/ List.length l = 4)%nat ->
        existsb out_of_range l = false ->
        existsb PrimFloat.is_nan l = false ->
        exists h, to_hex c true = Ok h).
Proof.
  split; [|split].
  - intros e H. split; [now apply set_fg_raises|now apply set_bg_raises].
  - intros h H.
    destruct (to_hex_ok_levels c h H) as (r & g & b & a & (Hr & Hg & Hb & Ha) & ->).
    exists r, g, b, a. split; [auto|]. split; [reflexivity|]. split.
    + cbv zeta. now rewrite (set_fg_stores c self r g b a).
    + cbv zeta. now rewrite (set_bg_stores c self r g b a).
  - intros l -> Hlen Hr Hn. now apply to_hex_seq_returns.
Qed.

(** A string that is no colour leaves the node as it is; the colour
    [(0.5, 0.25, 0.125)], off the levels, is stored as [#804020ff]. *)
Lemma setters_outcomes_example :
  let self := BeamerColor_init md5_examples "x" in
  (_set_fg (CStr "#12") self = (self, Raise ValueError)
   /\ _set_bg (CStr "#12") self = (self, Raise ValueError))
  /\ (exists r g b a,
        (level r /\ level g /\ level b /\ level a)
        /\ "#804020ff" = hex_rgba r g b a
        /\ (let self' :=
              mkBeamerColor (node self) (hex_rgba r g b a)
                (hex_rgb (255 - r) (255 - g) (255 - b)) (bg self) (inverted_bg self) in
            _set_fg (CSeq [0.5; 0.25; 0.125]%float) self = (self', Ok self'))
        /\ (let self' :=
              mkBeamerColor (node self) (fg self) (inverted_fg self)
                (hex_rgba r g b a) (hex_rgb (255 - r) (255 - g) (255 - b)) in
            _set_bg (CSeq [0.5; 0.25; 0.125]%float) self = (self', Ok self'))).
Proof.
  cbv zeta.
  assert (Hbad : to_hex (CStr "#12") true = Raise ValueError)
    by (vm_compute; reflexivity).
  assert (Hok : to_hex (CSeq [0.5; 0.25; 0.125]%float) true = Ok "#804020ff")
    by (vm_compute; reflexivity).
  split.
  - exact (proj1 (setters_outcomes (CStr "#12") (BeamerColor_init md5_examples "x"))
             ValueError Hbad).
  - exact (proj1 (proj2 (setters_outcomes (CSeq [0.5; 0.25; 0.125]%float)
                           (BeamerColor_init md5_examples "x")))
             "#804020ff" Hok).
Defined.

(** X2.  Whatever colour it is given, [RawColor.set_color] does one of two
    things.  When [to_hex] raises, it raises the same exception and leaves
    the object exactly as it was.  When [to_hex] returns, what it returns is
    the lower-case [#rrggbbaa] form of four levels, and [set_color] returns
    the object with [color] set to it and [fontcolor] to its opaque
    complement [#rrggbb]; name, identifier and edges are untouched.  A
    sequence of three or four numbers within 0 and 1 is always of the second
    kind. *)
Theorem set_color_outcomes (c : color_arg) (self : RawColor) :
  (forall e, to_hex c true = Raise e -> set_color c self = (self, Raise e))
  /\ (forall h, to_hex c true = Ok h ->
        exists r g b a,
          (level r /\ level g /\ level b /\ level a)
          /\ h = hex_rgba r g b a
          /\ (let self' :=
                mkRawColor (raw_node self) (hex_rgba r g b a)
                  (hex_rgb (255 - r) (255 - g) (255 - b)) in
              set_color c self = (self', Ok self')))
  /\ (forall l, c = CSeq l ->
        (List.length l = 3 \/ List.length l = 4)%nat ->
        existsb out_of_range l = false ->
        existsb PrimFloat.is_nan l = false ->
        exists h, to_hex c true = Ok h).
Proof.
  split; [|split].
  - intros e H. unfold set_color, and_then, lift. now rewrite H.
  - intros h H.
    destruct (to_hex_ok_levels c h H) as (r & g & b & a & (Hr & Hg & Hb & Ha) & ->).
    exists r, g, b, a. split; [auto|]. split; [reflexivity|].
    cbv zeta. unfold set_color, and_then, lift, modify, return_self.
    rewrite H.
    rewrite (invert_color_on_levels _ r g b a Hr Hg Hb Ha
               (to_rgba_hex_rgba r g b a Hr Hg Hb Ha)).
    reflexivity.
  - intros l -> Hlen Hr Hn. now apply to_hex_seq_returns.
Qed.

Lemma set_color_outcomes_example :
  let self := RawColor_init md5_examples "x" in
  set_color (CStr "#12") self = (self, Raise ValueError)
  /\ (exists r g b a,
        (level r /\ level g /\ level b /\ level a)
        /\ "#804020ff" = hex_rgba r g b a
        /\ (let self' :=
              mkRawColor (raw_node self) (hex_rgba r g b a)
                (hex_rgb (255 - r) (255 - g) (255 - b)) in
            set_color (CSeq [0.5; 0.25; 0.125]%float) self = (self', Ok self'))).
Proof.
  cbv zeta.
  assert (Hbad : to_hex (CStr "#12") true = Raise ValueError)
    by (vm_compute; reflexivity).
  assert (Hok : to_hex (CSeq [0.5; 0.25; 0.125]%float) true = Ok "#804020ff")
    by (vm_compute; reflexivity).
  split.
  - exact (proj1 (set_color_outcomes (CStr "#12") (RawColor_init md5_examples "x"))
             ValueError Hbad).
  - exact (proj1 (proj2 (set_color_outcomes (CSeq [0.5; 0.25; 0.125]%float)
                           (RawColor_init md5_examples "x")))
             "#804020ff" Hok).
Defined.

(** X3.  Storing a value again is a no-op: after a setter has returned,
    calling it once more on the value the node now holds returns the node
    unchanged, channel and inverse included. *)
Theorem setters_idempotent (s : string) (self self' : BeamerColor) :
  (_set_fg (CStr s) self = (self', Ok self') ->
   _set_fg (CStr (fg self')) self' = (self', Ok self'))
  /\ (_set_bg (CStr s) self = (self', Ok self') ->
      _set_bg (CStr (bg self')) self' = (self', Ok self')).
Proof.
  split; intros Hrun.
  - destruct (set_fg_string_cases s self)
      as [[_ H]|(r & g & b & a & (Hr & Hg & Hb & Ha) & _ & H)];
      rewrite H in Hrun; [discriminate|].
    injection Hrun as <-.
    rewrite (set_fg_levels _ _ r g b a Hr Hg Hb Ha
               (to_rgba_hex_rgba r g b a Hr Hg Hb Ha)).
    reflexivity.
  - destruct (set_bg_string_cases s self)
      as [[_ H]|(r & g & b & a & (Hr & Hg & Hb & Ha) & _ & H)];
      rewrite H in Hrun; [discriminate|].
    injection Hrun as <-.
    rewrite (set_bg_levels _ _ r g b a Hr Hg Hb Ha
               (to_rgba_hex_rgba r g b a Hr Hg Hb Ha)).
    reflexivity.
Qed.

Lemma setters_idempotent_example :
  let self := BeamerColor_init md5_examples "x" in
  let self' :=
    mkBeamerColor (node self) "#336699cc" "#cc9966" "#00000000" "#ffffff" in
  _set_fg (CStr (fg self')) self' = (self', Ok self')
  /\ _set_bg (CStr (bg self')) self' = (self', Ok self').
Proof.
  cbv zeta. split.
  - apply (proj1 (setters_idempotent "#336699CC"
                    (mkBeamerColor (node (BeamerColor_init md5_examples "x"))
                       "#FFFFFF00" "#000000FF" "#00000000" "#ffffff") _)).
    vm_compute. reflexivity.
  - apply (proj2 (setters_idempotent "#00000000"
                    (mkBeamerColor (node (BeamerColor_init md5_examples "x"))
                       "#336699cc" "#cc9966" "#00000000" "#000000FF") _)).
    vm_compute. reflexivity.
Defined.

(** *** How [inherit] runs *)

Lemma blend_ok_nonempty (color_specs : list color_spec) c :
  _blend color_specs = Ok c -> color_specs <> [].
Proof. intros H ->. discriminate. Qed.

Lemma for_each_missing key (color_specs : list color_spec) (self : BeamerColor) :
  parents (node self) !! key = None ->
  color_specs <> [] ->
  for_each (fun color_spec => parents_append key (port_from color_spec))
    color_specs self
  = (self, Raise KeyError).
Proof.
  intros H Hne. destruct color_specs as [|spec specs]; [congruence|].
  cbn [for_each]. unfold and_then, parents_append. now rewrite H.
Qed.

(** Once the blend is computed and the destination key exists, [inherit]
    records the edges and then runs the setter of the destination, if any. *)
Lemma inherit_run ground_to color_specs (self : BeamerColor) l c :
  _blend color_specs = Ok c ->
  parents (node self) !! ground_to = Some l ->
  inherit ground_to color_specs self =
  let self1 := with_edges ground_to (l ++ map port_from color_specs) self in
  if String.eqb ground_to "fg" then returning_self (_set_fg (CStr c) self1)
  else if String.eqb ground_to "bg" then returning_self (_set_bg (CStr c) self1)
  else (self1, Ok self1).
Proof.
  intros Hb Hl. unfold inherit. unfold and_then at 1. unfold lift at 1.
  rewrite Hb. unfold and_then at 1. rewrite (record_edges _ _ _ _ Hl).
  cbv zeta.
  destruct (String.eqb ground_to "fg"); [|destruct (String.eqb ground_to "bg")].
  - unfold and_then, ret, return_self, returning_self.
    destruct (_set_fg (CStr c) _) as [s [v|e]]; reflexivity.
  - unfold and_then, ret, return_self, returning_self.
    destruct (_set_bg (CStr c) _) as [s [v|e]]; reflexivity.
  - reflexivity.
Qed.

Lemma inherit_blend_raises ground_to color_specs (self : BeamerColor) e :
  _blend color_specs = Raise e ->
  inherit ground_to color_specs self = (self, Raise e).
Proof.
  intros Hb. unfold inherit. unfold and_then at 1. unfold lift at 1.
  now rewrite Hb.
Qed.

Lemma inherit_key_missing ground_to color_specs (self : BeamerColor) c :
  _blend color_specs = Ok c ->
  parents (node self) !! ground_to = None ->
  inherit ground_to color_specs self = (self, Raise KeyError).
Proof.
  intros Hb Hl. unfold inherit. unfold and_then at 1. unfold lift at 1.
  rewrite Hb. unfold and_then at 1.
  now rewrite (for_each_missing _ _ _ Hl (blend_ok_nonempty _ _ Hb)).
Qed.

(** X4.  [inherit] fails without a trace in three cases: when the blend
    raises, that exception comes out and the node is unchanged; when the
    destination is not a key of the edge map, [KeyError] comes out and the
    node is unchanged, no edge recorded and no colour set; and with no
    argument at all it raises [IndexError]. *)
Theorem inherit_failures_leave_node (ground_to : string)
    (color_specs : list color_spec) (self : BeamerColor) :
  (forall e, _blend color_specs = Raise e ->
             inherit ground_to color_specs self = (self, Raise e))
  /\ (forall c, _blend color_specs = Ok c ->
                parents (node self) !! ground_to = None ->
                inherit ground_to color_specs self = (self, Raise KeyError))
  /\ inherit ground_to [] self = (self, Raise IndexError).
Proof.
  split; [|split].
  - intros e. apply inherit_blend_raises.
  - intros c. apply inherit_key_missing.
  - now apply inherit_blend_raises.
Qed.

Lemma inherit_failures_example :
  let self := BeamerColor_init md5_examples "x" in
  let black := Raw (raw_example "black" (CStr "#000000")) in
  inherit "fg" [mkSpec (Beamer self) "color" None] self = (self, Raise RuntimeError)
  /\ inherit "foreground" [mkSpec black "color" None] self = (self, Raise KeyError)
  /\ inherit "fg" [] self = (self, Raise IndexError).
Proof.
  cbv zeta.
  destruct (inherit_failures_leave_node "fg"
              [mkSpec (Beamer (BeamerColor_init md5_examples "x")) "color" None]
              (BeamerColor_init md5_examples "x")) as (H1 & _ & H3).
  destruct (inherit_failures_leave_node "foreground"
              [mkSpec (Raw (raw_example "black" (CStr "#000000"))) "color" None]
              (BeamerColor_init md5_examples "x")) as (_ & H2 & _).
  split; [|split].
  - apply H1. vm_compute. reflexivity.
  - apply (H2 "#000000ff"); vm_compute; reflexivity.
  - exact H3.
Defined.

(** *** What the methods leave alone *)

Lemma edges_grow_with_edges key l0 extra (self : BeamerColor) k l :
  parents (node self) !! key = Some l0 ->
  parents (node self) !! k = Some l ->
  exists l', parents (node (with_edges key (l0 ++ extra) self)) !! k
             = Some (l ++ l')%list.
Proof.
  intros H0 Hk. unfold with_edges, with_node, with_parents. cbn.
  destruct (decide (key = k)) as [->|Hne].
  - rewrite lookup_insert_eq. exists extra. congruence.
  - rewrite lookup_insert_ne by assumption. exists []. now rewrite app_nil_r.
Qed.

Lemma edges_grow_refl (self : BeamerColor) k l :
  parents (node self) !! k = Some l ->
  exists l', parents (node self) !! k = Some (l ++ l')%list.
Proof. intros H. exists []. now rewrite app_nil_r. Qed.

Lemma inherit_node ground_to color_specs (self : BeamerColor) l c :
  _blend color_specs = Ok c ->
  parents (node self) !! ground_to = Some l ->
  node (fst (inherit ground_to color_specs self))
  = node (with_edges ground_to (l ++ map port_from color_specs) self).
Proof.
  intros Hb Hl. rewrite (inherit_run _ _ _ _ _ Hb Hl). cbv zeta.
  set (self1 := with_edges ground_to (l ++ map port_from color_specs) self).
  destruct (String.eqb ground_to "fg"); [|destruct (String.eqb ground_to "bg")].
  - pose proof (set_fg_node (CStr c) self1) as Hn. unfold returning_self.
    destruct (_set_fg (CStr c) self1) as [s [v|e]]; exact Hn.
  - pose proof (set_bg_node (CStr c) self1) as Hn. unfold returning_self.
    destruct (_set_bg (CStr c) self1) as [s [v|e]]; exact Hn.
  - reflexivity.
Qed.

Lemma set_fg_keeps_bg (c : color_arg) (self : BeamerColor) :
  bg (fst (_set_fg c self)) = bg self
  /\ inverted_bg (fst (_set_fg c self)) = inverted_bg self.
Proof.
  unfold _set_fg, and_then, lift, modify, return_self.
  destruct (to_hex c true) as [h|e]; [|split; reflexivity].
  destruct (invert_color (CStr h)); split; reflexivity.
Qed.

Lemma set_bg_keeps_fg (c : color_arg) (self : BeamerColor) :
  fg (fst (_set_bg c self)) = fg self
  /\ inverted_fg (fst (_set_bg c self)) = inverted_fg self.
Proof.
  unfold _set_bg, and_then, lift, modify, return_self.
  destruct (to_hex c true) as [h|e]; [|split; reflexivity].
  destruct (invert_color (CStr h)); split; reflexivity.
Qed.

Lemma fst_returning_self (outcome : BeamerColor * result BeamerColor) :
  fst (returning_self outcome) = fst outcome.
Proof. destruct outcome as [s [v|e]]; reflexivity. Qed.

(** X5.  [inherit] never changes the name or the identifier of the node,
    never removes or reorders a recorded edge (every edge list keeps its
    entries and only grows at its end), and never touches a channel other
    than its destination: with destination ["fg"] the background and its
    inverse stay, with ["bg"] the foreground and its inverse stay, with any
    other destination all four stay.  This holds whether the call returns or
    raises. *)
Theorem inherit_frame (ground_to : string) (color_specs : list color_spec)
    (self : BeamerColor) :
  let self' := fst (inherit ground_to color_specs self) in
  (name (node self') = name (node self) /\ id (node self') = id (node self))
  /\ (ground_to <> "fg" -> fg self' = fg self /\ inverted_fg self' = inverted_fg self)
  /\ (ground_to <> "bg" -> bg self' = bg self /\ inverted_bg self' = inverted_bg self)
  /\ (forall k l, parents (node self) !! k = Some l ->
        exists l', parents (node self') !! k = Some (l ++ l')%list).
Proof.
  cbv zeta.
  destruct (_blend color_specs) as [c|e] eqn:Hb.
  2:{ rewrite (inherit_blend_raises _ _ _ _ Hb). cbn [fst].
      repeat split. intros k l. apply edges_grow_refl. }
  destruct (parents (node self) !! ground_to) as [l0|] eqn:Hl.
  2:{ rewrite (inherit_key_missing _ _ _ _ Hb Hl). cbn [fst].
      repeat split. intros k l. apply edges_grow_refl. }
  split; [|split; [|split]].
  - rewrite (inherit_node _ _ _ _ _ Hb Hl). split; reflexivity.
  - intros Hne. apply String.eqb_neq in Hne.
    rewrite (inherit_run _ _ _ _ _ Hb Hl). cbv zeta. rewrite Hne.
    destruct (String.eqb ground_to "bg").
    + rewrite fst_returning_self.
      destruct (set_bg_keeps_fg (CStr c)
                  (with_edges ground_to (l0 ++ map port_from color_specs) self))
        as [H1 H2].
      rewrite H1, H2. split; reflexivity.
    + split; reflexivity.
  - intros Hne. apply String.eqb_neq in Hne.
    rewrite (inherit_run _ _ _ _ _ Hb Hl). cbv zeta. rewrite Hne.
    destruct (String.eqb ground_to "fg").
    + rewrite fst_returning_self.
      destruct (set_fg_keeps_bg (CStr c)
                  (with_edges ground_to (l0 ++ map port_from color_specs) self))
        as [H1 H2].
      rewrite H1, H2. split; reflexivity.
    + split; reflexivity.
  - intros k l Hk. rewrite (inherit_node _ _ _ _ _ Hb Hl).
    now apply edges_grow_with_edges.
Qed.

Lemma inherit_frame_example :
  let black := Raw (raw_example "black" (CStr "#000000")) in
  let self :=
    fst (inherit "bg" [mkSpec black "color" None] (BeamerColor_init md5_examples "x")) in
  let self' := fst (inherit "fg" [mkSpec black "color" None] self) in
  (name (node self') = name (node self) /\ id (node self') = id (node self))
  /\ (bg self' = bg self /\ inverted_bg self' = inverted_bg self)
  /\ (exists l', parents (node self') !! "bg"
                 = Some ([port_from (mkSpec black "color" None)] ++ l')%list).
Proof.
  cbv zeta.
  destruct (inherit_frame "fg"
              [mkSpec (Raw (raw_example "black" (CStr "#000000"))) "color" None]
              (fst (inherit "bg"
                      [mkSpec (Raw (raw_example "black" (CStr "#000000"))) "color"
                         None]
                      (BeamerColor_init md5_examples "x"))))
    as (Hid & _ & Hbg & Hedges).
  split; [exact Hid|]. split.
  - apply Hbg. discriminate.
  - apply Hedges. vm_compute. reflexivity.
Defined.

(** *** How [set_parent] runs *)

Lemma set_parent_key_missing (parent : Color) (self : BeamerColor) :
  parents (node self) !! "both" = None ->
  set_parent parent self = (self, Raise KeyError).
Proof.
  intros H. unfold set_parent. unfold and_then at 1.
  unfold parents_append. now rewrite H.
Qed.

Lemma set_parent_raw (r : RawColor) (self : BeamerColor) l :
  parents (node self) !! "both" = Some l ->
  set_parent (Raw r) self =
  (with_edges "both" (l ++ [id (raw_node r)]) self, Raise AttributeError).
Proof.
  intros H. unfold set_parent. unfold and_then at 1.
  now rewrite (parents_append_run _ _ _ _ H).
Qed.

Lemma set_parent_beamer (p self : BeamerColor) l :
  parents (node self) !! "both" = Some l ->
  set_parent (Beamer p) self =
  match _set_fg (CStr (fg p)) (with_edges "both" (l ++ [id (node p)]) self) with
  | (self2, Ok _) => returning_self (_set_bg (CStr (bg p)) self2)
  | (self2, Raise e) => (self2, Raise e)
  end.
Proof.
  intros H. unfold set_parent. unfold and_then at 1.
  rewrite (parents_append_run _ _ _ _ H).
  unfold and_then at 1. unfold lift at 1. cbn [attr_fg Color_id].
  unfold and_then at 1.
  destruct (_set_fg (CStr (fg p)) _) as [self2 [v|e]]; [|reflexivity].
  unfold and_then at 1. unfold lift at 1. cbn [attr_bg].
  unfold and_then, return_self, returning_self.
  destruct (_set_bg (CStr (bg p)) self2) as [self3 [v'|e]]; reflexivity.
Qed.

(** X6.  [set_parent] is not atomic.  With the edge list ["both"] present,
    the edge to the parent is always recorded first; then a raw parent makes
    the call raise [AttributeError].  With a derived parent: when [to_hex]
    raises on the parent's foreground, the call raises the same exception
    with both channels unchanged; when it raises on the parent's background,
    the call raises that exception after the foreground and its inverse were
    already copied; otherwise the call returns the node with both channels
    copied, as the [#rrggbbaa] forms that [to_hex] prints, and both inverses
    recomputed. *)
Theorem set_parent_outcomes (parent : Color) (self : BeamerColor) (l : list string) :
  parents (node self) !! "both" = Some l ->
  let self1 := with_edges "both" (l ++ [Color_id parent]) self in
  match parent with
  | Raw _ => set_parent parent self = (self1, Raise AttributeError)
  | Beamer p =>
      (forall e, to_hex (CStr (fg p)) true = Raise e ->
         set_parent parent self = (self1, Raise e))
      /\ (forall hf, to_hex (CStr (fg p)) true = Ok hf ->
            exists r g b a,
              (level r /\ level g /\ level b /\ level a)
              /\ hf = hex_rgba r g b a
              /\ let self2 :=
                   with_inverted_fg (hex_rgb (255 - r) (255 - g) (255 - b))
                     (with_fg (hex_rgba r g b a) self1) in
                 (forall e, to_hex (CStr (bg p)) true = Raise e ->
                    set_parent parent self = (self2, Raise e))
                 /\ (forall hb, to_hex (CStr (bg p)) true = Ok hb ->
                       exists r' g' b' a',
                         (level r' /\ level g' /\ level b' /\ level a')
                         /\ hb = hex_rgba r' g' b' a'
                         /\ let self3 :=
                              with_inverted_bg (hex_rgb (255 - r') (255 - g') (255 - b'))
                                (with_bg (hex_rgba r' g' b' a') self2) in
                            set_parent parent self = (self3, Ok self3)))
  end.
Proof.
  intros H. cbv zeta. destruct parent as [r|p]; cbn [Color_id].
  - now apply set_parent_raw.
  - rewrite (set_parent_beamer _ _ _ H). split.
    + intros e Hf. now rewrite (set_fg_raises _ _ e Hf).
    + intros hf Hf.
      destruct (to_hex_ok_levels _ hf Hf)
        as (r & g & b & a & (Hr & Hg & Hb & Ha) & ->).
      exists r, g, b, a. split; [auto|]. split; [reflexivity|].
      rewrite (set_fg_stores _ _ r g b a Hr Hg Hb Ha Hf). split.
      * intros e Hbg. now rewrite (set_bg_raises _ _ e Hbg).
      * intros hb Hbg.
        destruct (to_hex_ok_levels _ hb Hbg)
          as (r' & g' & b' & a' & (Hr' & Hg' & Hb' & Ha') & ->).
        exists r', g', b', a'. split; [auto|]. split; [reflexivity|].
        now rewrite (set_bg_stores _ _ r' g' b' a' Hr' Hg' Hb' Ha' Hbg).
Qed.

(** A derived parent whose foreground is a colour and whose background is
    not: the call raises after the edge was recorded and the foreground and
    its inverse were copied, the background being left as it was. *)
Lemma set_parent_outcomes_example :
  let self := BeamerColor_init md5_examples "child" in
  let parent :=
    mkBeamerColor (node (BeamerColor_init md5_examples "parent"))
      "#336699CC" "#000000FF" "#12" "#000000FF" in
  let black := raw_example "black" (CStr "#000000") in
  set_parent (Beamer parent) self
  = (mkBeamerColor (node (with_edges "both" [id (node parent)] self))
       "#336699cc" "#cc9966" "#00000000" "#000000FF",
     Raise ValueError)
  /\ set_parent (Raw black) self
     = (with_edges "both" ([] ++ [id (raw_node black)]) self, Raise AttributeError).
Proof.
  cbv zeta.
  assert (Hkey : parents (node (BeamerColor_init md5_examples "child")) !! "both"
                 = Some []) by (vm_compute; reflexivity).
  split.
  - pose proof (set_parent_outcomes
                  (Beamer (mkBeamerColor (node (BeamerColor_init md5_examples "parent"))
                             "#336699CC" "#000000FF" "#12" "#000000FF"))
                  (BeamerColor_init md5_examples "child") [] Hkey) as [_ Hfg].
    cbn [fg bg] in Hfg.
    assert (Hf : to_hex (CStr "#336699CC") true = Ok "#336699cc")
      by (vm_compute; reflexivity).
    assert (Hb : to_hex (CStr "#12") true = Raise ValueError)
      by (vm_compute; reflexivity).
    destruct (Hfg _ Hf) as (r & g & b & a & (Hr & Hg & Hb' & Ha) & Hhex & Hraise & _).
    assert (L51 : level 51) by (unfold level; lia).
    assert (L102 : level 102) by (unfold level; lia).
    assert (L153 : level 153) by (unfold level; lia).
    assert (L204 : level 204) by (unfold level; lia).
    change "#336699cc" with (hex_rgba 51 102 153 204) in Hhex.
    destruct (hex_rgba_inj 51 102 153 204 r g b a L51 L102 L153 L204 Hr Hg Hb' Ha Hhex)
      as (<- & <- & <- & <-).
    rewrite (Hraise ValueError Hb). vm_compute. reflexivity.
  - apply (set_parent_outcomes (Raw (raw_example "black" (CStr "#000000")))
             (BeamerColor_init md5_examples "child") []).
    exact Hkey.
Defined.

(** *** Nodes a program can build keep valid colours *)

Lemma well_formed_init md5_hexdigest name :
  well_formed (BeamerColor_init md5_hexdigest name).
Proof.
  unfold well_formed. cbn [fg bg inverted_fg inverted_bg BeamerColor_init].
  assert (L0 : level 0) by (unfold level; lia).
  assert (L255 : level 255) by (unfold level; lia).
  repeat split.
  - exists 255, 255, 255, 0. repeat split; try apply L0; try apply L255.
  - exists 0, 0, 0, 255. repeat split; try apply L0; try apply L255.
  - exists 0, 0, 0, 0. repeat split; try apply L0; try apply L255.
  - exists 0, 0, 0, 255. repeat split; try apply L0; try apply L255.
Qed.

Lemma set_fg_well_formed (s : string) (self : BeamerColor) :
  well_formed self -> well_formed (fst (_set_fg (CStr s) self)).
Proof.
  intros (Hf & Hif & Hb & Hib).
  destruct (set_fg_string_cases s self)
    as [[_ H]|(r & g & b & a & (Hr & Hg & Hb' & Ha) & _ & H)]; rewrite H; cbn [fst].
  - repeat split; assumption.
  - unfold well_formed.
    cbn [fg bg inverted_fg inverted_bg with_fg with_inverted_fg].
    repeat split; try assumption.
    + now apply valid_hex_rgba.
    + apply valid_hex_rgb; now apply level_complement.
Qed.

Lemma set_bg_well_formed (s : string) (self : BeamerColor) :
  well_formed self -> well_formed (fst (_set_bg (CStr s) self)).
Proof.
  intros (Hf & Hif & Hb & Hib).
  destruct (set_bg_string_cases s self)
    as [[_ H]|(r & g & b & a & (Hr & Hg & Hb' & Ha) & _ & H)]; rewrite H; cbn [fst].
  - repeat split; assumption.
  - unfold well_formed.
    cbn [fg bg inverted_fg inverted_bg with_bg with_inverted_bg].
    repeat split; try assumption.
    + now apply valid_hex_rgba.
    + apply valid_hex_rgb; now apply level_complement.
Qed.

Lemma with_edges_well_formed key l (self : BeamerColor) :
  well_formed self -> well_formed (with_edges key l self).
Proof. intros H. exact H. Qed.

Lemma inherit_well_formed ground_to color_specs (self : BeamerColor) :
  well_formed self -> well_formed (fst (inherit ground_to color_specs self)).
Proof.
  intros Hwf.
  destruct (_blend color_specs) as [c|e] eqn:Hb.
  2:{ now rewrite (inherit_blend_raises _ _ _ _ Hb). }
  destruct (parents (node self) !! ground_to) as [l0|] eqn:Hl.
  2:{ now rewrite (inherit_key_missing _ _ _ _ Hb Hl). }
  rewrite (inherit_run _ _ _ _ _ Hb Hl). cbv zeta.
  destruct (String.eqb ground_to "fg"); [|destruct (String.eqb ground_to "bg")].
  - rewrite fst_returning_self.
    now apply set_fg_well_formed, with_edges_well_formed.
  - rewrite fst_returning_self.
    now apply set_bg_well_formed, with_edges_well_formed.
  - now apply with_edges_well_formed.
Qed.

Lemma set_parent_well_formed (parent : Color) (self : BeamerColor) :
  well_formed self -> well_formed (fst (set_parent parent self)).
Proof.
  intros Hwf.
  destruct (parents (node self) !! "both") as [l|] eqn:Hl.
  2:{ now rewrite (set_parent_key_missing _ _ Hl). }
  destruct parent as [r|p].
  - rewrite (set_parent_raw _ _ _ Hl). now apply with_edges_well_formed.
  - rewrite (set_parent_beamer _ _ _ Hl).
    pose proof (set_fg_well_formed (fg p) _
                  (with_edges_well_formed "both" (l ++ [id (node p)]) self Hwf)) as H2.
    destruct (_set_fg (CStr (fg p)) _) as [self2 [v|e]]; cbn [fst] in H2;
      [|exact H2].
    rewrite fst_returning_self. now apply set_bg_well_formed.
Qed.

Lemma built_well_formed md5_hexdigest (self : BeamerColor) :
  built md5_hexdigest self -> well_formed self.
Proof.
  induction 1 as [name|self g specs _ IH|self parent _ IH].
  - apply well_formed_init.
  - now apply inherit_well_formed.
  - now apply set_parent_well_formed.
Qed.

(** X7.  Whatever calls of [inherit] and [set_parent] were made on a new
    derived node, with whatever sources and whether they returned or raised,
    the node's foreground, background and both inverses are valid colours on
    the 256 levels, its edge map has exactly the keys ["both"], ["fg"] and
    ["bg"], and rendering it with [__str__] raises nothing. *)
Theorem built_node_invariant (md5_hexdigest : string -> string) (self : BeamerColor) :
  built md5_hexdigest self ->
  well_formed self
  /\ (forall k, is_Some (parents (node self) !! k)
                <-> k = "both" \/ k = "fg" \/ k = "bg")
  /\ exists markup, BeamerColor_str self = Ok markup.
Proof.
  intros Hb. split; [now apply (built_well_formed md5_hexdigest)|].
  pose proof (built_keys md5_hexdigest self Hb) as Hk.
  split; [exact Hk|].
  destruct (proj2 (Hk "both")) as [both Eboth]; [auto|].
  destruct (proj2 (Hk "fg")) as [fgs Efg]; [auto|].
  destruct (proj2 (Hk "bg")) as [bgs Ebg]; [auto|].
  unfold BeamerColor_str. rewrite Eboth. cbn [from_option bind for_enumerate].
  rewrite Efg. cbn [from_option bind]. rewrite Ebg. cbn [from_option bind].
  eexists. reflexivity.
Qed.

Lemma built_node_invariant_example :
  let black := Raw (raw_example "black" (CStr "#000000")) in
  let self :=
    fst (set_parent black
           (fst (inherit "fg" [mkSpec black "color" None]
                   (BeamerColor_init md5_examples "x")))) in
  well_formed self
  /\ (forall k, is_Some (parents (node self) !! k)
                <-> k = "both" \/ k = "fg" \/ k = "bg")
  /\ exists markup, BeamerColor_str self = Ok markup.
Proof.
  cbv zeta.
  apply (built_node_invariant md5_examples).
  apply built_set_parent, built_inherit, built_init.
Defined.

(** *** Copies between nodes *)

(** X8.  Between nodes a program can build, [set_parent] never raises: it
    returns the child, whose foreground and background read as the same
    colours as the parent's and whose inverses are the inverses of its own
    channels; the child is again a node with valid colours. *)
Theorem set_parent_between_built (md5_child md5_parent : string -> string)
    (child parent : BeamerColor) :
  built md5_child child ->
  built md5_parent parent ->
  exists child',
    set_parent (Beamer parent) child = (child', Ok child')
    /\ to_rgba (CStr (fg child')) = to_rgba (CStr (fg parent))
    /\ to_rgba (CStr (bg child')) = to_rgba (CStr (bg parent))
    /\ invert_color (CStr (fg child')) = Ok (inverted_fg child')
    /\ invert_color (CStr (bg child')) = Ok (inverted_bg child')
    /\ well_formed child'.
Proof.
  intros Hc Hp.
  destruct (proj2 (built_keys _ _ Hc "both")) as [l Hl]; [auto|].
  destruct (built_well_formed _ _ Hp)
    as ((rf & gf & bf & af & Hrf & Hgf & Hbf & Haf & Ef) & _
        & (rb & gb & bb & ab & Hrb & Hgb & Hbb & Hab & Eb) & _).
  pose proof (set_parent_well_formed (Beamer parent) child
                (built_well_formed _ _ Hc)) as Hwf.
  rewrite (set_parent_beamer _ _ _ Hl) in *.
  rewrite (set_fg_levels _ _ rf gf bf af Hrf Hgf Hbf Haf Ef) in *.
  rewrite (set_bg_levels _ _ rb gb bb ab Hrb Hgb Hbb Hab Eb) in *.
  cbn [returning_self fst] in *.
  eexists. split; [reflexivity|].
  cbn [fg bg inverted_fg inverted_bg with_inverted_bg with_bg with_inverted_fg
       with_fg].
  repeat split.
  - rewrite Ef. now apply to_rgba_hex_rgba.
  - rewrite Eb. now apply to_rgba_hex_rgba.
  - apply (invert_color_on_levels _ rf gf bf af); auto using to_rgba_hex_rgba.
  - apply (invert_color_on_levels _ rb gb bb ab); auto using to_rgba_hex_rgba.
  - apply Hwf.
  - apply Hwf.
  - apply Hwf.
  - apply Hwf.
Qed.

Lemma set_parent_between_built_example :
  let parent := BeamerColor_init md5_examples "parent" in
  let child := BeamerColor_init md5_examples "child" in
  exists child',
    set_parent (Beamer parent) child = (child', Ok child')
    /\ to_rgba (CStr (fg child')) = to_rgba (CStr (fg parent))
    /\ to_rgba (CStr (bg child')) = to_rgba (CStr (bg parent))
    /\ invert_color (CStr (fg child')) = Ok (inverted_fg child')
    /\ invert_color (CStr (bg child')) = Ok (inverted_bg child')
    /\ well_formed child'.
Proof.
  cbv zeta.
  apply (set_parent_between_built md5_examples md5_examples); apply built_init.
Defined.

(** X9.  [inherit] with a single argument copies: when the destination is
    ["fg"] or ["bg"] and the source channel holds a valid colour, the call
    returns the node, the destination channel reads as the source's colour
    (whatever weight the argument carries), one edge is recorded for the
    destination, and the other channel keeps its value. *)
Theorem inherit_single_copies (self : BeamerColor) (src : Color)
    (g ground_to : string) (w : option float) (l : list string) (c : string) :
  parents (node self) !! ground_to = Some l ->
  ground_to = "fg" \/ ground_to = "bg" ->
  get src g = Ok c ->
  valid_colour c ->
  exists self' c',
    inherit ground_to [mkSpec src g w] self = (self', Ok self')
    /\ get (Beamer self') ground_to = Ok c'
    /\ to_rgba (CStr c') = to_rgba (CStr c)
    /\ parents (node self') !! ground_to = Some (l ++ [port_from (mkSpec src g w)])%list
    /\ (ground_to = "fg" -> bg self' = bg self /\ inverted_bg self' = inverted_bg self)
    /\ (ground_to = "bg" -> fg self' = fg self /\ inverted_fg self' = inverted_fg self).
Proof.
  intros Hl Hg Hget (r & g' & b & a & Hr & Hg' & Hb & Ha & E).
  assert (Hblend : _blend [mkSpec src g w] = Ok c) by exact Hget.
  rewrite (inherit_run _ _ _ _ _ Hblend Hl). cbv zeta.
  destruct Hg as [-> | ->].
  - change (String.eqb "fg" "fg") with true. cbv iota.
    rewrite (set_fg_levels _ _ r g' b a Hr Hg' Hb Ha E). cbn [returning_self].
    eexists. exists (hex_rgba r g' b a). split; [reflexivity|].
    repeat split; try discriminate.
    + rewrite E. now apply to_rgba_hex_rgba.
    + cbn. apply lookup_insert_eq.
  - change (String.eqb "bg" "fg") with false.
    change (String.eqb "bg" "bg") with true. cbv iota.
    rewrite (set_bg_levels _ _ r g' b a Hr Hg' Hb Ha E). cbn [returning_self].
    eexists. exists (hex_rgba r g' b a). split; [reflexivity|].
    repeat split; try discriminate.
    + rewrite E. now apply to_rgba_hex_rgba.
    + cbn. apply lookup_insert_eq.
Qed.

Lemma inherit_single_copies_example :
  let self := BeamerColor_init md5_examples "x" in
  let white := Raw (raw_example "white" (CStr "#FFFFFF")) in
  exists self' c',
    inherit "bg" [mkSpec white "color" None] self = (self', Ok self')
    /\ get (Beamer self') "bg" = Ok c'
    /\ to_rgba (CStr c') = to_rgba (CStr "#ffffffff")
    /\ parents (node self') !! "bg" = Some ([] ++ [port_from (mkSpec white "color" None)])%list
    /\ ("bg" = "fg" -> bg self' = bg self /\ inverted_bg self' = inverted_bg self)
    /\ ("bg" = "bg" -> fg self' = fg self /\ inverted_fg self' = inverted_fg self).
Proof.
  cbv zeta.
  apply (inherit_single_copies (BeamerColor_init md5_examples "x")
           (Raw (raw_example "white" (CStr "#FFFFFF"))) "color" "bg" None []
           "#ffffffff").
  - vm_compute. reflexivity.
  - right. reflexivity.
  - vm_compute. reflexivity.
  - exists 255, 255, 255, 255.
    repeat split; try (unfold level; lia).
Defined.

(** *** More on blending *)

Lemma percent_weight_in w : 0 <= w <= 100 -> In w percent_weights.
Proof.
  intros H. unfold percent_weights.
  apply in_map_iff. exists (Z.to_nat w). split; [lia|].
  apply in_seq. lia.
Qed.

Lemma self_mix_all_checked : forallb self_mix_check_all percent_weights = true.
Proof. vm_compute. reflexivity. Qed.

Lemma self_mix_checked w n :
  0 <= w <= 100 -> level n ->
  out_of_range (mix n n (Py.float_of_Z w) (Py.float_of_Z (100 - w))) = false
  /\ Py.round (mix n n (Py.float_of_Z w) (Py.float_of_Z (100 - w)) * 255)%float
     = Ok n.
Proof.
  intros Hw Hn.
  assert (Hc := proj1 (forallb_forall _ _) self_mix_all_checked w
                  (percent_weight_in w Hw)).
  unfold self_mix_check_all in Hc.
  assert (Hc1 := proj1 (forallb_forall _ _) Hc n (level_in_all n Hn)).
  unfold self_mix_check in Hc1. cbv zeta in Hc1.
  apply andb_prop in Hc1 as [Hrange Hround].
  split; [now apply negb_true_iff|now apply result_is_eq].
Qed.

(** X10.  Blending a colour with itself gives it back: for every integer
    weight [w] from 0 to 100, two sources with the same red, green and blue
    levels blended at [w] and [100 - w] percent give exactly these levels, with
    the alpha of the first source; the call cannot raise. *)
Theorem blend_same_colour (w : Z) (s1 s2 : color_spec) (c1 c2 : string)
    (r g b a1 a2 : Z) :
  0 <= w <= 100 ->
  level r -> level g -> level b -> level a1 -> level a2 ->
  get (source s1) (ground s1) = Ok c1 ->
  to_rgba (CStr c1) = Ok [channel r; channel g; channel b; channel a1] ->
  percent s1 = Some (Py.float_of_Z w) ->
  get (source s2) (ground s2) = Ok c2 ->
  to_rgba (CStr c2) = Ok [channel r; channel g; channel b; channel a2] ->
  percent s2 = Some (Py.float_of_Z (100 - w)) ->
  _blend [s1; s2] = Ok (hex_rgba r g b a1)
  /\ to_rgba (CStr (hex_rgba r g b a1)) = to_rgba (CStr c1).
Proof.
  intros Hw Hr Hg Hb Ha1 Ha2 G1 E1 W1 G2 E2 W2.
  destruct (self_mix_checked w r Hw Hr) as [Rr Er].
  destruct (self_mix_checked w g Hw Hg) as [Rg Eg].
  destruct (self_mix_checked w b Hw Hb) as [Rb Eb].
  split; [|rewrite E1; now apply to_rgba_hex_rgba].
  rewrite (blend_weighted_sum s1
             ([channel r; channel g; channel b; channel a1], Py.float_of_Z w)
             [s2]
             [([channel r; channel g; channel b; channel a2],
               Py.float_of_Z (100 - w))]).
  - change (to_hex
              (CSeq [mix r r (Py.float_of_Z w) (Py.float_of_Z (100 - w));
                     mix g g (Py.float_of_Z w) (Py.float_of_Z (100 - w));
                     mix b b (Py.float_of_Z w) (Py.float_of_Z (100 - w));
                     channel a1]) true = Ok (hex_rgba r g b a1)).
    unfold to_hex, to_rgba.
    cbn [List.length Nat.eqb orb negb existsb].
    rewrite Rr, Rg, Rb, (channel_in_range a1 Ha1).
    cbn [orb bind map_result].
    rewrite Er, Eg, Eb, (round_channel a1 Ha1). reflexivity.
  - exists c1. auto.
  - constructor; [exists c2; auto|constructor].
  - discriminate.
Qed.

Lemma blend_same_colour_example :
  let p := BeamerColor_init md5_examples "parent" in
  _blend [mkSpec (Beamer p) "fg" (Some (Py.float_of_Z 40));
          mkSpec (Beamer p) "fg" (Some (Py.float_of_Z (100 - 40)))]
  = Ok "#ffffff00"
  /\ to_rgba (CStr "#ffffff00") = to_rgba (CStr "#FFFFFF00").
Proof.
  cbv zeta.
  apply (blend_same_colour 40 _ _ "#FFFFFF00" "#FFFFFF00" 255 255 255 0 0);
    first [ lia | unfold level; lia | vm_compute; reflexivity ].
Defined.

(** X11.  For the weights 25/75 and 50/50 of the catalogue, blending two
    valid colours never raises, and each red, green and blue level of the
    result lies between the two source levels. *)
Theorem blend_between_sources (w : Z) (s1 s2 : color_spec) (c1 c2 : string)
    (r1 g1 b1 a1 r2 g2 b2 a2 : Z) :
  In w catalogue_weights ->
  level r1 -> level g1 -> level b1 -> level a1 ->
  level r2 -> level g2 -> level b2 -> level a2 ->
  get (source s1) (ground s1) = Ok c1 ->
  to_rgba (CStr c1) = Ok [channel r1; channel g1; channel b1; channel a1] ->
  percent s1 = Some (Py.float_of_Z w) ->
  get (source s2) (ground s2) = Ok c2 ->
  to_rgba (CStr c2) = Ok [channel r2; channel g2; channel b2; channel a2] ->
  percent s2 = Some (Py.float_of_Z (100 - w)) ->
  exists r g b,
    _blend [s1; s2] = Ok (hex_rgba r g b a1)
    /\ Z.min r1 r2 <= r <= Z.max r1 r2
    /\ Z.min g1 g2 <= g <= Z.max g1 g2
    /\ Z.min b1 b2 <= b <= Z.max b1 b2.
Proof.
  intros Hw Hr1 Hg1 Hb1 Ha1 Hr2 Hg2 Hb2 Ha2 G1 E1 W1 G2 E2 W2.
  destruct (blend_two_levels w s1 s2 c1 c2 r1 g1 b1 a1 r2 g2 b2 a2
              Hw Hr1 Hg1 Hb1 Ha1 Hr2 Hg2 Hb2 Ha2 G1 E1 W1 G2 E2 W2)
    as (r & g & b & Hblend & [_ Nr] & [_ Ng] & [_ Nb]).
  exists r, g, b. split; [exact Hblend|].
  unfold level in *.
  destruct Hw as [<-|[<-|[]]]; repeat split; lia.
Qed.

Lemma blend_between_sources_example :
  exists r g b,
    _blend [mkSpec (Raw (raw_example "black" (CStr "#000000"))) "color"
              (Some (Py.float_of_Z 25));
            mkSpec (Raw (raw_example "white" (CStr "#FFFFFF"))) "color"
              (Some (Py.float_of_Z (100 - 25)))]
    = Ok (hex_rgba r g b 255)
    /\ Z.min 0 255 <= r <= Z.max 0 255
    /\ Z.min 0 255 <= g <= Z.max 0 255
    /\ Z.min 0 255 <= b <= Z.max 0 255.
Proof.
  apply (blend_between_sources 25 _ _ "#000000ff" "#ffffffff"
           0 0 0 255 255 255 255 255);
    first [ unfold level; lia
          | vm_compute; reflexivity
          | cbn; tauto ].
Defined.

Lemma for_enumerate_app {A B : Type} (body : nat -> A -> B -> result B)
    (xs ys : list A) :
  forall i acc,
    for_enumerate body i (xs ++ ys) acc =
    let* acc' := for_enumerate body i xs acc in
    for_enumerate body (i + List.length xs) ys acc'.
Proof.
  induction xs as [|x xs IH]; intros i acc.
  - cbn [app for_enumerate bind List.length]. now rewrite Nat.add_0_r.
  - cbn [app for_enumerate List.length].
    destruct (body i x acc) as [acc1|e]; cbn [bind]; [|reflexivity].
    rewrite IH. now rewrite Nat.add_succ_r.
Qed.

Lemma blend_many (color_specs : list color_spec) :
  List.length color_specs <> 1%nat ->
  _blend color_specs =
  let* result_color :=
    for_enumerate (fun _ => blend_step) 0 color_specs [0; 0; 0]%float in
  let* first := from_option IndexError (head color_specs) in
  let* c := get (source first) (ground first) in
  let* rgba := to_rgba (CStr c) in
  let* alpha := from_option IndexError (rgba !! 3%nat) in
  to_hex (CSeq (result_color ++ [alpha])%list) true.
Proof.
  destruct color_specs as [|a [|b rest]]; cbn [List.length]; try reflexivity.
  congruence.
Qed.

(** When the arguments before it resolve, an argument at which the loop of
    [_blend] raises makes the whole loop raise. *)
Lemma blend_loop_fails pre components bad post e :
  Forall2 resolves pre components ->
  (forall x0 x1 x2, blend_step bad [x0; x1; x2] = Raise e) ->
  for_enumerate (fun _ => blend_step) 0 (pre ++ bad :: post) [0; 0; 0]%float
  = Raise e.
Proof.
  intros Hpre Hbad. rewrite for_enumerate_app.
  rewrite (blend_loop_resolved _ _ Hpre). cbn [bind for_enumerate].
  now rewrite Hbad.
Qed.

(** X12.  With two or more arguments, [_blend] raises at the first argument
    that does not resolve, the arguments before it being fine: the exception
    of the source's [get] (a [RuntimeError] when a derived source is asked
    for a channel other than ["fg"] and ["bg"]), the [ValueError] of a stored
    value that is not a colour, or [IndexError] when the weight is missing. *)
Theorem blend_first_failure (pre post : list color_spec)
    (components : list (list float * float)) (bad : color_spec) :
  Forall2 resolves pre components ->
  (pre ++ post)%list <> [] ->
  (forall e, get (source bad) (ground bad) = Raise e ->
             _blend (pre ++ bad :: post) = Raise e)
  /\ (forall c e, get (source bad) (ground bad) = Ok c ->
                  to_rgba (CStr c) = Raise e ->
                  _blend (pre ++ bad :: post) = Raise e)
  /\ (forall c rgba, get (source bad) (ground bad) = Ok c ->
                     to_rgba (CStr c) = Ok rgba ->
                     percent bad = None ->
                     _blend (pre ++ bad :: post) = Raise IndexError).
Proof.
  intros Hpre Hne.
  assert (Hlen : List.length (pre ++ bad :: post) <> 1%nat).
  { rewrite length_app. cbn [List.length].
    destruct pre; destruct post; cbn [List.length]; try lia.
    exfalso. now apply Hne. }
  split; [|split].
  - intros e Hget. rewrite (blend_many _ Hlen).
    rewrite (blend_loop_fails pre components bad post e Hpre); [reflexivity|].
    intros x0 x1 x2. unfold blend_step. now rewrite Hget.
  - intros c e Hget Hrgba. rewrite (blend_many _ Hlen).
    rewrite (blend_loop_fails pre components bad post e Hpre); [reflexivity|].
    intros x0 x1 x2. unfold blend_step, to_rgb. rewrite Hget. cbn [bind].
    now rewrite Hrgba.
  - intros c rgba Hget Hrgba Hw. rewrite (blend_many _ Hlen).
    rewrite (blend_loop_fails pre components bad post IndexError Hpre);
      [reflexivity|].
    intros x0 x1 x2. unfold blend_step, to_rgb. rewrite Hget. cbn [bind].
    rewrite Hrgba.
    destruct (to_rgba_shape _ _ Hrgba) as (r & g & b & a & ->).
    cbn [bind take for_enumerate]. now rewrite Hw.
Qed.

Lemma blend_first_failure_example :
  let black := Raw (raw_example "black" (CStr "#000000")) in
  let x := Beamer (BeamerColor_init md5_examples "x") in
  _blend ([mkSpec black "color" (Some 50%float)]
          ++ mkSpec x "color" (Some 50%float) :: []) = Raise RuntimeError
  /\ _blend ([mkSpec black "color" (Some 50%float)]
             ++ mkSpec x "fg" None :: []) = Raise IndexError.
Proof.
  cbv zeta.
  assert (Hpre : Forall2 resolves
                   [mkSpec (Raw (raw_example "black" (CStr "#000000"))) "color"
                      (Some 50%float)]
                   [([0; 0; 0; 1]%float, 50%float)]).
  { constructor; [|constructor]. exists "#000000ff".
    repeat split; vm_compute; reflexivity. }
  split.
  - apply (proj1 (blend_first_failure _ [] _
                    (mkSpec (Beamer (BeamerColor_init md5_examples "x")) "color"
                       (Some 50%float)) Hpre ltac:(discriminate))).
    vm_compute. reflexivity.
  - apply (proj2 (proj2 (blend_first_failure _ [] _
                           (mkSpec (Beamer (BeamerColor_init md5_examples "x")) "fg"
                              None) Hpre ltac:(discriminate)))
             "#FFFFFF00" [1; 1; 1; 0]%float);
      vm_compute; reflexivity.
Defined.

(** *** Rendering *)

Lemma string_app_assoc (s1 s2 s3 : string) :
  ((s1 ++ s2) ++ s3 = s1 ++ (s2 ++ s3))%string.
Proof.
  induction s1 as [|c s1 IH]; [reflexivity|].
  cbv [String.append] in *. fold String.append in *. now rewrite IH.
Qed.

Lemma string_app_nil_r (s : string) : (s ++ "")%string = s.
Proof.
  induction s as [|c s IH]; [reflexivity|].
  cbv [String.append] in *. fold String.append in *. now rewrite IH.
Qed.

(** A loop that appends one line per element appends the lines joined. *)
Lemma fold_left_lines {A : Type} (line : A -> string) (xs : list A) :
  forall result : string,
    fold_left (fun result x => (result ++ line x)%string) xs result
    = (result ++ join_lines (map line xs))%string.
Proof.
  induction xs as [|x xs IH]; intros result.
  - cbn [fold_left map join_lines fold_right]. now rewrite string_app_nil_r.
  - cbn [fold_left map join_lines fold_right]. rewrite IH.
    now rewrite string_app_assoc.
Qed.

Lemma prefix_colon (rest tl : string) (c : ascii) :
  c <> ":"%char -> String.prefix (String ":" rest) (String c tl) = false.
Proof.
  intros H. cbn [String.prefix].
  destruct (ascii_dec ":" c) as [E|_]; [congruence|reflexivity].
Qed.

(** A needle that starts with a colon is not found in a text without colon. *)
Lemma str_in_skip (rest pre tl : string) :
  colon_free pre ->
  str_in (String ":" rest) (pre ++ tl) = str_in (String ":" rest) tl.
Proof.
  unfold colon_free.
  induction pre as [|c pre IH]; intros H; [reflexivity|].
  cbn [String.list_ascii_of_string forallb] in H.
  apply andb_prop in H as [Hc Hpre].
  apply negb_true_iff, Ascii.eqb_neq in Hc.
  change (String c pre ++ tl)%string with (String c (pre ++ tl)).
  cbn [str_in]. rewrite (prefix_colon _ _ _ Hc). cbn [orb]. now apply IH.
Qed.

Lemma colon_free_dquote : colon_free dquote.
Proof. reflexivity. Qed.

(** The substring tests of [__str__] recover the source channel of an edge
    recorded by [inherit]. *)
Lemma arrowtail_port_from (spec : color_spec) :
  colon_free (Color_id (source spec)) ->
  arrowtail (port_from spec) = tail_of_ground (ground spec).
Proof.
  intros Hid. unfold arrowtail, port_from, tail_of_ground. cbv zeta.
  rewrite !(str_in_skip _ dquote _ colon_free_dquote).
  rewrite !(str_in_skip _ (Color_id (source spec)) _ Hid).
  rewrite !(str_in_skip _ dquote _ colon_free_dquote).
  destruct (String.eqb (ground spec) "fg") eqn:Efg.
  { apply String.eqb_eq in Efg. rewrite Efg. reflexivity. }
  destruct (String.eqb (ground spec) "bg") eqn:Ebg.
  { apply String.eqb_eq in Ebg. rewrite Ebg. reflexivity. }
  reflexivity.
Qed.

Lemma arrow_lines_of_specs (self_id port_to head : string)
    (color_specs : list color_spec) :
  Forall (fun spec => colon_free (Color_id (source spec))) color_specs ->
  map (fun port_from =>
         arrow_line self_id port_to head (arrowtail port_from) port_from)
      (map port_from color_specs)
  = map (fun spec =>
           arrow_line self_id port_to head (tail_of_ground (ground spec))
             (port_from spec))
        color_specs.
Proof.
  induction 1 as [|spec specs Hspec _ IH]; [reflexivity|].
  cbn [map]. now rewrite IH, (arrowtail_port_from _ Hspec).
Qed.

(** X13.  [__str__] renders every recorded edge exactly once, after the
    node: a dotted line per entry of ["both"], then one arrow per edge
    recorded by [inherit] for the foreground (head [obox]) and for the
    background (head [box]).  When the identifiers of the sources contain no
    colon, as md5 digests do, the tail of each arrow tells the source channel:
    [oinv] for a foreground, [inv] for a background, [none] for a raw
    colour. *)
Theorem str_renders_edges (self : BeamerColor) (both : list string)
    (fg_specs bg_specs : list color_spec) :
  parents (node self) !! "both" = Some both ->
  parents (node self) !! "fg" = Some (map port_from fg_specs) ->
  parents (node self) !! "bg" = Some (map port_from bg_specs) ->
  Forall (fun spec => colon_free (Color_id (source spec))) (fg_specs ++ bg_specs) ->
  BeamerColor_str self =
  Ok (BeamerColor_template self
      ++ join_lines (map (dotted_line (id (node self))) both)
      ++ join_lines (map (fun spec =>
                      arrow_line (id (node self)) "fg" "obox"
                        (tail_of_ground (ground spec)) (port_from spec))
                   fg_specs)
      ++ join_lines (map (fun spec =>
                      arrow_line (id (node self)) "bg" "box"
                        (tail_of_ground (ground spec)) (port_from spec))
                   bg_specs))%string.
Proof.
  intros Hboth Hfg Hbg Hids.
  apply Forall_app in Hids as [Hf Hb].
  unfold BeamerColor_str. rewrite Hboth. cbn [from_option bind for_enumerate].
  rewrite Hfg. cbn [from_option bind]. rewrite Hbg. cbn [from_option bind].
  rewrite !fold_left_lines.
  rewrite (arrow_lines_of_specs _ _ _ _ Hf), (arrow_lines_of_specs _ _ _ _ Hb).
  now rewrite !string_app_assoc.
Qed.

Lemma str_renders_edges_example :
  let black := Raw (raw_example "black" (CStr "#000000")) in
  let parent := BeamerColor_init md5_examples "parent" in
  let fg_specs := [mkSpec black "color" None] in
  let bg_specs :=
    [mkSpec (Beamer parent) "fg" (Some 50%float);
     mkSpec (Beamer parent) "bg" (Some 50%float)] in
  let self :=
    fst (inherit "bg" bg_specs
           (fst (inherit "fg" fg_specs
                   (fst (set_parent (Beamer parent)
                           (BeamerColor_init md5_examples "x")))))) in
  BeamerColor_str self =
  Ok (BeamerColor_template self
      ++ join_lines (map (dotted_line (id (node self))) [id (node parent)])
      ++ join_lines (map (fun spec =>
                      arrow_line (id (node self)) "fg" "obox"
                        (tail_of_ground (ground spec)) (port_from spec))
                   fg_specs)
      ++ join_lines (map (fun spec =>
                      arrow_line (id (node self)) "bg" "box"
                        (tail_of_ground (ground spec)) (port_from spec))
                   bg_specs))%string.
Proof.
  cbv zeta.
  apply str_renders_edges.
  - vm_compute. reflexivity.
  - vm_compute. reflexivity.
  - vm_compute. reflexivity.
  - repeat constructor.
Defined.

(** *** The output file of [generate] *)

Lemma translate_char_safe (c : ascii) :
  translate_char c <> " "%char /\ translate_char c <> "/"%char
  /\ translate_char c <> ":"%char.
Proof.
  unfold translate_char.
  destruct (Ascii.eqb c " ") eqn:E1; [repeat split; discriminate|].
  destruct (Ascii.eqb c "/") eqn:E2; [repeat split; discriminate|].
  destruct (Ascii.eqb c ":") eqn:E3; [repeat split; discriminate|].
  apply Ascii.eqb_neq in E1, E2, E3. auto.
Qed.

Lemma translate_char_other (c : ascii) :
  c <> " "%char -> c <> "/"%char -> c <> ":"%char -> translate_char c = c.
Proof.
  intros H1 H2 H3. unfold translate_char.
  apply Ascii.eqb_neq in H1, H2, H3. now rewrite H1, H2, H3.
Qed.

(** X14.  [generate] runs [dot -T svg -o FILE], where FILE is the name of
    the graph with every space and colon replaced by an underscore and every
    slash by a hyphen, followed by [.svg]: FILE has the length of the name
    plus four and contains no space, slash or colon, so the file is always
    written in the current directory; the other characters of the name are
    kept, and translating again changes nothing. *)
Theorem generate_output_file (graph_name : string) :
  generate_command graph_name
  = ["dot"; "-T"; "svg"; "-o"; (translate graph_name ++ ".svg")%string]
  /\ String.length (translate graph_name ++ ".svg") = (String.length graph_name + 4)%nat
  /\ Forall (fun c => c <> " "%char /\ c <> "/"%char /\ c <> ":"%char)
       (String.list_ascii_of_string (translate graph_name ++ ".svg"))
  /\ translate (translate graph_name) = translate graph_name
  /\ (Forall (fun c => c <> " "%char /\ c <> "/"%char /\ c <> ":"%char)
        (String.list_ascii_of_string graph_name) ->
      translate graph_name = graph_name).
Proof.
  split; [reflexivity|].
  induction graph_name as [|c name (Hlen & Hsafe & Hidem & Hid)].
  - repeat split; try reflexivity. repeat constructor; discriminate.
  - change (translate (String c name) ++ ".svg")%string
      with (String (translate_char c) (translate name ++ ".svg")).
    cbn [String.length String.list_ascii_of_string]. repeat split.
    + cbn [Nat.add]. now rewrite Hlen.
    + constructor; [apply translate_char_safe|exact Hsafe].
    + cbn [translate]. rewrite Hidem. f_equal.
      destruct (translate_char_safe c) as (H1 & H2 & H3).
      now apply translate_char_other.
    + intros H. apply Forall_cons in H as [(H1 & H2 & H3) Hrest].
      cbn [translate]. rewrite (Hid Hrest). f_equal.
      now apply translate_char_other.
Qed.

Lemma generate_output_file_example :
  generate_command "Beamer color theme : default"
  = ["dot"; "-T"; "svg"; "-o"; "Beamer_color_theme___default.svg"]
  /\ translate "palette" = "palette".
Proof.
  destruct (generate_output_file "Beamer color theme : default") as (H & _).
  destruct (generate_output_file "palette") as (_ & _ & _ & _ & Hid).
  split; [exact H|]. apply Hid.
  repeat constructor; discriminate.
Defined.

(** *** Containers *)

Lemma dict_get_set {V : Type} (k k' : string) (v : V) (d : list (string * V)) :
  dict_get k' (dict_set k v d) =
  if String.eqb k k' then Some v else dict_get k' d.
Proof.
  induction d as [|[k0 v0] d IH]; cbn [dict_set dict_get]; [reflexivity|].
  destruct (String.eqb k0 k) eqn:E0.
  - apply String.eqb_eq in E0. subst k0. cbn [dict_get].
    destruct (String.eqb k k'); reflexivity.
  - cbn [dict_get]. destruct (String.eqb k0 k') eqn:E1; [|exact IH].
    apply String.eqb_eq in E1. subst k0.
    rewrite String.eqb_sym in E0. now rewrite E0.
Qed.

Lemma dict_set_keys {V : Type} (k : string) (v : V) (d : list (string * V)) :
  map fst (dict_set k v d) =
  match dict_get k d with
  | Some _ => map fst d
  | None => (map fst d ++ [k])%list
  end.
Proof.
  induction d as [|[k0 v0] d IH]; cbn [dict_set dict_get map fst app];
    [reflexivity|].
  destruct (String.eqb k0 k) eqn:E0.
  - apply String.eqb_eq in E0. now subst k0.
  - cbn [map fst]. rewrite IH. destruct (dict_get k d); reflexivity.
Qed.

Lemma dict_get_none_keys {V : Type} (k : string) (d : list (string * V)) :
  dict_get k d = None -> ~ In k (map fst d).
Proof.
  induction d as [|[k0 v0] d IH]; cbn [dict_get map fst In]; [tauto|].
  destruct (String.eqb k0 k) eqn:E0; [discriminate|].
  apply String.eqb_neq in E0. intros H [E|Hin]; [congruence|]. now apply IH.
Qed.

Lemma dict_set_nodup {V : Type} (k : string) (v : V) (d : list (string * V)) :
  List.NoDup (map fst d) -> List.NoDup (map fst (dict_set k v d)).
Proof.
  intros H. rewrite dict_set_keys.
  destruct (dict_get k d) eqn:E; [exact H|].
  apply NoDup_ListNoDup, NoDup_app. apply NoDup_ListNoDup in H.
  split; [exact H|]. split.
  - intros x Hx Hk. apply list_elem_of_In in Hx. apply list_elem_of_In in Hk.
    destruct Hk as [<-|[]]. now apply (dict_get_none_keys k d E).
  - apply NoDup_singleton.
Qed.

Lemma dict_update_get {V : Type} (items : list (string * V)) :
  forall (d : list (string * V)) (k : string),
    dict_get k (dict_update d items) =
    match fold_left (fun acc (item : string * V) =>
                       if String.eqb (fst item) k then Some (snd item) else acc)
            items None with
    | Some v => Some v
    | None => dict_get k d
    end.
Proof.
  unfold dict_update.
  induction items as [|[k0 v0] items IH] using rev_ind; intros d k.
  - reflexivity.
  - rewrite !fold_left_app. cbn [fold_left fst snd].
    rewrite dict_get_set. destruct (String.eqb k0 k); [reflexivity|]. apply IH.
Qed.

Lemma dict_update_nodup {V : Type} (items : list (string * V)) :
  forall d : list (string * V),
    List.NoDup (map fst d) -> List.NoDup (map fst (dict_update d items)).
Proof.
  unfold dict_update.
  induction items as [|[k0 v0] items IH]; intros d H; [exact H|].
  cbn [fold_left fst snd]. apply IH. now apply dict_set_nodup.
Qed.

Lemma dict_update_keys {V : Type} (items : list (string * V)) :
  forall d : list (string * V),
    exists new, map fst (dict_update d items) = (map fst d ++ new)%list.
Proof.
  unfold dict_update.
  induction items as [|[k0 v0] items IH]; intros d.
  - exists []. cbn [fold_left]. now rewrite app_nil_r.
  - cbn [fold_left fst snd].
    destruct (IH (dict_set k0 v0 d)) as [new Hnew]. rewrite Hnew.
    rewrite dict_set_keys. destruct (dict_get k0 d).
    + now exists new.
    + exists (k0 :: new). now rewrite <- app_assoc.
Qed.

Lemma last_named_items {V : Type} (member_name : V -> string) (k : string)
    (l : list V) :
  forall acc : option V,
    fold_left (fun acc (item : string * V) =>
                 if String.eqb (fst item) k then Some (snd item) else acc)
      (map (fun c => (member_name c, c)) l) acc
    = fold_left (fun acc c => if String.eqb (member_name c) k then Some c else acc)
        l acc.
Proof.
  induction l as [|c l IH]; intros acc; [reflexivity|].
  cbn [map fold_left fst snd]. apply IH.
Qed.

(** X15.  [add_colors] with a list files every member under its name: a
    name then maps to the last member of the list that bears it, replacing
    any member the graph held under that name, and every other name maps to
    what it mapped to before.  Keys stay unique, the keys already present keep
    their places (new ones are added at the end), and the name and id of the
    graph are unchanged. *)
Theorem add_colors_files_by_name {V : Type} (member_name : V -> string)
    (self : BeamerColorGraph V) (l : list V) (k : string) :
  List.NoDup (map fst (colors self)) ->
  let self' := add_colors member_name (inr l) self in
  dict_get k (colors self') =
    match last_named member_name k l with
    | Some c => Some c
    | None => dict_get k (colors self)
    end
  /\ List.NoDup (map fst (colors self'))
  /\ (exists new, map fst (colors self') = (map fst (colors self) ++ new)%list)
  /\ graph_name self' = graph_name self
  /\ graph_id self' = graph_id self.
Proof.
  intros Hnd. cbv zeta. cbn [add_colors colors graph_name graph_id].
  split; [|split; [|split; [|split; reflexivity]]].
  - rewrite dict_update_get. unfold last_named. now rewrite last_named_items.
  - now apply dict_update_nodup.
  - apply dict_update_keys.
Qed.

Lemma add_colors_files_by_name_example :
  let a := RawColor_init md5_examples "black" in
  let b := raw_example "black" (CStr "#000000") in
  let w := raw_example "white" (CStr "#FFFFFF") in
  let self' :=
    add_colors (fun c => name (raw_node c)) (inr [a; w; b])
      (BeamerColorGraph_init md5_examples "x") in
  dict_get "black" (colors self') = Some b
  /\ List.NoDup (map fst (colors self'))
  /\ (exists new, map fst (colors self') = ([] ++ new)%list)
  /\ graph_name self' = "x"
  /\ graph_id self' = "9dd4e461268c8034f5c8564e155c67a6".
Proof.
  cbv zeta.
  apply (add_colors_files_by_name (fun c => name (raw_node c))
           (BeamerColorGraph_init md5_examples "x")
           [RawColor_init md5_examples "black";
            raw_example "white" (CStr "#FFFFFF");
            raw_example "black" (CStr "#000000")] "black").
  constructor.
Defined.

Lemma dict_get_not_in {V : Type} (k : string) (d : list (string * V)) :
  ~ In k (map fst d) -> dict_get k d = None.
Proof.
  induction d as [|[k0 v0] d IH]; cbn [dict_get map fst In]; [reflexivity|].
  intros H. destruct (String.eqb k0 k) eqn:E0.
  - apply String.eqb_eq in E0. tauto.
  - apply IH. tauto.
Qed.

Lemma last_binding_unique {V : Type} (k : string) (d : list (string * V)) :
  List.NoDup (map fst d) ->
  forall acc : option V,
    fold_left (fun acc (item : string * V) =>
                 if String.eqb (fst item) k then Some (snd item) else acc)
      d acc
    = match dict_get k d with
      | Some v => Some v
      | None => acc
      end.
Proof.
  induction d as [|[k0 v0] d IH]; intros Hnd acc; [reflexivity|].
  cbn [map fst] in Hnd. apply List.NoDup_cons_iff in Hnd as [Hnot Hnd].
  cbn [fold_left dict_get fst snd]. rewrite (IH Hnd).
  destruct (String.eqb k0 k) eqn:E0; [|reflexivity].
  apply String.eqb_eq in E0. subst k0.
  now rewrite (dict_get_not_in k d Hnot).
Qed.

(** X16.  [add_colors] with a dict is an update: a key of the argument maps
    to the argument's value, whether the graph had that key or not, and every
    other key maps to what it mapped to before.  Keys stay unique, the keys
    already present keep their places, and the name and id of the graph are
    unchanged. *)
Theorem add_colors_dict_updates {V : Type} (member_name : V -> string)
    (self : BeamerColorGraph V) (d : list (string * V)) (k : string) :
  List.NoDup (map fst d) ->
  List.NoDup (map fst (colors self)) ->
  let self' := add_colors member_name (inl d) self in
  dict_get k (colors self') =
    match dict_get k d with
    | Some c => Some c
    | None => dict_get k (colors self)
    end
  /\ List.NoDup (map fst (colors self'))
  /\ (exists new, map fst (colors self') = (map fst (colors self) ++ new)%list)
  /\ graph_name self' = graph_name self
  /\ graph_id self' = graph_id self.
Proof.
  intros Hd Hnd. cbv zeta. cbn [add_colors colors graph_name graph_id].
  split; [|split; [|split; [|split; reflexivity]]].
  - rewrite dict_update_get, (last_binding_unique k d Hd).
    destruct (dict_get k d); reflexivity.
  - now apply dict_update_nodup.
  - apply dict_update_keys.
Qed.

Lemma add_colors_dict_updates_example :
  let b := raw_example "black" (CStr "#000000") in
  let w := raw_example "white" (CStr "#FFFFFF") in
  let self :=
    add_colors (fun c => name (raw_node c)) (inl [("black", w)])
      (BeamerColorGraph_init md5_examples "x") in
  let self' :=
    add_colors (fun c => name (raw_node c)) (inl [("white", w); ("black", b)]) self in
  dict_get "black" (colors self') = Some b
  /\ List.NoDup (map fst (colors self'))
  /\ (exists new, map fst (colors self') = (["black"] ++ new)%list)
  /\ graph_name self' = "x"
  /\ graph_id self' = "9dd4e461268c8034f5c8564e155c67a6".
Proof.
  cbv zeta.
  apply (add_colors_dict_updates (fun c => name (raw_node c))
           (add_colors (fun c => name (raw_node c))
              (inl [("black", raw_example "white" (CStr "#FFFFFF"))])
              (BeamerColorGraph_init md5_examples "x"))
           [("white", raw_example "white" (CStr "#FFFFFF"));
            ("black", raw_example "black" (CStr "#000000"))] "black").
  - repeat constructor; cbn; intuition discriminate.
  - repeat constructor. cbn. tauto.
Defined.
